(** * sistema_bancario: the concurrent load tester

    A shallow embedding of [concurrent_load_test_improved.py]: the connector
    ([make_conn]), the transaction executor ([worker_task]), the
    dispatcher / aggregator ([run_experiment]), the reader of the accounts
    argument ([parse_accounts]) and the loop of [main] over the runs, with
    the properties of the load-generation and measurement engine stated over
    it.

    Conventions of the embedding.
    - Python [float] values (amounts, delays, latencies, rates) are the
      finite binary64 numbers, each held as the rational [Q] it denotes;
      every arithmetic operation rounds its exact result to the nearest
      binary64 number, ties to even. Infinities, NaN and the sign of zero
      are not part of the model, nor is overflow beyond the largest
      binary64 number: the statements are about the runs in which no float
      operation overflows (clocks, delays and latencies far below 1.8e308
      seconds, two clock readings that differ by 0 or by far more than
      1e-300 seconds).
    - An output file is the list of its lines, found by its path; a missing
      file and an empty file are alike. The file layer is an oracle: each
      [with open(path, 'a')] block stores every line, or fails to open, or
      fails after some of the lines were written.
    - Every exception of the model is an instance of Python's [Exception]
      (the classes psycopg2, the file layer and the interpreter raise here);
      the interpreter-exit signals that sit outside [Exception] are not
      modelled.
    - The database is an oracle: its answer to a call is any function of the
      history of the invocation so far.
    - The concurrent tasks of a run meet only in the database, so each task
      runs in a world of its own and completes at an instant of its own; both
      are arbitrary. *)

From Stdlib Require Import ZArith QArith Qround Qabs Qpower Qreduction List
  String Ascii Bool Lia Lqa Permutation.
From Stdlib Require DecimalString DecimalPos DecimalZ.
Import ListNotations.

Set Implicit Arguments.

(* ------------------------------------------------------------------ *)
(** ** Strings *)

Definition str_eqb (a b : string) : bool := String.eqb a b.

(** Python's [sub in s]. *)
Fixpoint contains (sub s : string) : bool :=
  if String.prefix sub s then true
  else match s with
       | EmptyString => false
       | String _ s' => contains sub s'
       end.

(** [s.replace('\n', ' | ')]. *)
Fixpoint replace_newline (s : string) : string :=
  match s with
  | EmptyString => EmptyString
  | String c s' =>
      if Ascii.eqb c "010"%char
      then String.append " | " (replace_newline s')
      else String c (replace_newline s')
  end.

(* ------------------------------------------------------------------ *)
(** ** Exceptions and the state-and-exception monad *)

Inductive exn_class : Type :=
| OperationalError | DatabaseError | IndexError | ValueError | OverflowError
| OSError | OtherError.

Record exn : Type := mkExn { exn_kind : exn_class; exn_msg : string }.

(** [isinstance(e, OperationalError)], the test of [except OperationalError]. *)
Definition is_operational (e : exn) : bool :=
  match exn_kind e with OperationalError => true | _ => false end.

(** [except Exception] catches every exception of the model. *)
Definition is_exception (e : exn) : bool := true.

(** What a call into the outside world does: it returns or it throws. *)
Inductive answer (A : Type) : Type :=
| Returns (a : A)
| Throws (e : exn).
Arguments Throws {A} e.

(** What a piece of code does: it returns, it raises, or the model ran out
    of loop fuel (which the theorems exclude). *)
Inductive result (A : Type) : Type :=
| Ok (a : A)
| Raise (e : exn)
| OutOfFuel.
Arguments Raise {A} e.
Arguments OutOfFuel {A}.

Definition SE (S A : Type) : Type := S -> result A * S.

Definition ret {S A} (a : A) : SE S A := fun s => (Ok a, s).

Definition bind {S A B} (m : SE S A) (k : A -> SE S B) : SE S B :=
  fun s => match m s with
           | (Ok a, s') => k a s'
           | (Raise e, s') => (Raise e, s')
           | (OutOfFuel, s') => (OutOfFuel, s')
           end.

Definition raise {S A} (e : exn) : SE S A := fun s => (Raise e, s).

(** [try: body / except <catches> as e: handler e]. *)
Definition try_except {S A} (body : SE S A) (catches : exn -> bool)
    (handler : exn -> SE S A) : SE S A :=
  fun s => match body s with
           | (Raise e, s') => if catches e then handler e s' else (Raise e, s')
           | r => r
           end.

(** [try: body / finally: fin]: [fin] runs on every exit of [body]; an
    exception of [fin] replaces the outcome of [body]. *)
Definition try_finally {S A} (body : SE S A) (fin : SE S unit) : SE S A :=
  fun s => match body s with
           | (OutOfFuel, s1) => (OutOfFuel, s1)
           | (r, s1) => match fin s1 with
                        | (Ok _, s2) => (r, s2)
                        | (Raise e, s2) => (Raise e, s2)
                        | (OutOfFuel, s2) => (OutOfFuel, s2)
                        end
           end.

Declare Scope se_scope.
Delimit Scope se_scope with se.
Notation "x <- c ;; k" := (bind c (fun x => k))
  (at level 61, c at next level, right associativity) : se_scope.
Notation "c ;;; k" := (bind c (fun _ => k))
  (at level 61, right associativity) : se_scope.

(* ------------------------------------------------------------------ *)
(** ** Python floats: binary64 arithmetic *)

Open Scope Q_scope.

(** The nearest integer, ties to the even one. *)
Definition round_half_even (x : Q) : Z :=
  let f := Qfloor x in
  match ((x - inject_Z f) ?= (1 # 2))%Q with
  | Lt => f
  | Gt => (f + 1)%Z
  | Eq => if Z.even f then f else (f + 1)%Z
  end.

Definition pow2 (k : Z) : Q := 2 ^ k.

(** [floor (log2 |x|)], for [x] other than zero. *)
Definition binade (x : Q) : Z :=
  let n := Z.abs (Qnum x) in
  let d := Zpos (Qden x) in
  let s := (Z.log2 d + 1)%Z in
  (Z.log2 (n * 2 ^ s / d) - s)%Z.

(** The exponent of the unit in the last place of the binary64 numbers
    around [x]: 53 bits of precision, subnormal numbers below 2^-1022. *)
Definition ulp_exp (x : Q) : Z := Z.max (binade x - 52) (-1074).

(** Rounding to the nearest binary64 number, ties to even. *)
Definition fl (x : Q) : Q :=
  let k := ulp_exp x in
  Qred (inject_Z (round_half_even (x * pow2 (- k))) * pow2 k).

(** The operations of Python on floats. *)
Definition fadd (x y : Q) : Q := fl (x + y).
Definition fsub (x y : Q) : Q := fl (x - y).
Definition fmul (x y : Q) : Q := fl (x * y).
Definition fdiv (x y : Q) : Q := fl (x / y).

(** [float(n)] for an [int], also the conversion of an [int] operand of a
    float operation. *)
Definition float_of_int (n : Z) : Q := fl (inject_Z n).

(** [a / b] for two [int]s: the quotient, rounded once. *)
Definition int_true_div (a b : Z) : Q := fl (inject_Z a / inject_Z b).

(** [round(x, ndigits)] for a float: the exact value of [x] is rounded to
    [ndigits] decimals, ties to even, and the decimal number obtained is
    converted to the nearest float. *)
Definition py_round (x : Q) (ndigits : nat) : Q :=
  let scale := Nat.iter ndigits (Pos.mul 10) 1%positive in
  fl (round_half_even (x * (Zpos scale # 1)) # scale).

(** The binary64 numbers, without the bound on their size: [m * 2^k] with
    [|m| <= 2^53] and [k >= -1074]. *)
Definition binary64 (x : Q) : Prop :=
  exists m k, x == inject_Z m * pow2 k
              /\ (Z.abs m <= 2 ^ 53)%Z /\ (-1074 <= k)%Z.

(** Every binary64 number is a whole multiple of the least one, 2^-1074. *)
Definition on_grid (x : Q) : Prop :=
  exists n, x == inject_Z n * pow2 (-1074).



Close Scope Q_scope.

(* ------------------------------------------------------------------ *)
(** ** The database session as seen by one worker *)

Record db_params : Type := mkParams {
  host : string; port : Z; user : string; password : string; dbname : string
}.

(** A session handle; the cursor of a session is identified with it. *)
Definition conn : Type := nat.

(** The SQL statements the worker sends. *)
Inductive stmt : Type :=
| SetLocalTimeout (ms : Z)
| BeginIsolation (level : string)
| Transfer2pl (from_id to_id : Z) (amt : Q)
| TransferTs (from_id to_id : Z) (amt : Q)
| TransferOptimistic (from_id to_id : Z) (amt : Q)
| Debit (amt : Q) (from_id : Z)
| Credit (amt : Q) (to_id : Z)
| LogInsert (from_id to_id : Z) (amt : Q).

(** The calls into psycopg2. *)
Inductive call : Type :=
| Connect (p : db_params)
| Cursor (c : conn)
| Execute (c : conn) (s : stmt)
| Fetchone (c : conn)
| Commit (c : conn)
| Rollback (c : conn)
| CurClose (c : conn)
| ConnClose (c : conn).

(** A fetched row has one column, a text or SQL NULL. *)
Definition row : Type := option string.

Definition reply (c : call) : Type :=
  match c with
  | Connect _ => conn
  | Fetchone _ => option row
  | _ => unit
  end.

(** The log of one invocation, most recent event first. *)
Inductive event : Type :=
| EvDb (c : call) (raised : option exn)
| EvSleep (d : Q)
| EvTime
| EvUtcnow.

Definition log : Type := list event.

(** The world around one worker: each answer may depend on everything the
    worker did before. *)
Record behaviour : Type := mkBehaviour {
  db : log -> forall c : call, answer (reply c);
  clock : log -> Q;
  utc : log -> string
}.

Definition M (A : Type) : Type := SE log A.

Definition perform (W : behaviour) (c : call) : M (reply c) :=
  fun t => match db W t c with
           | Returns a => (Ok a, EvDb c None :: t)
           | Throws e => (Raise e, EvDb c (Some e) :: t)
           end.

(** The number of nanoseconds [time.sleep] makes of its argument. *)
Definition sleep_ns (d : Q) : Q := fmul d (float_of_int (10 ^ 9)).

(** [time.sleep(d)]: the duration is first converted to a 64-bit count of
    nanoseconds, which raises [OverflowError] beyond its range; a negative
    duration raises [ValueError]. *)
Definition sleep (d : Q) : M unit :=
  fun t =>
    if Qle_bool (- inject_Z (2 ^ 63)) (sleep_ns d)
       && negb (Qle_bool (inject_Z (2 ^ 63)) (sleep_ns d))
    then if Qle_bool 0 d
         then (Ok tt, EvSleep d :: t)
         else (Raise (mkExn ValueError "sleep length must be non-negative"),
               t)
    else (Raise (mkExn OverflowError
                   "timestamp too large to convert to C _PyTime_t"), t).

(** [time.time()]: the float nearest to the instant of the clock. *)
Definition time_time (W : behaviour) : M Q :=
  fun t => (Ok (fl (clock W t)), EvTime :: t).

(** [datetime.utcnow().isoformat()] *)
Definition utcnow_iso (W : behaviour) : M string :=
  fun t => (Ok (utc W t), EvUtcnow :: t).

(* ------------------------------------------------------------------ *)
(** ** Connector: [make_conn] (lines 38-48) *)

Section Connector.
Variable W : behaviour.
Variable p : db_params.
Variable max_retries : Z.
Variable backoff : Q.

Open Scope se_scope.

(** One turn of [while True] per unit of fuel; [attempt] is the local
    counter. *)
Fixpoint make_conn_loop (fuel : nat) (attempt : Z) : M conn :=
  match fuel with
  | O => fun t => (OutOfFuel, t)
  | S fuel' =>
      try_except (perform W (Connect p)) is_operational
        (fun e =>
           let attempt := (attempt + 1)%Z in
           if (attempt >? max_retries)%Z then raise e
           else sleep (fmul backoff (float_of_int attempt)) ;;;
                make_conn_loop fuel' attempt)
  end.

Definition make_conn : M conn :=
  make_conn_loop (S (Z.to_nat max_retries)) 0%Z.
End Connector.

(* ------------------------------------------------------------------ *)
(** ** Transaction executor: [worker_task] (lines 51-105) *)

Record TransactionResult : Type := mkResult {
  start_ts : string;
  end_ts : string;
  r_mode : string;
  r_isolation : string;
  r_from_id : Z;
  r_to_id : Z;
  amount : Q;
  status : option string;
  latency_s : Q;
  error : option string
}.

(** [list(r.keys())], the header of the detail file. *)
Definition result_keys : list string :=
  ["start_ts"; "end_ts"; "mode"; "isolation"; "from_id"; "to_id"; "amount";
   "status"; "latency_s"; "error"]%string.

(** [status_row[0] if status_row else 'UNKNOWN'] *)
Definition status_of_row (status_row : option row) : option string :=
  match status_row with
  | Some col => col
  | None => Some "UNKNOWN"%string
  end.

Section Executor.
Variable W : behaviour.
Variable params : db_params.
Variables mode isolation_level : string.
Variables from_id to_id : Z.
Variable amt : Q.
Variable tx_timeout : Z.

Open Scope se_scope.

(** Lines 63-80: the operation of the mode; its value is [status]. *)
Definition run_mode (c : conn) : M (option string) :=
  if str_eqb mode "2pl" then
    perform W (Execute c (Transfer2pl from_id to_id amt)) ;;;
    status_row <- perform W (Fetchone c) ;;
    ret (status_of_row status_row)
  else if str_eqb mode "ts" then
    perform W (Execute c (TransferTs from_id to_id amt)) ;;;
    status_row <- perform W (Fetchone c) ;;
    ret (status_of_row status_row)
  else if str_eqb mode "opt" then
    perform W (Execute c (TransferOptimistic from_id to_id amt)) ;;;
    status_row <- perform W (Fetchone c) ;;
    ret (status_of_row status_row)
  else
    perform W (Execute c (Debit amt from_id)) ;;;
    perform W (Execute c (Credit amt to_id)) ;;;
    perform W (Execute c (LogInsert from_id to_id amt)) ;;;
    ret (Some "COMPLETADA"%string).

(** Lines 62-88: the inner [try / except Exception / finally]. The value
    is the pair of locals [(status, err_text)] at its exit. *)
Definition transaction (c : conn) : M (option string * option string) :=
  try_finally
    (try_except
       (st <- run_mode c ;;
        perform W (Commit c) ;;;
        ret (st, None))
       is_exception
       (fun e =>
          perform W (Rollback c) ;;;
          let err_text := replace_newline (exn_msg e) in
          ret (Some (String.append "ABORT: " err_text), Some err_text)))
    (perform W (CurClose c) ;;;
     perform W (ConnClose c)).

(** Lines 56-91: the outer [try / except Exception]. [make_conn] is called
    with its defaults, [max_retries=3] and [backoff=1.0]. *)
Definition attempt_transfer : M (option string * option string) :=
  try_except
    (c <- make_conn W params 3 1 ;;
     perform W (Cursor c) ;;;
     perform W (Execute c (SetLocalTimeout (tx_timeout * 1000))) ;;;
     perform W (Execute c (BeginIsolation isolation_level)) ;;;
     transaction c)
    is_exception
    (fun e =>
       let err_text := replace_newline (exn_msg e) in
       ret (Some (String.append "CONN_ERR: " err_text), Some err_text)).

Definition worker_task : M TransactionResult :=
  start_iso <- utcnow_iso W ;;
  start <- time_time W ;;
  locals <- attempt_transfer ;;
  stop <- time_time W ;;
  let latency := fsub stop start in
  end_iso <- utcnow_iso W ;;
  ret {| start_ts := String.append start_iso "Z";
         end_ts := String.append end_iso "Z";
         r_mode := mode;
         r_isolation := isolation_level;
         r_from_id := from_id;
         r_to_id := to_id;
         amount := amt;
         status := fst locals;
         latency_s := latency;
         error := snd locals |}.
End Executor.

(* ------------------------------------------------------------------ *)
(** ** Numbers: [statistics.mean], [statistics.median] *)

Open Scope Q_scope.

Definition Qsum (l : list Q) : Q := fold_right Qplus 0 l.

(** [statistics.mean(l)]: the sum is exact, the quotient is rounded once. *)
Definition mean (l : list Q) : Q :=
  fl (Qsum l / inject_Z (Z.of_nat (List.length l))).

Section Sorting.
Variable A : Type.
Variable le : A -> A -> bool.

Fixpoint insert_by (x : A) (l : list A) : list A :=
  match l with
  | [] => [x]
  | y :: l' => if le x y then x :: l else y :: insert_by x l'
  end.

(** A stable sort. *)
Definition sort_by (l : list A) : list A :=
  fold_right insert_by [] l.
End Sorting.

Definition median (l : list Q) : Q :=
  let data := sort_by Qle_bool l in
  let n := List.length data in
  if Nat.odd n then nth (n / 2)%nat data 0
  else fdiv (fadd (nth (n / 2 - 1)%nat data 0) (nth (n / 2)%nat data 0))
            (float_of_int 2).

(* ------------------------------------------------------------------ *)
(** ** Dispatcher and aggregator: [run_experiment] (lines 107-162) *)

Record RunSummary : Type := mkSummary {
  run_id : Z;
  s_mode : string;
  s_isolation : string;
  concurrency : Z;
  total_ops : nat;
  completed : nat;
  aborted : nat;
  abort_rate_pct : Q;
  avg_latency_s : Q;
  p50_latency_s : Q;
  throughput_ops_per_s : Q;
  timestamp : string
}.

Definition summary_keys : list string :=
  ["run_id"; "mode"; "isolation"; "concurrency"; "total_ops"; "completed";
   "aborted"; "abort_rate_pct"; "avg_latency_s"; "p50_latency_s";
   "throughput_ops_per_s"; "timestamp"]%string.

(** A line of an output file: the header [csv.DictWriter] writes, a row of
    the detail, a row of the summary, or the first part of a line whose
    writing was interrupted. *)
Inductive line : Type :=
| Header (fields : list string)
| DetailRow (r : TransactionResult)
| SummaryRow (s : RunSummary)
| Torn.

(** What the driver thread changes: the position in the process-wide random
    source, the number of clock readings, the files by path (a missing file
    has no line) and the standard output. *)
Record machine : Type := mkMachine {
  rng_pos : nat;
  clock_pos : nat;
  files : string -> list line;
  console : list string
}.

(** What the file layer does with one [with open(path, 'a')] block. *)
Inductive sink : Type :=
| Stores                     (* every line written reaches the file *)
| Refuses (e : exn)          (* [open] raises [e] *)
| Breaks (kept : nat) (torn : bool) (e : exn).
                             (* [tell], a write, the flush or the close
                                raises [e]; of the lines written the first
                                [kept] have reached the file, followed by a
                                torn one when [torn] *)

(** What the driver thread does not control. *)
Record setting : Type := mkSetting {
  tape : nat -> Z;                 (* the raw draws of the random source *)
  wall : nat -> Q;                 (* the instants [time.time()] is read *)
  wall_iso : nat -> string;        (* the readings of [utcnow().isoformat()] *)
  worker_world : nat -> behaviour; (* the world of the i-th submitted task *)
  finish : nat -> nat;             (* when the i-th future completes *)
  detail_sink : sink;              (* the block that writes [out_detail] *)
  summary_sink : sink              (* the block that writes [out_summary] *)
}.

Definition D (A : Type) : Type := SE machine A.

(** A future: the id of the submitted task and what [worker_task] did. *)
Record future : Type := mkFuture {
  fut_id : nat;
  fut_outcome : result TransactionResult;
  fut_log : log
}.

(** Truth value of a Python [str] or [None]. *)
Definition truthy (s : option string) : bool :=
  match s with
  | Some s => negb (str_eqb s EmptyString)
  | None => false
  end.

Definition text_in (sub : string) (s : option string) : bool :=
  match s with
  | Some s => contains sub s
  | None => false
  end.

(** Line 136: [s and 'COMPLETADA' in s] *)
Definition counts_completed (s : option string) : bool :=
  truthy s && text_in "COMPLETADA" s.

(** Line 137: [s and ('ABORT' in s or 'CONN_ERR' in s)] *)
Definition counts_aborted (s : option string) : bool :=
  truthy s && (text_in "ABORT" s || text_in "CONN_ERR" s).

(** [sum(1 for x in l if f x)] *)
Definition count_if {A} (f : A -> bool) (l : list A) : nat :=
  fold_right (fun x n => if f x then S n else n) 0%nat l.

(** [range(n)] *)
Definition python_range (n : Z) : list nat := seq 0 (Z.to_nat n).

(** The files after the one at [path] grew by [lines]. *)
Definition grown (fs : string -> list line) (path : string)
    (lines : list line) : string -> list line :=
  fun p => if str_eqb p path then fs p ++ lines else fs p.

Section Driver.
Variable E : setting.

Open Scope se_scope.

Definition draw : D Z :=
  fun h => (Ok (tape E (rng_pos h)),
            mkMachine (S (rng_pos h)) (clock_pos h) (files h) (console h)).

(** [random.choice(seq)] *)
Definition random_choice (seq : list Z) : D Z :=
  match seq with
  | [] => raise (mkExn IndexError "Cannot choose from an empty sequence")
  | _ => r <- draw ;;
         ret (nth (Z.to_nat (r mod Z.of_nat (List.length seq))) seq 0%Z)
  end.

(** [random.random()], a multiple of 2^-53 in [0, 1). *)
Definition random_random : D Q :=
  r <- draw ;; ret ((r mod 2 ^ 53)%Z # 2 ^ 53).

(** [random.uniform(a, b)], that is [a + (b - a) * self.random()] *)
Definition random_uniform (a b : Q) : D Q :=
  u <- random_random ;; ret (fadd a (fmul (fsub b a) u)).

(** [time.time()]: the float nearest to the instant of the clock. *)
Definition driver_time : D Q :=
  fun h => (Ok (fl (wall E (clock_pos h))),
            mkMachine (rng_pos h) (S (clock_pos h)) (files h) (console h)).

Definition driver_utcnow_iso : D string :=
  fun h => (Ok (wall_iso E (clock_pos h)),
            mkMachine (rng_pos h) (S (clock_pos h)) (files h) (console h)).

Definition print (text : string) : D unit :=
  fun h => (Ok tt,
            mkMachine (rng_pos h) (clock_pos h) (files h)
                      (console h ++ [text])).

Definition of_answer {A} (a : answer A) : D A :=
  match a with
  | Returns x => ret x
  | Throws e => raise e
  end.

(** The file at [path] grows by [lines]. *)
Definition append_lines (path : string) (lines : list line) : D unit :=
  fun h => (Ok tt,
            mkMachine (rng_pos h) (clock_pos h)
                      (grown (files h) path lines) (console h)).

(** [open(path, 'a', newline='')] *)
Definition open_append (s : sink) : D unit :=
  match s with
  | Refuses e => raise e
  | _ => ret tt
  end.

(** [f.tell() == 0] right after opening for append. *)
Definition file_is_empty (path : string) : D bool :=
  fun h => (Ok (match files h path with [] => true | _ => false end), h).

(** The writes of one [with] block and its closing: [lines] are the lines
    the block writes, in order. *)
Definition write_and_close (s : sink) (path : string) (lines : list line)
    : D unit :=
  match s with
  | Breaks kept torn e =>
      append_lines path
        (firstn kept lines ++ (if torn then [Torn] else [])) ;;;
      raise e
  | _ => append_lines path lines
  end.

Variable params : db_params.
Variable concurrency_limit : Z.
Variable total : Z.
Variables mode isolation_level : string.
Variable account_pool : list Z.
Variable amount_range : Q * Q.
Variables out_detail out_summary : string.
Variable the_run_id : Z.

(** Lines 114-116: one request. *)
Definition gen_request : D (Z * Z * Q) :=
  from_id <- random_choice account_pool ;;
  to_id <- random_choice
             (filter (fun a => negb (a =? from_id)%Z) account_pool) ;;
  x <- random_uniform (fst amount_range) (snd amount_range) ;;
  ret (from_id, to_id, py_round x 2).

(** Line 117: [ex.submit(worker_task, ...)]; the task runs in its own
    world, with the default [tx_timeout=30]. *)
Definition submit (i : nat) (req : Z * Z * Q) : future :=
  let '(from_id, to_id, amt) := req in
  let run := worker_task (worker_world E i) params mode isolation_level
               from_id to_id amt 30 [] in
  mkFuture i (fst run) (snd run).

(** Lines 113-117: the submission loop. *)
Fixpoint submit_requests (ids : list nat) (futures : list future)
    : D (list future) :=
  match ids with
  | [] => ret futures
  | i :: ids' =>
      req <- gen_request ;;
      submit_requests ids' (futures ++ [submit i req])
  end.

(** [as_completed(futures)]: the futures in the order they complete. *)
Definition as_completed (futures : list future) : list future :=
  sort_by (fun f g => Nat.leb (finish E (fut_id f)) (finish E (fut_id g)))
          futures.

(** [f.result()] *)
Definition future_result (f : future) : D TransactionResult :=
  match fut_outcome f with
  | Ok r => ret r
  | Raise e => raise e
  | OutOfFuel => fun h => (OutOfFuel, h)
  end.

(** Lines 118-119: the collection loop. *)
Fixpoint collect (done : list future) (results : list TransactionResult)
    : D (list TransactionResult) :=
  match done with
  | [] => ret results
  | f :: done' =>
      r <- future_result f ;;
      collect done' (results ++ [r])
  end.

(** [ThreadPoolExecutor(max_workers=concurrency)] *)
Definition thread_pool : D unit :=
  if (concurrency_limit <=? 0)%Z
  then raise (mkExn ValueError "max_workers must be greater than 0")
  else ret tt.

(** Lines 108-120: the value is [(results, start_run, end_run)]. *)
Definition dispatch : D (list TransactionResult * Q * Q) :=
  start_run <- driver_time ;;
  thread_pool ;;;
  futures <- submit_requests (python_range total) [] ;;
  results <- collect (as_completed futures) [] ;;
  end_run <- driver_time ;;
  ret (results, start_run, end_run).

(** Lines 123-132: the detail file. *)
Definition write_detail (results : list TransactionResult) : D unit :=
  try_except
    (open_append (detail_sink E) ;;;
     fieldnames <- match results with
                   | [] => raise (mkExn IndexError "list index out of range")
                   | _ :: _ => ret result_keys
                   end ;;
     empty <- file_is_empty out_detail ;;
     write_and_close (detail_sink E) out_detail
       ((if empty then [Header fieldnames] else [])
        ++ map DetailRow results))
    is_exception
    (fun e => print (String.append "No se pudo escribir detalle: "
                                   (exn_msg e))).

(** Lines 134-152: the summary of a result list. *)
Definition summarize (results : list TransactionResult)
    (start_run end_run : Q) : D RunSummary :=
  let latencies := map latency_s results in
  let statuses := map status results in
  let n_completed := count_if counts_completed statuses in
  let n_aborted := count_if counts_aborted statuses in
  let n := List.length results in
  stamp <- driver_utcnow_iso ;;
  ret {| run_id := the_run_id;
         s_mode := mode;
         s_isolation := isolation_level;
         concurrency := concurrency_limit;
         total_ops := n;
         completed := n_completed;
         aborted := n_aborted;
         abort_rate_pct :=
           match n with
           | O => 0
           | _ => py_round (fmul (int_true_div (Z.of_nat n_aborted)
                                               (Z.of_nat n))
                                 100) 2
           end;
         avg_latency_s :=
           match latencies with
           | [] => 0
           | _ => py_round (mean latencies) 4
           end;
         p50_latency_s :=
           match latencies with
           | [] => 0
           | _ => py_round (median latencies) 4
           end;
         throughput_ops_per_s :=
           if negb (Qle_bool (fsub end_run start_run) 0)
           then py_round (fdiv (float_of_int (Z.of_nat n))
                               (fsub end_run start_run)) 4
           else 0;
         timestamp := String.append stamp "Z" |}.

(** Lines 154-161: the summary file. *)
Definition write_summary (summary : RunSummary) : D unit :=
  try_except
    (open_append (summary_sink E) ;;;
     empty <- file_is_empty out_summary ;;
     write_and_close (summary_sink E) out_summary
       ((if empty then [Header summary_keys] else [])
        ++ [SummaryRow summary]))
    is_exception
    (fun e => print (String.append "No se pudo escribir resumen: "
                                   (exn_msg e))).

Definition run_experiment : D RunSummary :=
  run <- dispatch ;;
  let '(results, start_run, end_run) := run in
  write_detail results ;;;
  summary <- summarize results start_run end_run ;;
  write_summary summary ;;;
  ret summary.
End Driver.

(* ------------------------------------------------------------------ *)
(** ** Vocabulary of the statements *)

(** [backoff * attempt], the delay before retry number [attempt]. *)
Definition delay (backoff : Q) (attempt : Z) : Q :=
  fmul backoff (float_of_int attempt).

(** A duration [time.sleep] accepts: not negative and below 2^63
    nanoseconds. *)
Definition sleepable (d : Q) : Prop :=
  (0 <= d)%Q /\ (sleep_ns d < inject_Z (2 ^ 63))%Q.

(** The log, oldest event first, of the rounds of [make_conn] that ended in
    a retry: round [k] is a failed [connect] followed by a sleep of
    [backoff * k]. [attempt] is the counter when the first round starts. *)
Fixpoint retry_rounds (p : db_params) (backoff : Q) (attempt : Z)
    (failures : list exn) : list event :=
  match failures with
  | [] => []
  | e :: failures' =>
      EvDb (Connect p) (Some e)
      :: EvSleep (delay backoff (attempt + 1))
      :: retry_rounds p backoff (attempt + 1) failures'
  end.

(** The durations slept, in the order of the list. *)
Fixpoint sleeps (t : list event) : list Q :=
  match t with
  | [] => []
  | EvSleep d :: t' => d :: sleeps t'
  | _ :: t' => sleeps t'
  end.

Definition is_conn_close (ev : event) : bool :=
  match ev with EvDb (ConnClose _) _ => true | _ => false end.

Definition is_rollback (ev : event) : bool :=
  match ev with EvDb (Rollback _) _ => true | _ => false end.

(** Steps 3-4 of the executor: the statement timeout and [BEGIN]. *)
Definition in_setup (c : call) : bool :=
  match c with
  | Execute _ (SetLocalTimeout _) | Execute _ (BeginIsolation _) => true
  | _ => false
  end.

(** Steps 5-6 of the executor: the operation of the mode and the commit. *)
Definition in_operation (c : call) : bool :=
  match c with
  | Execute _ (SetLocalTimeout _) | Execute _ (BeginIsolation _) => false
  | Execute _ _ | Fetchone _ | Commit _ => true
  | _ => false
  end.

(** Rollback and the release of cursor and session. *)
Definition in_cleanup (c : call) : bool :=
  match c with
  | Rollback _ | CurClose _ | ConnClose _ => true
  | _ => false
  end.

(** The calls whose failure keeps the executor away from [conn.close()]. *)
Definition skips_release (c : call) : bool :=
  match c with
  | Cursor _ | CurClose _ => true
  | Execute _ (SetLocalTimeout _) | Execute _ (BeginIsolation _) => true
  | _ => false
  end.

(** A call of the log raised. *)
Definition raised_in (t : log) (c : call) (e : exn) : Prop :=
  In (EvDb c (Some e)) t.

(** The pool has two distinct members. *)
Definition two_distinct (pool : list Z) : Prop :=
  exists a b, In a pool /\ In b pool /\ a <> b.

(* ------------------------------------------------------------------ *)
(** ** Concrete worlds and runs *)

Definition sample_params : db_params :=
  mkParams "localhost" 5432 "postgres" EmptyString "banco_concurrencia".

(** Every call succeeds; the transfer function reports no row. *)
Definition all_succeed (c : call) : answer (reply c) :=
  match c with
  | Connect _ => Returns 1%nat
  | Fetchone _ => Returns None
  | Cursor _ | Execute _ _ | Commit _ | Rollback _ | CurClose _
  | ConnClose _ => Returns tt
  end.

(** The clock of the sample worlds: one second per event. *)
Definition ticking (t : log) : Q := inject_Z (Z.of_nat (List.length t)).

Definition quiet_world : behaviour :=
  mkBehaviour (fun _ c => all_succeed c) ticking
              (fun _ => "2024-01-01T00:00:00"%string).

(** The server rejects [SET LOCAL statement_timeout]. *)
Definition timeout_rejected_world : behaviour :=
  mkBehaviour
    (fun _ c =>
       match c with
       | Execute _ (SetLocalTimeout _) =>
           Throws (mkExn DatabaseError "invalid value for statement_timeout")
       | _ => all_succeed c
       end)
    ticking (fun _ => "2024-01-01T00:00:00"%string).

(** The link drops when [BEGIN] is sent. *)
Definition begin_fails_world : behaviour :=
  mkBehaviour
    (fun _ c =>
       match c with
       | Execute _ (BeginIsolation _) =>
           Throws (mkExn OperationalError "server closed the connection")
       | _ => all_succeed c
       end)
    ticking (fun _ => "2024-01-01T00:00:00"%string).

(** The commit hits a serialization conflict. *)
Definition commit_fails_world : behaviour :=
  mkBehaviour
    (fun _ c =>
       match c with
       | Commit _ =>
           Throws (mkExn DatabaseError "could not serialize access")
       | _ => all_succeed c
       end)
    ticking (fun _ => "2024-01-01T00:00:00"%string).

(** Authentication is refused with an exception that is not an
    [OperationalError]. *)
Definition refused_world : behaviour :=
  mkBehaviour
    (fun _ c =>
       match c with
       | Connect _ => Throws (mkExn OtherError "invalid dsn")
       | _ => all_succeed c
       end)
    ticking (fun _ => "2024-01-01T00:00:00"%string).

(** A driver setting: the k-th draw is k, the clocks advance by one per
    reading, task i completes at instant i, both files take every line. *)
Definition sample_setting (W : behaviour) : setting :=
  mkSetting (fun k => Z.of_nat k)
            (fun k => inject_Z (Z.of_nat k))
            (fun k => String (ascii_of_nat (48 + k)) EmptyString)
            (fun _ => W)
            (fun i => i)
            Stores Stores.

(** No file exists yet, nothing was printed. *)
Definition fresh_machine : machine := mkMachine 0 0 (fun _ => []) [].

(** One transfer in each of the sample worlds. *)
Definition timeout_rejected_run : result TransactionResult * log :=
  worker_task timeout_rejected_world sample_params "2pl" "READ COMMITTED"
              1 2 (10 # 1) 30 [].

Definition begin_fails_run : result TransactionResult * log :=
  worker_task begin_fails_world sample_params "2pl" "SERIALIZABLE"
              1 2 (10 # 1) 30 [].

Definition commit_fails_run : result TransactionResult * log :=
  worker_task commit_fails_world sample_params "ts" "SERIALIZABLE"
              3 4 (25 # 2) 30 [].

(** Sample runs of the driver. *)
Definition sample_pool : list Z := [1; 2; 3; 4]%Z.

Definition sample_range : Q * Q := (1, 100).


(** One account only: there is no second account to transfer to. *)
Definition single_account_run : result RunSummary * machine :=
  run_experiment (sample_setting quiet_world) sample_params 5 1
                 "simple" "READ COMMITTED" [1%Z] sample_range
                 "detalle.csv" "resumen.csv" 1 fresh_machine.

(** The transfer function reports no row: the status is ['UNKNOWN']. *)
Definition no_row_run : result RunSummary * machine :=
  run_experiment (sample_setting quiet_world) sample_params 5 1
                 "2pl" "READ COMMITTED" sample_pool sample_range
                 "detalle.csv" "resumen.csv" 1 fresh_machine.

(** Every call succeeds and the transfer function reports COMPLETADA. *)
Definition reporting_world : behaviour :=
  mkBehaviour
    (fun _ c =>
       match c return answer (reply c) with
       | Fetchone _ => Returns (Some (Some "COMPLETADA"%string))
       | other => all_succeed other
       end)
    ticking (fun _ => "2024-01-01T00:00:00"%string).

Definition reporting_run : result RunSummary * machine :=
  run_experiment (sample_setting reporting_world) sample_params 5 2
                 "2pl" "READ COMMITTED" sample_pool sample_range
                 "detalle.csv" "resumen.csv" 1 fresh_machine.

(** The insert into the transfer log violates a constraint; PostgreSQL
    quotes the failing row, which holds the text COMPLETADA. *)
Definition insert_rejected_world : behaviour :=
  mkBehaviour
    (fun _ c =>
       match c with
       | Execute _ (LogInsert _ _ _) =>
           Throws (mkExn DatabaseError
                     "Failing row contains (SIMPLE, COMPLETADA, manual).")
       | _ => all_succeed c
       end)
    ticking (fun _ => "2024-01-01T00:00:00"%string).

Definition insert_rejected_run : result RunSummary * machine :=
  run_experiment (sample_setting insert_rejected_world) sample_params 5 1
                 "simple" "READ COMMITTED" sample_pool sample_range
                 "detalle.csv" "resumen.csv" 1 fresh_machine.

Definition sample_result : TransactionResult :=
  {| start_ts := "2024-01-01T00:00:00Z";
     end_ts := "2024-01-01T00:00:01Z";
     r_mode := "simple";
     r_isolation := "READ COMMITTED";
     r_from_id := 1;
     r_to_id := 2;
     amount := 25 # 2;
     status := Some "COMPLETADA"%string;
     latency_s := 1 # 4;
     error := None |}.

(** Two summaries of the same result list, one after the other. *)
Definition first_summary : result RunSummary * machine :=
  summarize (sample_setting quiet_world) 5 "simple" "READ COMMITTED" 1
            [sample_result] 0 2 fresh_machine.

Definition second_summary : result RunSummary * machine :=
  summarize (sample_setting quiet_world) 5 "simple" "READ COMMITTED" 1
            [sample_result] 0 2 (snd first_summary).

Definition aborted_result : TransactionResult :=
  {| start_ts := "2024-01-01T00:00:01Z";
     end_ts := "2024-01-01T00:00:02Z";
     r_mode := "simple";
     r_isolation := "READ COMMITTED";
     r_from_id := 3;
     r_to_id := 4;
     amount := 10 # 1;
     status := Some "ABORT: could not serialize access"%string;
     latency_s := 3 # 8;
     error := Some "could not serialize access"%string |}.

(** A summary of three results, one of them aborted. *)
Definition mixed_summary : result RunSummary * machine :=
  summarize (sample_setting quiet_world) 5 "simple" "READ COMMITTED" 1
            [sample_result; aborted_result; sample_result] 0 2 fresh_machine.

(** A run whose two output paths name one file. *)
Definition shared_file_run : result RunSummary * machine :=
  run_experiment (sample_setting quiet_world) sample_params 5 2
                 "simple" "READ COMMITTED" sample_pool sample_range
                 "salida.csv" "salida.csv" 1 fresh_machine.

(** The server is down: every connection attempt fails. *)
Definition unreachable_world : behaviour :=
  mkBehaviour
    (fun _ c =>
       match c with
       | Connect _ => Throws (mkExn OperationalError "connection refused")
       | _ => all_succeed c
       end)
    ticking (fun _ => "2024-01-01T00:00:00"%string).

(* ------------------------------------------------------------------ *)
(** ** Vocabulary of the further statements *)

(** The statements sent in one invocation, oldest first. *)
Fixpoint executed (t : log) : list stmt :=
  match t with
  | [] => []
  | EvDb (Execute _ s) _ :: t' => executed t' ++ [s]
  | _ :: t' => executed t'
  end.

(** The statements of lines 60-80 in the order of the source, for one
    request. *)
Definition planned_statements (mode isolation_level : string)
    (from_id to_id : Z) (amt : Q) (tx_timeout : Z) : list stmt :=
  SetLocalTimeout (tx_timeout * 1000)
  :: BeginIsolation isolation_level
  :: (if str_eqb mode "2pl" then [Transfer2pl from_id to_id amt]
      else if str_eqb mode "ts" then [TransferTs from_id to_id amt]
      else if str_eqb mode "opt" then [TransferOptimistic from_id to_id amt]
      else [Debit amt from_id; Credit amt to_id;
            LogInsert from_id to_id amt]).

(** The world never refuses a call. *)
Definition never_throws (W : behaviour) : Prop :=
  forall t c, exists a, db W t c = Returns a.

(** The server cannot be reached with these parameters. *)
Definition never_connects (W : behaviour) (p : db_params) : Prop :=
  forall t, exists e, db W t (Connect p) = Throws e.


(** The world refuses the connection attempts of the rounds [failures], one
    after the other, starting from the log [t] with the counter at
    [attempt]. *)
Fixpoint refused (W : behaviour) (p : db_params) (backoff : Q) (attempt : Z)
    (t : log) (failures : list exn) : Prop :=
  match failures with
  | [] => True
  | e :: failures' =>
      db W t (Connect p) = Throws e
      /\ refused W p backoff (attempt + 1)
                 (EvSleep (delay backoff (attempt + 1))
                  :: EvDb (Connect p) (Some e) :: t)
                 failures'
  end.

Definition is_connect (ev : event) : bool :=
  match ev with EvDb (Connect _) _ => true | _ => false end.


(** The files and the standard output are as they were. *)
Definition same_output (h h' : machine) : Prop :=
  (forall path, files h' path = files h path) /\ console h' = console h.

(** Nothing but the position in the random source may have changed. *)
Definition only_drew (h h' : machine) : Prop :=
  same_output h h' /\ clock_pos h' = clock_pos h.

(** The same setting with other behaviours of the file layer for the two
    files. *)
Definition with_sinks (E : setting) (detail summary : sink) : setting :=
  mkSetting (tape E) (wall E) (wall_iso E) (worker_world E) (finish E)
            detail summary.

Definition is_detail_row (l : line) : bool :=
  match l with DetailRow _ => true | _ => false end.

Definition is_summary_row (l : line) : bool :=
  match l with SummaryRow _ => true | _ => false end.

(** A detail file is empty or one header line followed by rows only. *)
Definition detail_shaped (f : list line) : Prop :=
  match f with
  | [] => True
  | first :: rows =>
      first = Header result_keys
      /\ forallb is_detail_row rows = true
  end.

Definition summary_shaped (f : list line) : Prop :=
  match f with
  | [] => True
  | first :: rows =>
      first = Header summary_keys
      /\ forallb is_summary_row rows = true
  end.

(** The rows of a summary file. *)
Fixpoint summary_rows (f : list line) : list RunSummary :=
  match f with
  | [] => []
  | SummaryRow s :: f' => s :: summary_rows f'
  | _ :: f' => summary_rows f'
  end.


(** What one [with] block leaves in its file, given the lines it writes. *)
Definition stored (s : sink) (lines : list line) : list line :=
  match s with
  | Stores => lines
  | Refuses _ => []
  | Breaks kept torn _ => firstn kept lines ++ (if torn then [Torn] else [])
  end.

(** The exception one [with] block raises, if any. *)
Definition failure_of (s : sink) : option exn :=
  match s with
  | Stores => None
  | Refuses e => Some e
  | Breaks _ _ e => Some e
  end.

(** The header line, written to an empty file only. *)
Definition header_if_empty (f : list line) (keys : list string) : list line :=
  match f with
  | [] => [Header keys]
  | _ => []
  end.

(** What lines 123-132 add to the detail file [f], and the exception their
    handler prints, if any. *)
Definition detail_written (E : setting) (f : list line)
    (results : list TransactionResult) : list line :=
  match results with
  | [] => []
  | _ => stored (detail_sink E)
                (header_if_empty f result_keys ++ map DetailRow results)
  end.

Definition detail_failure (E : setting) (results : list TransactionResult)
    : option exn :=
  match detail_sink E, results with
  | Refuses e, _ => Some e
  | _, [] => Some (mkExn IndexError "list index out of range")
  | s, _ => failure_of s
  end.

(** What lines 154-161 add to the summary file [f]. *)
Definition summary_written (E : setting) (f : list line) (s : RunSummary)
    : list line :=
  stored (summary_sink E) (header_if_empty f summary_keys ++ [SummaryRow s]).

(** What a handler of lines 131 and 160 prints. *)
Definition reported (label : string) (failure : option exn) : list string :=
  match failure with
  | Some e => [String.append label (exn_msg e)]
  | None => []
  end.

(** No status of the world of a task passes both tests of the aggregator:
    not the status the transfer function reports, and no error text quotes
    COMPLETADA. *)
Definition never_both (W : behaviour) : Prop :=
  (forall t c col,
      db W t (Fetchone c) = Returns (Some col) ->
      counts_completed col && counts_aborted col = false)
  /\ (forall t c e,
         db W t c = Throws e ->
         contains "COMPLETADA" (replace_newline (exn_msg e)) = false).

(** The world of a task keeps to the status vocabulary: the transfer
    function always reports a row, whose status passes one of the two tests
    of the aggregator. *)
Definition in_vocabulary (W : behaviour) : Prop :=
  forall t c,
    match db W t (Fetchone c) with
    | Returns (Some col) => counts_completed col || counts_aborted col = true
    | Returns None => False
    | Throws _ => True
    end.

(** The future of a task submitted at line 117: a request with two distinct
    accounts of the pool and an amount in hundredths, run by [worker_task]
    in the world of the task, which returned the result the future holds. *)
Definition task_future (E : setting) (params : db_params)
    (mode isolation_level : string) (pool : list Z) (f : future) : Prop :=
  exists from_id to_id x r t,
    f = submit E params mode isolation_level (fut_id f)
               (from_id, to_id, py_round x 2)
    /\ In from_id pool /\ In to_id pool /\ from_id <> to_id
    /\ worker_task (worker_world E (fut_id f)) params mode isolation_level
                   from_id to_id (py_round x 2) 30 []
       = (Ok r, t)
    /\ fut_outcome f = Ok r.



(* ------------------------------------------------------------------ *)
(** ** Command line: [parse_accounts] (lines 164-165) and the loop of
    [main] (lines 186-202)

    Texts are ASCII. *)

(** The characters of a text. *)
Definition chars (s : string) : list ascii := list_ascii_of_string s.

(** [s.split(sep)]: the first field and the fields after it. *)
Fixpoint split_on (sep : ascii) (s : string) : string * list string :=
  match s with
  | EmptyString => (EmptyString, [])
  | String c s' =>
      let (w, ws) := split_on sep s' in
      if Ascii.eqb c sep then (EmptyString, w :: ws) else (String c w, ws)
  end.

Definition py_split (sep : ascii) (s : string) : list string :=
  let (w, ws) := split_on sep s in w :: ws.

(** [c.isspace()] on ASCII: tab to carriage return, the four separators
    28-31 and the space. *)
Definition is_space (c : ascii) : bool :=
  let n := nat_of_ascii c in
  ((9 <=? n)%nat && (n <=? 13)%nat) || ((28 <=? n)%nat && (n <=? 32)%nat).

Fixpoint lstrip (s : string) : string :=
  match s with
  | EmptyString => EmptyString
  | String c s' => if is_space c then lstrip s' else s
  end.

Fixpoint rstrip (s : string) : string :=
  match s with
  | EmptyString => EmptyString
  | String c s' =>
      match rstrip s' with
      | EmptyString => if is_space c then EmptyString else String c EmptyString
      | r => String c r
      end
  end.

(** [s.strip()] *)
Definition strip (s : string) : string := rstrip (lstrip s).

Definition digit_of (c : ascii) : option Z :=
  let code := Z.of_N (N_of_ascii c) in
  if ((48 <=? code) && (code <=? 57))%Z then Some (code - 48)%Z else None.

(** The digits of an integer literal: digits, with single underscores
    between digits only. [acc] is the value so far, [after_digit] tells
    whether the previous character was a digit. *)
Fixpoint parse_digits (s : string) (acc : Z) (after_digit : bool)
    : option Z :=
  match s with
  | EmptyString => if after_digit then Some acc else None
  | String c s' =>
      match digit_of c with
      | Some d => parse_digits s' (10 * acc + d)%Z true
      | None =>
          if Ascii.eqb c "_" && after_digit then parse_digits s' acc false
          else None
      end
  end.

Fixpoint count_digits (s : string) : nat :=
  match s with
  | EmptyString => 0
  | String c s' =>
      match digit_of c with
      | Some _ => S (count_digits s')
      | None => count_digits s'
      end
  end.

(** CPython's default limit on the digits of a converted text. *)
Definition int_max_str_digits : nat := 4300.

(** [int(s)] in base 10. The text of the [ValueError] stops before the
    quoted literal. *)
Definition py_int (s : string) : answer Z :=
  let s := strip s in
  let invalid := mkExn ValueError "invalid literal for int() with base 10" in
  if (int_max_str_digits <? count_digits s)%nat
  then Throws (mkExn ValueError
                     "Exceeds the limit (4300 digits) for integer string conversion")
  else
    match s with
    | String "-" s' =>
        match parse_digits s' 0 false with
        | Some n => Returns (- n)%Z
        | None => Throws invalid
        end
    | String "+" s' =>
        match parse_digits s' 0 false with
        | Some n => Returns n
        | None => Throws invalid
        end
    | _ =>
        match parse_digits s 0 false with
        | Some n => Returns n
        | None => Throws invalid
        end
    end.

(** [[int(x.strip()) for x in fields if x.strip()]] *)
Fixpoint parse_fields (fields : list string) : answer (list Z) :=
  match fields with
  | [] => Returns []
  | x :: fields' =>
      match strip x with
      | EmptyString => parse_fields fields'
      | _ =>
          match py_int (strip x) with
          | Throws e => Throws e
          | Returns n =>
              match parse_fields fields' with
              | Throws e => Throws e
              | Returns ns => Returns (n :: ns)
              end
          end
      end
  end.

Definition parse_accounts (s : string) : answer (list Z) :=
  parse_fields (py_split "," s).

(** [str(n)] for an integer. *)
Definition str_int (n : Z) : string :=
  DecimalString.NilEmpty.string_of_int (Z.to_int n).

(** One field of an accounts text: blanks only, or an account number in
    decimal between blanks. *)
Inductive field : Type :=
| Blank (width : nat)
| Account (before : nat) (n : Z) (after : nat).

Definition blanks (width : nat) : string :=
  Nat.iter width (String " "%char) EmptyString.

Definition render (f : field) : string :=
  match f with
  | Blank width => blanks width
  | Account before n after =>
      String.append (blanks before) (String.append (str_int n) (blanks after))
  end.

Fixpoint accounts_of (fields : list field) : list Z :=
  match fields with
  | [] => []
  | Blank _ :: fields' => accounts_of fields'
  | Account _ n _ :: fields' => n :: accounts_of fields'
  end.

Definition short_enough (f : field) : Prop :=
  match f with
  | Blank _ => True
  | Account _ n _ => (count_digits (str_int n) <= int_max_str_digits)%nat
  end.

(** The fields of an accounts text that are not blank. *)
Definition nonblank_fields (s : string) : list string :=
  filter (fun x => negb (str_eqb (strip x) EmptyString)) (py_split "," s).


(** The command-line arguments after [parser.parse_args()]. *)
Record args : Type := mkArgs {
  a_host : string;
  a_port : Z;
  a_user : string;
  a_password : string;
  a_dbname : string;
  a_concurrency : Z;
  a_total : Z;
  a_runs : Z;
  a_mode : string;
  a_accounts : string;
  a_amount_min : Q;
  a_amount_max : Q;
  a_isolation : string;
  a_out_detail : string;
  a_out_summary : string
}.

(** [range(start, stop)] *)
Definition python_range_from (start stop : Z) : list Z :=
  map (fun k => (start + Z.of_nat k)%Z) (seq 0 (Z.to_nat (stop - start))).

(** The label of line 197, its accented letter in UTF-8. *)
Definition parameters_label : string :=
  String.append "Par" (String "195" (String "161" "metros: ")).

(** The f-string of line 200. *)
Definition progress_line (a : args) (run : Z) : string :=
  String.concat EmptyString
    ["Iniciando run "; str_int run; "/"; str_int (a_runs a);
     " mode="; a_mode a; " isolation="; a_isolation a;
     " concurrency="; str_int (a_concurrency a);
     " total_ops="; str_int (a_total a)]%string.

Section Main.
(** The setting of each run, by run number. *)
Variable env : Z -> setting.
(** [str(args)] and [str(summary)], the formatting of Python. *)
Variable show_args : args -> string.
Variable show_summary : RunSummary -> string.

Open Scope se_scope.

(** Lines 199-202: the runs, one after the other. *)
Fixpoint run_all (a : args) (params : db_params) (account_pool : list Z)
    (amount_range : Q * Q) (runs : list Z) : D unit :=
  match runs with
  | [] => ret tt
  | run :: runs' =>
      print (progress_line a run) ;;;
      summary <- run_experiment (env run) params (a_concurrency a)
                   (a_total a) (a_mode a) (a_isolation a) account_pool
                   amount_range (a_out_detail a) (a_out_summary a) run ;;
      print (String.append "Resultado resumen: " (show_summary summary)) ;;;
      run_all a params account_pool amount_range runs'
  end.

(** Lines 186-202: [main] once the arguments are parsed. *)
Definition main (a : args) : D unit :=
  let params := mkParams (a_host a) (a_port a) (a_user a) (a_password a)
                         (a_dbname a) in
  account_pool <- of_answer (parse_accounts (a_accounts a)) ;;
  let amount_range := (a_amount_min a, a_amount_max a) in
  print (String.append parameters_label (show_args a)) ;;;
  run_all a params account_pool amount_range
          (python_range_from 1 (a_runs a + 1)).
End Main.


(* ------------------------------------------------------------------ *)
(** ** Further concrete worlds and runs *)

(** The first connection attempt fails, the next one succeeds. *)
Definition flaky_world : behaviour :=
  mkBehaviour
    (fun t c =>
       match c return answer (reply c) with
       | Connect _ =>
           match t return answer conn with
           | [] => Throws (mkExn OperationalError "connection reset")
           | _ => Returns 1%nat
           end
       | other => all_succeed other
       end)
    ticking (fun _ => "2024-01-01T00:00:00"%string).

(** Everything succeeds but the closing of the session. *)
Definition close_fails_world : behaviour :=
  mkBehaviour
    (fun _ c =>
       match c with
       | ConnClose _ => Throws (mkExn OperationalError "connection lost")
       | _ => all_succeed c
       end)
    ticking (fun _ => "2024-01-01T00:00:00"%string).

Definition manual_run : result TransactionResult * log :=
  worker_task quiet_world sample_params "simple" "READ COMMITTED"
              1 2 (10 # 1) 30 [].

Definition close_fails_run : result TransactionResult * log :=
  worker_task close_fails_world sample_params "simple" "READ COMMITTED"
              1 2 (10 # 1) 30 [].

Definition unreachable_run : result TransactionResult * log :=
  worker_task unreachable_world sample_params "2pl" "READ COMMITTED"
              1 2 (10 # 1) 30 [].


(* ------------------------------------------------------------------ *)
(** ** Binary64 arithmetic *)

Lemma pow2_pos k : 0 < pow2 k.
Proof. apply Qpower_0_lt. reflexivity. Qed.

Lemma pow2_add a b : pow2 (a + b) == pow2 a * pow2 b.
Proof. apply Qpower_plus. discriminate. Qed.

Lemma pow2_opp k : pow2 (- k) == / pow2 k.
Proof. apply Qpower_opp. Qed.

Lemma pow2_le a b : (a <= b)%Z -> pow2 a <= pow2 b.
Proof. intros H. apply Qpower_le_compat_l; [assumption|discriminate]. Qed.

Lemma pow2_lt a b : (a < b)%Z -> pow2 a < pow2 b.
Proof. intros H. apply Qpower_lt_compat_l; [assumption|reflexivity]. Qed.

Lemma pow2_lt_inv a b : pow2 a < pow2 b -> (a < b)%Z.
Proof. intros H. eapply Qpower_lt_compat_l_inv; [exact H|reflexivity]. Qed.

Lemma pow2_le_inv a b : pow2 a <= pow2 b -> (a <= b)%Z.
Proof. intros H. eapply Qpower_le_compat_l_inv; [exact H|reflexivity]. Qed.

Lemma pow2_Z k : (0 <= k)%Z -> pow2 k == inject_Z (2 ^ k).
Proof. intros H. unfold pow2. now rewrite Zpower_Qpower. Qed.

Lemma pow2_cancel k : pow2 (- k) * pow2 k == 1.
Proof. rewrite <- pow2_add. now replace (- k + k)%Z with 0%Z by lia. Qed.

Lemma pow2_succ k : pow2 (k + 1) == 2 * pow2 k.
Proof. rewrite pow2_add. change (pow2 1) with 2. ring. Qed.

(** ** Rounding to the nearest integer *)

Lemma round_half_even_close y :
  y - (1 # 2) <= inject_Z (round_half_even y) <= y + (1 # 2).
Proof.
  unfold round_half_even.
  pose proof (Qfloor_le y) as Hlo.
  pose proof (Qlt_floor y) as Hhi.
  rewrite inject_Z_plus in Hhi. change (inject_Z 1) with 1 in Hhi.
  destruct (y - inject_Z (Qfloor y) ?= 1 # 2) eqn:Hcmp.
  - apply Qeq_alt in Hcmp.
    destruct (Z.even (Qfloor y));
      [|rewrite inject_Z_plus; change (inject_Z 1) with 1]; split; lra.
  - apply Qlt_alt in Hcmp. split; lra.
  - apply Qgt_alt in Hcmp.
    rewrite inject_Z_plus. change (inject_Z 1) with 1. split; lra.
Qed.

(** A tie is resolved to the even neighbour. *)
Lemma round_half_even_tie y :
  (inject_Z (round_half_even y) == y - (1 # 2)
   \/ inject_Z (round_half_even y) == y + (1 # 2)) ->
  Z.even (round_half_even y) = true.
Proof.
  unfold round_half_even.
  pose proof (Qfloor_le y) as Hlo.
  pose proof (Qlt_floor y) as Hhi.
  rewrite inject_Z_plus in Hhi. change (inject_Z 1) with 1 in Hhi.
  destruct (y - inject_Z (Qfloor y) ?= 1 # 2) eqn:Hcmp.
  - apply Qeq_alt in Hcmp.
    destruct (Z.even (Qfloor y)) eqn:Hev; intros _; [assumption|].
    rewrite Z.even_add, Hev. reflexivity.
  - apply Qlt_alt in Hcmp. intros [H|H]; lra.
  - apply Qgt_alt in Hcmp.
    rewrite inject_Z_plus. change (inject_Z 1) with 1. intros [H|H]; lra.
Qed.

Lemma inject_Z_lt_inv a b : inject_Z a < inject_Z b -> (a < b)%Z.
Proof. now rewrite <- Zlt_Qlt. Qed.

Lemma inject_Z_le_inv a b : inject_Z a <= inject_Z b -> (a <= b)%Z.
Proof. now rewrite <- Zle_Qle. Qed.

(** The integer within a half of [y], even in case of a tie, is unique. *)
Lemma round_half_even_unique y n :
  y - (1 # 2) <= inject_Z n <= y + (1 # 2) ->
  (inject_Z n == y - (1 # 2) \/ inject_Z n == y + (1 # 2) ->
   Z.even n = true) ->
  round_half_even y = n.
Proof.
  intros Hn Hev.
  pose proof (round_half_even_close y) as Hm.
  pose proof (@round_half_even_tie y) as Hmev.
  set (m := round_half_even y) in *.
  destruct (Z.lt_trichotomy m n) as [Hlt|[Heq|Hgt]]; [|assumption|].
  - assert (H1 : inject_Z m + 1 <= inject_Z n).
    { change 1 with (inject_Z 1). rewrite <- inject_Z_plus, <- Zle_Qle. lia. }
    assert (Hn' : inject_Z n == y + (1 # 2)) by lra.
    assert (Hm' : inject_Z m == y - (1 # 2)) by lra.
    assert (Hnm : inject_Z n == inject_Z (m + 1)).
    { rewrite inject_Z_plus. change (inject_Z 1) with 1. lra. }
    rewrite inject_Z_injective in Hnm. subst n.
    specialize (Hev (or_intror Hn')). specialize (Hmev (or_introl Hm')).
    rewrite Z.even_add, Hmev in Hev. discriminate.
  - assert (H1 : inject_Z n + 1 <= inject_Z m).
    { change 1 with (inject_Z 1). rewrite <- inject_Z_plus, <- Zle_Qle. lia. }
    assert (Hn' : inject_Z n == y - (1 # 2)) by lra.
    assert (Hm' : inject_Z m == y + (1 # 2)) by lra.
    assert (Hnm : inject_Z m == inject_Z (n + 1)).
    { rewrite inject_Z_plus. change (inject_Z 1) with 1. lra. }
    rewrite inject_Z_injective in Hnm.
    specialize (Hev (or_introl Hn')). specialize (Hmev (or_intror Hm')).
    rewrite Hnm, Z.even_add, Hev in Hmev. discriminate.
Qed.

Lemma round_half_even_compat x y :
  x == y -> round_half_even x = round_half_even y.
Proof.
  intros H. apply round_half_even_unique.
  - pose proof (round_half_even_close y). lra.
  - intros Ht. apply round_half_even_tie. destruct Ht; [left|right]; lra.
Qed.

Lemma round_half_even_Z n : round_half_even (inject_Z n) = n.
Proof.
  apply round_half_even_unique; [lra|]. intros [H|H]; lra.
Qed.

Lemma round_half_even_opp x :
  round_half_even (- x) = (- round_half_even x)%Z.
Proof.
  pose proof (round_half_even_close x) as Hc.
  pose proof (@round_half_even_tie x) as Ht.
  apply round_half_even_unique.
  - rewrite inject_Z_opp. lra.
  - rewrite inject_Z_opp, Z.even_opp. intros [H|H]; apply Ht; [right|left]; lra.
Qed.

Lemma round_half_even_mono x y :
  x <= y -> (round_half_even x <= round_half_even y)%Z.
Proof.
  intros Hxy.
  pose proof (round_half_even_close x) as Hx.
  pose proof (round_half_even_close y) as Hy.
  destruct (Z.le_gt_cases (round_half_even x) (round_half_even y))
    as [H|H]; [assumption|].
  assert (H1 : inject_Z (round_half_even y) + 1
               <= inject_Z (round_half_even x)).
  { change 1 with (inject_Z 1). rewrite <- inject_Z_plus, <- Zle_Qle. lia. }
  assert (Heq : x == y) by lra.
  rewrite (round_half_even_compat Heq) in H. lia.
Qed.

(** Strictly below the midpoint the rounding goes down. *)
Lemma round_half_even_down x n :
  inject_Z n <= x -> x < inject_Z n + (1 # 2) -> round_half_even x = n.
Proof.
  intros Hlo Hhi. apply round_half_even_unique; [lra|]. intros [H|H]; lra.
Qed.

(** ** Binades *)

Lemma binade_spec x :
  ~ x == 0 -> pow2 (binade x) <= Qabs x < pow2 (binade x + 1).
Proof.
  intros Hx. destruct x as [n0 d]. unfold binade. cbn [Qnum Qden Qabs].
  set (n := Z.abs n0). set (s := (Z.log2 (Zpos d) + 1)%Z).
  set (q := (n * 2 ^ s / Zpos d)%Z). set (L := Z.log2 q).
  assert (Hn : (0 < n)%Z).
  { unfold n. assert (n0 <> 0)%Z; [|lia].
    intros ->. apply Hx. reflexivity. }
  assert (Hs : (0 < s)%Z) by (pose proof (Z.log2_nonneg (Zpos d)); lia).
  assert (Hd : (Zpos d < 2 ^ s)%Z)
    by (unfold s; apply Z.log2_spec; reflexivity).
  assert (Hnum : (Zpos d <= n * 2 ^ s)%Z) by nia.
  assert (Hq : (0 < q)%Z).
  { unfold q. apply Z.div_str_pos. lia. }
  assert (Hdiv : (q * Zpos d <= n * 2 ^ s < (q + 1) * Zpos d)%Z).
  { unfold q. pose proof (Z.mul_div_le (n * 2 ^ s) (Zpos d) eq_refl).
    pose proof (Z.mul_succ_div_gt (n * 2 ^ s) (Zpos d) eq_refl). lia. }
  assert (HL : (2 ^ L <= q < 2 ^ (L + 1))%Z).
  { unfold L. replace (L + 1)%Z with (Z.succ L) by lia.
    apply Z.log2_spec. assumption. }
  assert (HL0 : (0 <= L)%Z) by apply Z.log2_nonneg.
  assert (Hlo : (2 ^ L * Zpos d <= n * 2 ^ s)%Z) by nia.
  assert (Hhi : (n * 2 ^ s < 2 ^ (L + 1) * Zpos d)%Z) by nia.
  assert (Hs2 : (0 < 2 ^ s)%Z) by (apply Z.pow_pos_nonneg; lia).
  assert (Hsplit : forall e, (0 <= e)%Z ->
            pow2 (e - s) == inject_Z (2 ^ e) / inject_Z (2 ^ s)).
  { intros e He. unfold Z.sub. rewrite pow2_add, pow2_opp.
    rewrite !pow2_Z by lia. reflexivity. }
  assert (Hs2q : 0 < inject_Z (2 ^ s)).
  { change 0 with (inject_Z 0). rewrite <- Zlt_Qlt. assumption. }
  split.
  - rewrite (Hsplit L HL0). apply Qle_shift_div_r; [assumption|].
    unfold Qle, Qmult, inject_Z. cbn [Qnum Qden].
    rewrite Pos.mul_1_r. lia.
  - replace (L - s + 1)%Z with (L + 1 - s)%Z by lia.
    rewrite (Hsplit (L + 1)%Z) by lia.
    apply Qlt_shift_div_l; [assumption|].
    unfold Qlt, Qmult, inject_Z. cbn [Qnum Qden].
    rewrite Pos.mul_1_r. lia.
Qed.

Lemma binade_unique x e :
  pow2 e <= Qabs x < pow2 (e + 1) -> binade x = e.
Proof.
  intros [Hlo Hhi].
  assert (Hx : ~ x == 0).
  { intros H. rewrite H in Hlo. pose proof (pow2_pos e).
    change (Qabs 0) with 0 in Hlo. lra. }
  destruct (binade_spec Hx) as [Hlo' Hhi'].
  assert (e < binade x + 1)%Z by (apply pow2_lt_inv; lra).
  assert (binade x < e + 1)%Z by (apply pow2_lt_inv; lra).
  lia.
Qed.

Lemma binade_compat x y : ~ x == 0 -> x == y -> binade x = binade y.
Proof.
  intros Hx Hxy. symmetry. apply binade_unique. rewrite <- Hxy.
  now apply binade_spec.
Qed.

Lemma binade_opp x : binade (- x) = binade x.
Proof. destruct x as [n d]. unfold binade. cbn. now rewrite Z.abs_opp. Qed.

Lemma binade_mono x y :
  ~ x == 0 -> Qabs x <= Qabs y -> (binade x <= binade y)%Z.
Proof.
  intros Hx Hxy.
  assert (Hy : ~ y == 0).
  { intros H. rewrite H in Hxy. change (Qabs 0) with 0 in Hxy.
    pose proof (Qabs_nonneg x).
    assert (Qabs x == 0) by lra.
    apply Hx. destruct x as [n d]. unfold Qabs, Qeq in *. cbn in *. lia. }
  destruct (binade_spec Hx) as [Hlo _].
  destruct (binade_spec Hy) as [_ Hhi].
  assert (binade x < binade y + 1)%Z by (apply pow2_lt_inv; lra).
  lia.
Qed.

Lemma ulp_exp_mono x y :
  ~ x == 0 -> Qabs x <= Qabs y -> (ulp_exp x <= ulp_exp y)%Z.
Proof.
  intros Hx Hxy. pose proof (@binade_mono x y Hx Hxy). unfold ulp_exp. lia.
Qed.

(** ** Rounding to binary64 *)

Lemma fl_eq x :
  fl x == inject_Z (round_half_even (x * pow2 (- ulp_exp x)))
          * pow2 (ulp_exp x).
Proof. unfold fl. apply Qred_correct. Qed.

Lemma fl_zero x : x == 0 -> fl x = 0.
Proof.
  intros Hx. unfold fl. change 0 with (Qred 0). apply Qred_complete.
  assert (H : x * pow2 (- ulp_exp x) == inject_Z 0).
  { transitivity (0 * pow2 (- ulp_exp x));
      [apply Qmult_comp; [exact Hx|reflexivity]|ring]. }
  rewrite (round_half_even_compat H), round_half_even_Z. ring.
Qed.

Lemma ulp_exp_compat x y : ~ x == 0 -> x == y -> ulp_exp x = ulp_exp y.
Proof. intros Hx Hxy. unfold ulp_exp. now rewrite (binade_compat Hx Hxy). Qed.

Lemma fl_compat x y : x == y -> fl x = fl y.
Proof.
  intros Hxy. destruct (Qeq_dec x 0) as [Hx|Hx].
  - rewrite (fl_zero Hx). symmetry. apply fl_zero. now rewrite <- Hxy.
  - unfold fl. apply Qred_complete.
    rewrite <- (ulp_exp_compat Hx Hxy).
    assert (H : x * pow2 (- ulp_exp x) == y * pow2 (- ulp_exp x))
      by (apply Qmult_comp; [exact Hxy|reflexivity]).
    now rewrite (round_half_even_compat H).
Qed.

Lemma ulp_exp_opp x : ulp_exp (- x) = ulp_exp x.
Proof. unfold ulp_exp. now rewrite binade_opp. Qed.

Lemma fl_opp x : fl (- x) == - fl x.
Proof.
  rewrite !fl_eq, ulp_exp_opp.
  assert (H : - x * pow2 (- ulp_exp x) == - (x * pow2 (- ulp_exp x)))
    by ring.
  rewrite (round_half_even_compat H), round_half_even_opp, inject_Z_opp.
  ring.
Qed.

Lemma round_half_even_nonneg x : 0 <= x -> (0 <= round_half_even x)%Z.
Proof.
  intros Hx. rewrite <- (round_half_even_Z 0).
  now apply round_half_even_mono.
Qed.

Lemma fl_nonneg x : 0 <= x -> 0 <= fl x.
Proof.
  intros Hx. rewrite fl_eq. pose proof (pow2_pos (ulp_exp x)).
  pose proof (pow2_pos (- ulp_exp x)).
  apply Qmult_le_0_compat; [|lra].
  change 0 with (inject_Z 0). rewrite <- Zle_Qle.
  apply round_half_even_nonneg. apply Qmult_le_0_compat; lra.
Qed.

Lemma fl_nonpos x : x <= 0 -> fl x <= 0.
Proof.
  intros Hx. assert (H : 0 <= fl (- x)) by (apply fl_nonneg; lra).
  rewrite fl_opp in H. lra.
Qed.

(** Scaling by the unit in the last place and back. *)
Lemma scale_le x y k : x <= y -> x * pow2 k <= y * pow2 k.
Proof.
  intros H. pose proof (pow2_pos k). apply Qmult_le_compat_r; lra.
Qed.

Lemma scale_pow2 a b : pow2 a * pow2 (- b) == pow2 (a - b).
Proof. unfold Z.sub. now rewrite pow2_add. Qed.

Lemma fl_mono_pos x y : 0 < x -> x <= y -> fl x <= fl y.
Proof.
  intros Hx Hxy.
  assert (Hx0 : ~ x == 0) by lra.
  assert (Hy0 : ~ y == 0) by lra.
  assert (Hax : Qabs x == x) by (apply Qabs_pos; lra).
  assert (Hay : Qabs y == y) by (apply Qabs_pos; lra).
  assert (Hk : (ulp_exp x <= ulp_exp y)%Z)
    by (apply ulp_exp_mono; [assumption|lra]).
  destruct (binade_spec Hx0) as [_ Hxhi].
  destruct (binade_spec Hy0) as [Hylo _].
  rewrite Hax in Hxhi. rewrite Hay in Hylo.
  rewrite !fl_eq.
  destruct (Z.eq_dec (ulp_exp x) (ulp_exp y)) as [Heq|Hne].
  - rewrite Heq. apply scale_le. rewrite <- Zle_Qle.
    apply round_half_even_mono. now apply scale_le.
  - assert (Hky : ulp_exp y = (binade y - 52)%Z) by (unfold ulp_exp in *; lia).
    assert (He : (binade x + 1 <= binade y)%Z) by (unfold ulp_exp in *; lia).
    apply Qle_trans with (pow2 (binade y)).
    + assert (Hn : (0 <= binade y - ulp_exp x)%Z) by lia.
      assert (Hb : x * pow2 (- ulp_exp x)
                   <= inject_Z (2 ^ (binade y - ulp_exp x))).
      { rewrite <- pow2_Z, <- scale_pow2 by assumption.
        apply scale_le. pose proof (pow2_le He). lra. }
      apply round_half_even_mono in Hb. rewrite round_half_even_Z in Hb.
      rewrite Zle_Qle in Hb. apply (scale_le (ulp_exp x)) in Hb.
      rewrite <- pow2_Z in Hb by assumption.
      rewrite <- pow2_add in Hb.
      now replace (binade y - ulp_exp x + ulp_exp x)%Z with (binade y)
        in Hb by lia.
    + assert (Hb : inject_Z (2 ^ 52) <= y * pow2 (- ulp_exp y)).
      { rewrite <- pow2_Z by lia.
        replace 52%Z with (binade y - ulp_exp y)%Z by lia.
        rewrite <- scale_pow2. now apply scale_le. }
      apply round_half_even_mono in Hb. rewrite round_half_even_Z in Hb.
      rewrite Zle_Qle in Hb. apply (scale_le (ulp_exp y)) in Hb.
      rewrite <- pow2_Z in Hb by lia.
      rewrite <- pow2_add in Hb.
      now replace (52 + ulp_exp y)%Z with (binade y) in Hb by lia.
Qed.

(** Rounding is monotone. *)
Lemma fl_mono x y : x <= y -> fl x <= fl y.
Proof.
  intros Hxy. destruct (Qlt_le_dec 0 x) as [Hx|Hx].
  - now apply fl_mono_pos.
  - destruct (Qlt_le_dec y 0) as [Hy|Hy].
    + assert (H : fl (- y) <= fl (- x)) by (apply fl_mono_pos; lra).
      rewrite !fl_opp in H. lra.
    + pose proof (fl_nonpos Hx). pose proof (fl_nonneg Hy). lra.
Qed.

Lemma Qabs_scaled m k : Qabs (inject_Z m * pow2 k) == inject_Z (Z.abs m) * pow2 k.
Proof.
  rewrite Qabs_Qmult. pose proof (pow2_pos k).
  rewrite (Qabs_pos (pow2 k)) by lra.
  apply Qmult_comp; [|reflexivity]. unfold inject_Z. reflexivity.
Qed.

Lemma fl_repr_small m k :
  (Z.abs m < 2 ^ 53)%Z -> (-1074 <= k)%Z ->
  fl (inject_Z m * pow2 k) == inject_Z m * pow2 k.
Proof.
  intros Hm Hk. set (x := inject_Z m * pow2 k).
  destruct (Z.eq_dec m 0) as [->|Hm0].
  - rewrite fl_zero; unfold x; ring.
  - assert (Hx : ~ x == 0).
    { unfold x. intros H. apply Qmult_integral in H.
      pose proof (pow2_pos k). destruct H as [H|H]; [|lra].
      change 0 with (inject_Z 0) in H. rewrite inject_Z_injective in H.
      contradiction. }
    destruct (binade_spec Hx) as [Hlo _].
    assert (Hk' : (ulp_exp x <= k)%Z).
    { assert (He : (binade x < 53 + k)%Z).
      { apply pow2_lt_inv. eapply Qle_lt_trans; [exact Hlo|].
        unfold x. rewrite Qabs_scaled, pow2_add.
        pose proof (pow2_pos k). apply Qmult_lt_compat_r; [assumption|].
        rewrite pow2_Z by lia. rewrite <- Zlt_Qlt. assumption. }
      unfold ulp_exp. lia. }
    rewrite fl_eq. fold x. set (u := ulp_exp x) in *.
    assert (Hint : x * pow2 (- u) == inject_Z (m * 2 ^ (k - u))).
    { unfold x. rewrite inject_Z_mult, <- pow2_Z by lia.
      rewrite <- scale_pow2. ring. }
    rewrite (round_half_even_compat Hint), round_half_even_Z.
    rewrite inject_Z_mult, <- pow2_Z by lia.
    rewrite <- Qmult_assoc, <- pow2_add.
    replace (k - u + u)%Z with k by lia. reflexivity.
Qed.

(** Rounding leaves a binary64 number as it is. *)
Lemma fl_repr x : binary64 x -> fl x == x.
Proof.
  intros (m & k & Hx & Hm & Hk). rewrite (fl_compat Hx), Hx.
  destruct (Z.eq_dec (Z.abs m) (2 ^ 53)) as [Hmax|Hlt].
  - assert (Hhalf : inject_Z m * pow2 k == inject_Z (m / 2) * pow2 (k + 1)).
    { rewrite pow2_succ.
      assert (Hm2 : m = (2 * (m / 2))%Z).
      { destruct (Z.abs_spec m) as [[_ H]|[_ H]]; rewrite Hmax in H.
        - subst m. reflexivity.
        - assert (m = - 2 ^ 53)%Z by lia. subst m. reflexivity. }
      rewrite Hm2 at 1. rewrite inject_Z_mult. ring. }
    rewrite (fl_compat Hhalf), Hhalf. apply fl_repr_small; [|lia].
    destruct (Z.abs_spec m) as [[_ H]|[_ H]]; rewrite Hmax in H.
    + subst m. reflexivity.
    + assert (m = - 2 ^ 53)%Z by lia. subst m. reflexivity.
  - apply fl_repr_small; lia.
Qed.

(** The rounded value is a binary64 number. *)
Lemma fl_binary64 x : binary64 (fl x).
Proof.
  exists (round_half_even (x * pow2 (- ulp_exp x))), (ulp_exp x).
  split; [apply fl_eq|]. split; [|unfold ulp_exp; lia].
  destruct (Qeq_dec x 0) as [Hx|Hx].
  - assert (H : x * pow2 (- ulp_exp x) == inject_Z 0).
    { transitivity (0 * pow2 (- ulp_exp x));
        [apply Qmult_comp; [exact Hx|reflexivity]|ring]. }
    rewrite (round_half_even_compat H), round_half_even_Z. cbn. lia.
  - destruct (binade_spec Hx) as [_ Hhi].
    assert (Hb : Qabs (x * pow2 (- ulp_exp x)) <= inject_Z (2 ^ 53)).
    { rewrite Qabs_Qmult. pose proof (pow2_pos (- ulp_exp x)).
      rewrite (Qabs_pos (pow2 _)) by lra.
      rewrite <- pow2_Z by lia.
      apply Qle_trans with (pow2 (binade x + 1) * pow2 (- ulp_exp x)).
      - apply Qmult_le_compat_r; lra.
      - rewrite scale_pow2. apply pow2_le. unfold ulp_exp. lia. }
    apply Qabs_Qle_condition in Hb. destruct Hb as [Hb1 Hb2].
    rewrite <- inject_Z_opp in Hb1.
    apply round_half_even_mono in Hb1, Hb2.
    rewrite round_half_even_Z in Hb1, Hb2. lia.
Qed.

Lemma fl_canonical x : Qred (fl x) = fl x.
Proof. unfold fl. apply Qred_complete, Qred_correct. Qed.

Lemma fl_idem x : fl (fl x) = fl x.
Proof.
  rewrite <- (fl_canonical x) at 2. unfold fl at 1.
  apply Qred_complete. rewrite <- fl_eq. apply fl_repr, fl_binary64.
Qed.

Lemma binary64_on_grid x : binary64 x -> on_grid x.
Proof.
  intros (m & k & Hx & _ & Hk). exists (m * 2 ^ (k + 1074))%Z.
  rewrite Hx, inject_Z_mult, <- pow2_Z by lia.
  rewrite <- Qmult_assoc, <- pow2_add.
  now replace (k + 1074 + -1074)%Z with k by lia.
Qed.

Lemma on_grid_minus x y : on_grid x -> on_grid y -> on_grid (x - y).
Proof.
  intros [n Hn] [m Hm]. exists (n - m)%Z.
  unfold Z.sub. rewrite inject_Z_plus, inject_Z_opp, Hn, Hm. ring.
Qed.

(** The product of a rounded number by a factor below 1 rounds to a number
    that is not above the number before rounding: the factor is at most
    [1 - 2^-53], the largest value of [random.random()]. *)
Lemma fl_product_below x r :
  0 <= x -> on_grid x -> 0 <= r -> r <= 1 - pow2 (-53) ->
  fl (fl x * r) <= x.
Proof.
  intros Hx0 [n Hn] Hr0 Hr1.
  assert (Hr : r <= 1) by (pose proof (pow2_pos (-53)); lra).
  assert (Hbelow : fl x <= x -> fl (fl x * r) <= x).
  { intros H. pose proof (fl_nonneg Hx0) as HD.
    assert (Hy : fl x * r <= fl x) by nra.
    apply fl_mono in Hy. rewrite fl_idem in Hy. lra. }
  destruct (Qeq_dec x 0) as [Hx|Hx].
  { apply Hbelow. rewrite (fl_zero Hx). assumption. }
  assert (Hxpos : 0 < x) by lra.
  pose proof (fl_eq x) as HD.
  remember (ulp_exp x) as k eqn:Hkdef in *.
  remember (x * pow2 (- k)) as X eqn:HXdef in *.
  remember (round_half_even X) as M eqn:HMdef in *.
  assert (Hxk : x == X * pow2 k).
  { rewrite HXdef, <- Qmult_assoc, pow2_cancel. ring. }
  pose proof (pow2_pos k) as Hpk.
  destruct (Z.eq_dec k (-1074)) as [Hsub|Hnorm].
  - apply Hbelow. rewrite HD.
    assert (HX : X == inject_Z n).
    { rewrite HXdef, Hsub, Hn, <- Qmult_assoc.
      change (- -1074)%Z with 1074%Z.
      rewrite <- pow2_add. change (pow2 (-1074 + 1074)) with 1. ring. }
    rewrite HMdef, (round_half_even_compat HX), round_half_even_Z.
    rewrite Hxk, HX. lra.
  - destruct (Qlt_le_dec X (inject_Z M)) as [Hup|Hdown].
    2:{ apply Hbelow. rewrite HD, Hxk. apply Qmult_le_compat_r; lra. }
    destruct (binade_spec Hx) as [Hlo Hhi].
    rewrite (Qabs_pos x) in Hlo, Hhi by lra.
    assert (Hk : k = (binade x - 52)%Z) by (unfold ulp_exp in *; lia).
    assert (HXlo : inject_Z (2 ^ 52) <= X).
    { rewrite HXdef, <- pow2_Z by lia.
      replace 52%Z with (binade x - k)%Z by lia.
      rewrite <- scale_pow2. now apply scale_le. }
    assert (HXhi : X < inject_Z (2 ^ 53)).
    { rewrite HXdef, <- pow2_Z by lia.
      replace 53%Z with (binade x + 1 - k)%Z by lia.
      rewrite <- scale_pow2. pose proof (pow2_pos (- k)).
      apply Qmult_lt_compat_r; assumption. }
    pose proof (round_half_even_close X) as Hclose. rewrite <- HMdef in Hclose.
    assert (HM : (2 ^ 52 < M <= 2 ^ 53)%Z).
    { split.
      - apply inject_Z_lt_inv. lra.
      - pose proof (round_half_even_mono (Qlt_le_weak _ _ HXhi)) as H.
        rewrite round_half_even_Z, <- HMdef in H. exact H. }
    assert (H52 : 0 < inject_Z (2 ^ 52)) by reflexivity.
    assert (H53 : inject_Z (2 ^ 53) == 2 * inject_Z (2 ^ 52)) by reflexivity.
    assert (HMq : inject_Z (2 ^ 52) + 1 <= inject_Z M).
    { change 1 with (inject_Z 1). rewrite <- inject_Z_plus, <- Zle_Qle. lia. }
    assert (Hpred : fl (inject_Z (M - 1) * pow2 k) == inject_Z (M - 1) * pow2 k).
    { apply fl_repr. exists (M - 1)%Z, k. split; [reflexivity|].
      unfold ulp_exp in *. lia. }
    assert (HM1 : inject_Z (M - 1) == inject_Z M - 1).
    { unfold Z.sub. rewrite inject_Z_plus. reflexivity. }
    assert (Htarget : inject_Z (M - 1) * pow2 k <= x).
    { rewrite Hxk. apply Qmult_le_compat_r; [lra|lra]. }
    remember (fl x * r) as y eqn:Hydef.
    destruct (Qlt_le_dec (inject_Z (M - 1) * pow2 k) y) as [Hy|Hy].
    2:{ apply fl_mono in Hy. rewrite Hpred in Hy.
        exact (Qle_trans _ _ _ Hy Htarget). }
    assert (Hyhi : y <= (inject_Z M - inject_Z M * pow2 (-53)) * pow2 k).
    { rewrite Hydef, HD.
      assert (0 <= inject_Z M) by lra.
      assert (0 <= inject_Z M * pow2 k) by (apply Qmult_le_0_compat; lra).
      nra. }
    assert (Hhalf : (1 # 2) < inject_Z M * pow2 (-53)).
    { assert (Hp53 : pow2 (-53) == 1 # (2 ^ 53)) by reflexivity.
      rewrite Hp53.
      assert (inject_Z (2 ^ 52) * (1 # 2 ^ 53) == 1 # 2) by reflexivity.
      assert (0 < 1 # 2 ^ 53) by reflexivity. nra. }
    assert (Hy0 : ~ y == 0).
    { assert (0 <= inject_Z (M - 1) * pow2 k)
        by (apply Qmult_le_0_compat; lra).
      lra. }
    assert (Hey : binade y = binade x).
    { apply binade_unique.
      assert (0 <= inject_Z (M - 1) * pow2 k)
        by (apply Qmult_le_0_compat; lra).
      rewrite (Qabs_pos y) by lra. split.
      - apply Qle_trans with (inject_Z (M - 1) * pow2 k); [|lra].
        replace (binade x) with (52 + k)%Z by lia.
        rewrite pow2_add, (@pow2_Z 52) by lia.
        apply Qmult_le_compat_r; lra.
      - apply Qle_lt_trans with
          ((inject_Z M - inject_Z M * pow2 (-53)) * pow2 k); [assumption|].
        replace (binade x + 1)%Z with (53 + k)%Z by lia.
        rewrite pow2_add, (@pow2_Z 53) by lia.
        apply Qmult_lt_compat_r; [assumption|].
        assert (inject_Z M <= inject_Z (2 ^ 53))
          by (rewrite <- Zle_Qle; lia).
        lra. }
    assert (Hky : ulp_exp y = k) by (unfold ulp_exp in *; rewrite Hey; lia).
    rewrite fl_eq, Hky.
    assert (HY : round_half_even (y * pow2 (- k)) = (M - 1)%Z).
    { pose proof (pow2_pos (- k)) as Hnk.
      pose proof (pow2_cancel k) as Hc.
      apply round_half_even_down.
      - apply Qle_trans with (inject_Z (M - 1) * pow2 k * pow2 (- k)).
        + rewrite <- Qmult_assoc, (Qmult_comm (pow2 k)), Hc. lra.
        + apply Qmult_le_compat_r; lra.
      - apply Qle_lt_trans with
          ((inject_Z M - inject_Z M * pow2 (-53)) * pow2 k * pow2 (- k)).
        + apply Qmult_le_compat_r; lra.
        + rewrite <- Qmult_assoc, (Qmult_comm (pow2 k)), Hc. lra. }
    rewrite HY. exact Htarget.
Qed.

(** [a + (b - a) * r] in binary64, for [r] a value of [random.random()],
    stays within [[a, b]]. *)
Lemma uniform_within a b r :
  binary64 a -> binary64 b -> a <= b ->
  0 <= r -> r <= 1 - pow2 (-53) ->
  a <= fl (a + fl (fl (b - a) * r)) <= b.
Proof.
  intros Ha Hb Hab Hr0 Hr1.
  assert (Hx : 0 <= b - a) by lra.
  pose proof (fl_nonneg Hx) as HD.
  assert (HP : 0 <= fl (fl (b - a) * r))
    by (apply fl_nonneg, Qmult_le_0_compat; assumption).
  assert (HQ : fl (fl (b - a) * r) <= b - a).
  { apply fl_product_below; try assumption.
    apply on_grid_minus; now apply binary64_on_grid. }
  split.
  - rewrite <- (fl_repr Ha) at 1. apply fl_mono. lra.
  - rewrite <- (fl_repr Hb) at 2. apply fl_mono. lra.
Qed.

(* ------------------------------------------------------------------ *)
(** ** Connector *)

Lemma float_of_int_mono a b :
  (a <= b)%Z -> float_of_int a <= float_of_int b.
Proof. intros H. apply fl_mono. now rewrite <- Zle_Qle. Qed.

Lemma float_of_int_nonneg a : (0 <= a)%Z -> 0 <= float_of_int a.
Proof.
  intros H. apply fl_nonneg. change 0 with (inject_Z 0).
  now rewrite <- Zle_Qle.
Qed.

Lemma delay_nonneg backoff k : 0 <= backoff -> (0 <= k)%Z -> 0 <= delay backoff k.
Proof.
  intros Hb Hk. apply fl_nonneg, Qmult_le_0_compat; [assumption|].
  now apply float_of_int_nonneg.
Qed.

Lemma delay_mono backoff j k :
  0 <= backoff -> (j <= k)%Z -> delay backoff j <= delay backoff k.
Proof.
  intros Hb Hjk. apply fl_mono.
  rewrite !(Qmult_comm backoff). apply Qmult_le_compat_r; [|assumption].
  now apply float_of_int_mono.
Qed.

Lemma sleep_ns_mono d d' : d <= d' -> sleep_ns d <= sleep_ns d'.
Proof.
  intros H. apply fl_mono. apply Qmult_le_compat_r; [assumption|].
  now apply float_of_int_nonneg.
Qed.

Lemma sleep_ns_nonneg d : 0 <= d -> 0 <= sleep_ns d.
Proof.
  intros H. apply fl_nonneg, Qmult_le_0_compat; [assumption|].
  now apply float_of_int_nonneg.
Qed.

(** [time.sleep] returns on a duration it accepts. *)
Lemma sleep_accepts d t : sleepable d -> sleep d t = (Ok tt, EvSleep d :: t).
Proof.
  intros [Hd Hns]. unfold sleep.
  pose proof (sleep_ns_nonneg Hd) as H0.
  assert (H1 : Qle_bool (- inject_Z (2 ^ 63)) (sleep_ns d) = true).
  { apply Qle_bool_iff.
    assert (- inject_Z (2 ^ 63) <= 0) by discriminate. lra. }
  assert (H2 : Qle_bool (inject_Z (2 ^ 63)) (sleep_ns d) = false).
  { destruct (Qle_bool (inject_Z (2 ^ 63)) (sleep_ns d)) eqn:H;
      [|reflexivity].
    apply Qle_bool_iff in H. lra. }
  assert (H3 : Qle_bool 0 d = true) by now apply Qle_bool_iff.
  now rewrite H1, H2, H3.
Qed.

(** [time.sleep] refuses a negative duration. *)
Lemma sleep_refuses d t :
  d < 0 -> - inject_Z (2 ^ 63) <= sleep_ns d ->
  sleep d t
  = (Raise (mkExn ValueError "sleep length must be non-negative"), t).
Proof.
  intros Hd Hns. unfold sleep.
  assert (H0 : sleep_ns d <= 0).
  { apply fl_nonpos.
    pose proof (@float_of_int_nonneg (10 ^ 9) ltac:(discriminate)).
    nra. }
  assert (H1 : Qle_bool (- inject_Z (2 ^ 63)) (sleep_ns d) = true)
    by now apply Qle_bool_iff.
  assert (H2 : Qle_bool (inject_Z (2 ^ 63)) (sleep_ns d) = false).
  { destruct (Qle_bool (inject_Z (2 ^ 63)) (sleep_ns d)) eqn:H;
      [|reflexivity].
    apply Qle_bool_iff in H.
    assert (0 < inject_Z (2 ^ 63)) by reflexivity. lra. }
  assert (H3 : Qle_bool 0 d = false).
  { destruct (Qle_bool 0 d) eqn:H; [|reflexivity].
    apply Qle_bool_iff in H. lra. }
  now rewrite H1, H2, H3.
Qed.

(** Statements that nest float operations are declared without implicit
    arguments. *)
Unset Implicit Arguments.

(** When the longest delay is accepted, so is every delay before it. *)
Lemma delay_sleepable backoff max_retries k :
  0 <= backoff ->
  sleep_ns (delay backoff max_retries) < inject_Z (2 ^ 63) ->
  (0 <= k <= max_retries)%Z ->
  sleepable (delay backoff k).
Proof.
  intros Hb Hmax [Hk0 Hk]. split; [now apply delay_nonneg|].
  eapply Qle_lt_trans; [|exact Hmax].
  now apply sleep_ns_mono, delay_mono.
Qed.

Set Implicit Arguments.

Section ConnectorFacts.
Variable W : behaviour.
Variable p : db_params.
Variable max_retries : Z.
Variable backoff : Q.

Lemma retry_rounds_snoc attempt failures e t :
  rev (retry_rounds p backoff (attempt + 1) failures)
    ++ EvSleep (delay backoff (attempt + 1))
    :: EvDb (Connect p) (Some e) :: t
  = rev (retry_rounds p backoff attempt (e :: failures)) ++ t.
Proof.
  simpl. rewrite <- !app_assoc. reflexivity.
Qed.

Lemma sleeps_retry_rounds failures : forall attempt,
  sleeps (retry_rounds p backoff attempt failures)
  = map (fun k => delay backoff (attempt + Z.of_nat k))
        (seq 1 (List.length failures)).
Proof.
  induction failures as [|e failures IH]; intros attempt; [reflexivity|].
  cbn [retry_rounds sleeps List.length seq map].
  f_equal.
  rewrite IH, <- (seq_shift _ 1), map_map.
  apply map_ext. intros k. f_equal. lia.
Qed.

Lemma retry_rounds_events failures : forall attempt ev,
  Forall (fun e => is_operational e = true) failures ->
  In ev (retry_rounds p backoff attempt failures) ->
  (exists d, ev = EvSleep d)
  \/ (exists e, ev = EvDb (Connect p) (Some e) /\ is_operational e = true).
Proof.
  induction failures as [|e failures IH]; intros attempt ev Hall Hin;
    [contradiction|].
  inversion Hall; subst.
  destruct Hin as [<-|[<-|Hin]].
  - right. now exists e.
  - left. now eexists.
  - eapply IH; eauto.
Qed.

End ConnectorFacts.

Unset Implicit Arguments.

Section ConnectorLoop.
Variable W : behaviour.
Variable p : db_params.
Variable max_retries : Z.
Variable backoff : Q.
Hypothesis backoff_nonneg : 0 <= backoff.
Hypothesis longest_accepted :
  sleep_ns (delay backoff max_retries) < inject_Z (2 ^ 63).

(** The loop with enough fuel: it ends with one last [connect], after
    rounds that each failed with an [OperationalError] and slept. *)
Lemma make_conn_loop_log fuel : forall attempt t,
  (0 <= attempt)%Z ->
  (Z.to_nat (max_retries - attempt) < fuel)%nat ->
  exists failures last,
    snd (make_conn_loop W p max_retries backoff fuel attempt t)
    = EvDb (Connect p) last
      :: rev (retry_rounds p backoff attempt failures) ++ t
    /\ Forall (fun e => is_operational e = true) failures
    /\ (attempt + Z.of_nat (List.length failures)
        <= Z.max attempt max_retries)%Z
    /\ match last with
       | None =>
           exists c,
             fst (make_conn_loop W p max_retries backoff fuel attempt t)
             = Ok c
       | Some e =>
           fst (make_conn_loop W p max_retries backoff fuel attempt t)
           = Raise e
           /\ (is_operational e = true ->
               (max_retries <= attempt + Z.of_nat (List.length failures))%Z)
       end.
Proof.
  induction fuel as [|fuel IH]; intros attempt t Hpos Hfuel; [lia|].
  cbn [make_conn_loop]. unfold try_except, perform.
  destruct (db W t (Connect p)) as [c|e] eqn:Hdb.
  - exists [], None. cbn. repeat split; try constructor; try lia.
    now exists c.
  - destruct (is_operational e) eqn:Hop.
    + destruct (attempt + 1 >? max_retries)%Z eqn:Hgt.
      * exists [], (Some e). cbn. repeat split; try constructor; lia.
      * unfold bind. fold (delay backoff (attempt + 1)).
        rewrite sleep_accepts
          by (apply (delay_sleepable backoff max_retries); auto; lia).
        destruct (IH (attempt + 1)%Z
                    (EvSleep (delay backoff (attempt + 1))
                     :: EvDb (Connect p) (Some e) :: t))
          as (failures & last & Hlog & Hall & Hlen & Hres); [lia|lia|].
        exists (e :: failures), last.
        destruct (make_conn_loop W p max_retries backoff fuel
                    (attempt + 1)
                    (EvSleep (delay backoff (attempt + 1))
                     :: EvDb (Connect p) (Some e) :: t))
          as [r t'] eqn:Hrun.
        cbn [fst snd] in *. subst t'.
        assert (Hcons : Z.of_nat (List.length (e :: failures))
                        = (Z.of_nat (List.length failures) + 1)%Z)
          by (cbn [List.length]; lia).
        rewrite Hcons.
        destruct last as [e'|].
        -- destruct Hres as [Hr Hex]. subst r. cbn [fst snd].
           rewrite retry_rounds_snoc.
           repeat split; auto; try lia. intros H. specialize (Hex H). lia.
        -- destruct Hres as [c Hr]. subst r. cbn [fst snd].
           rewrite retry_rounds_snoc.
           repeat split; auto; try lia. now exists c.
    + exists [], (Some e). cbn. repeat split; try constructor; try lia.
      congruence.
Qed.
End ConnectorLoop.

(** What [make_conn] does from the empty counter, with a backoff that is not
    negative and delays that [time.sleep] accepts: its result and its log. *)
Lemma make_conn_log W p max_retries backoff t :
  0 <= backoff ->
  sleep_ns (delay backoff max_retries) < inject_Z (2 ^ 63) ->
  exists failures last,
    snd (make_conn W p max_retries backoff t)
    = EvDb (Connect p) last :: rev (retry_rounds p backoff 0 failures) ++ t
    /\ Forall (fun e => is_operational e = true) failures
    /\ (Z.of_nat (List.length failures) <= Z.max 0 max_retries)%Z
    /\ match last with
       | None => exists c, fst (make_conn W p max_retries backoff t) = Ok c
       | Some e =>
           fst (make_conn W p max_retries backoff t) = Raise e
           /\ (is_operational e = true ->
               Z.of_nat (List.length failures) = Z.max 0 max_retries)
       end.
Proof.
  intros Hb Hs. unfold make_conn.
  destruct (make_conn_loop_log W p max_retries backoff Hb Hs
              (S (Z.to_nat max_retries)) 0%Z t)
    as (failures & last & Hlog & Hall & Hlen & Hres); [lia|lia|].
  exists failures, last. repeat split; auto; try lia.
  destruct last as [e|]; auto.
  destruct Hres as [Hr Hex]. split; auto. intros H. specialize (Hex H). lia.
Qed.

(** The defaults of [make_conn], as [worker_task] calls it. *)
Lemma make_conn_default_log W p t :
  exists failures last,
    snd (make_conn W p 3 1 t)
    = EvDb (Connect p) last :: rev (retry_rounds p 1 0 failures) ++ t
    /\ Forall (fun e => is_operational e = true) failures
    /\ (Z.of_nat (List.length failures) <= 3)%Z
    /\ match last with
       | None => exists c, fst (make_conn W p 3 1 t) = Ok c
       | Some e =>
           fst (make_conn W p 3 1 t) = Raise e
           /\ (is_operational e = true ->
               Z.of_nat (List.length failures) = 3%Z)
       end.
Proof.
  apply (make_conn_log W p 3 1 t); [discriminate|vm_compute; reflexivity].
Qed.

Set Implicit Arguments.

(* ------------------------------------------------------------------ *)
(** ** Transaction executor *)

Lemma raised_in_rounds p backoff attempt failures t c e :
  Forall (fun e => is_operational e = true) failures ->
  In (EvDb c (Some e)) (rev (retry_rounds p backoff attempt failures) ++ t) ->
  (c = Connect p /\ is_operational e = true) \/ In (EvDb c (Some e)) t.
Proof.
  intros Hall Hin. apply in_app_or in Hin. destruct Hin as [Hin|Hin]; auto.
  apply in_rev in Hin.
  destruct (retry_rounds_events _ _ _ _ Hall Hin) as [[d Hd]|[e' [He Hop]]].
  - discriminate.
  - inversion He; subst. auto.
Qed.

(** Case analysis on every answer of the database along one invocation. *)
Ltac db_step W :=
  match goal with
  | |- context [db W ?t ?c] =>
      let a := fresh "a" in
      let H := fresh "Hdb" in
      destruct (db W t c) as [a|a] eqn:H
  end.

Ltac run_step :=
  cbv beta iota zeta
      delta [bind ret raise try_except try_finally perform sleep time_time
             utcnow_iso is_exception fst snd status_of_row].

Ltac enter_worker W params :=
  unfold worker_task, attempt_transfer, transaction, run_mode; run_step;
  let failures := fresh "failures" in
  let last := fresh "last" in
  let Hlog := fresh "Hlog" in
  let Hall := fresh "Hall" in
  let Hres := fresh "Hres" in
  let rc := fresh "rc" in
  let tc := fresh "tc" in
  destruct (make_conn_default_log W params [EvTime; EvUtcnow])
    as (failures & last & Hlog & Hall & _ & Hres);
  destruct (make_conn W params 3 1 [EvTime; EvUtcnow]) as [rc tc];
  cbn [fst snd] in Hlog, Hres; subst tc;
  destruct last as [?e|];
  [ destruct Hres as [Hres _]; subst rc
  | destruct Hres as [?c Hres]; subst rc ];
  run_step.

Ltac find_event :=
  unfold raised_in; cbn [In];
  repeat first [ left; reflexivity | right ].

Ltac only_retries Hall :=
  let c := fresh "c" in
  let e := fresh "e" in
  let Hin := fresh "Hin" in
  intros c e Hin; unfold raised_in in Hin; cbn [In] in Hin;
  repeat (destruct Hin as [Hin|Hin]; [discriminate Hin|]);
  destruct (@raised_in_rounds _ _ _ _ _ _ _ Hall Hin) as [[-> ?]|Hin'];
  [ split; [reflexivity|assumption]
  | cbn [In] in Hin'; repeat (destruct Hin' as [Hin'|Hin']; try discriminate);
    contradiction ].

(** The invocation returns, whatever the world answers. *)
Lemma worker_task_total W params mode isolation_level from_id to_id amt
    tx_timeout :
  exists r t,
    worker_task W params mode isolation_level from_id to_id amt tx_timeout []
    = (Ok r, t).
Proof.
  enter_worker W params.
  - do 2 eexists. reflexivity.
  - destruct (str_eqb mode "2pl"); [|destruct (str_eqb mode "ts");
      [|destruct (str_eqb mode "opt")]];
      repeat (db_step W; run_step); do 2 eexists; reflexivity.
Qed.

(** C3. [worker_task] never raises past its boundary: in every world, for
    every mode, isolation level and request, it returns a result record.
    The record encodes the outcome: either [error] is [None] and no call
    raised except connection attempts that [make_conn] retried, or some
    call raised [e], [error] is the text of [e] and [status] is that text
    behind ["ABORT: "] or ["CONN_ERR: "]. *)
Theorem worker_task_never_raises W params mode isolation_level from_id to_id
    amt tx_timeout :
  exists r t,
    worker_task W params mode isolation_level from_id to_id amt tx_timeout []
    = (Ok r, t)
    /\ ((error r = None
         /\ forall c e, raised_in t c e ->
                        c = Connect params /\ is_operational e = true)
        \/ exists c e,
             error r = Some (replace_newline (exn_msg e))
             /\ (status r
                 = Some (String.append "ABORT: " (replace_newline (exn_msg e)))
                 \/ status r
                    = Some (String.append "CONN_ERR: "
                                          (replace_newline (exn_msg e))))
             /\ raised_in t c e).
Proof.
  enter_worker W params.
  - do 2 eexists. split; [reflexivity|]. right. exists (Connect params), e.
    cbn [error status]. split; [reflexivity|split; [auto|find_event]].
  - destruct (str_eqb mode "2pl"); [|destruct (str_eqb mode "ts");
      [|destruct (str_eqb mode "opt")]];
      repeat (db_step W; run_step);
      (do 2 eexists; split; [reflexivity|]; cbn [error status];
       first [ left; split; [reflexivity|only_retries Hall]
             | right; do 2 eexists;
               split; [reflexivity|split; [auto|find_event]] ]).
Qed.

Lemma abort_counts_aborted msg :
  counts_aborted (Some (String.append "ABORT: " msg)) = true.
Proof. reflexivity. Qed.

Lemma conn_err_counts_aborted msg :
  counts_aborted (Some (String.append "CONN_ERR: " msg)) = true.
Proof.
  unfold counts_aborted, truthy, text_in. simpl. apply orb_true_r.
Qed.

(** In a leaf of the case analysis: the call of the log that raised. *)
Ltac which_raised Hall Hin :=
  unfold raised_in in Hin; cbn [In] in Hin;
  repeat (destruct Hin as [Hin|Hin];
          [first [discriminate Hin | injection Hin as <- <-]|]);
  [..| destruct (@raised_in_rounds _ _ _ _ _ _ _ Hall Hin) as [[-> ?]|Hin'];
       [| cbn [In] in Hin';
          repeat (destruct Hin' as [Hin'|Hin']; try discriminate);
          contradiction ]].

(** In a leaf of the case analysis: some call raised although [H] says that
    no call of its kind did. *)
Ltac refute_by_raise W H :=
  exfalso;
  match goal with
  | Hdb : db W _ ?c = Throws ?x |- _ =>
      let K := fresh "K" in
      assert (K := H c x ltac:(find_event)); discriminate K
  end.

Lemma count_if_app {A} (f : A -> bool) l1 l2 :
  count_if f (l1 ++ l2) = (count_if f l1 + count_if f l2)%nat.
Proof.
  induction l1 as [|x l1 IH]; [reflexivity|].
  cbn. fold (count_if f (l1 ++ l2)) (count_if f l1). rewrite IH.
  now destruct (f x).
Qed.

Lemma count_if_rev {A} (f : A -> bool) l :
  count_if f (rev l) = count_if f l.
Proof.
  induction l as [|x l IH]; [reflexivity|].
  cbn [rev]. rewrite count_if_app, IH. cbn.
  fold (count_if f l). destruct (f x); lia.
Qed.

Lemma count_if_le {A} (f : A -> bool) l :
  (count_if f l <= List.length l)%nat.
Proof.
  induction l as [|x l IH]; [reflexivity|].
  cbn. fold (count_if f l). destruct (f x); lia.
Qed.

Lemma count_if_while_connecting (f : event -> bool) p backoff failures t :
  (forall q o, f (EvDb (Connect q) o) = false) ->
  (forall d, f (EvSleep d) = false) ->
  fold_right (fun x n => if f x then S n else n) 0%nat
    (rev (retry_rounds p backoff 0 failures) ++ t)
  = count_if f t.
Proof.
  intros Hconnect Hsleep.
  change (count_if f (rev (retry_rounds p backoff 0 failures) ++ t)
          = count_if f t).
  rewrite count_if_app, count_if_rev.
  assert (Hz : forall z, count_if f (retry_rounds p backoff z failures)
                         = 0%nat).
  { induction failures as [|e l IH]; intros z; [reflexivity|].
    cbn [retry_rounds]. unfold count_if. cbn [fold_right].
    rewrite Hconnect, Hsleep. apply IH. }
  now rewrite Hz.
Qed.

(** C4, the code against the claim. When a call of steps 5-6 (the operation
    of the mode, the fetch of its status, the commit) raises [e], [rollback]
    is called, and if neither the rollback nor the release of cursor and
    session raises, [status] is ["ABORT: "] followed by the text of [e],
    which the aggregator counts as aborted. When a call of steps 3-4 (the
    statement timeout, [BEGIN]) raises [e], no rollback is called and
    [status] is ["CONN_ERR: "] followed by the text of [e]: lines 60-61 stand
    before the inner [try] of line 62. *)
Theorem worker_task_status_on_failure W params mode isolation_level from_id
    to_id amt tx_timeout r t c e :
  worker_task W params mode isolation_level from_id to_id amt tx_timeout []
  = (Ok r, t) ->
  raised_in t c e ->
  (in_operation c = true ->
   (exists s o, In (EvDb (Rollback s) o) t)
   /\ ((forall c' e', raised_in t c' e' -> in_cleanup c' = false) ->
       status r = Some (String.append "ABORT: " (replace_newline (exn_msg e)))
       /\ error r = Some (replace_newline (exn_msg e))
       /\ counts_aborted (status r) = true))
  /\ (in_setup c = true ->
      count_if is_rollback t = 0%nat
      /\ status r = Some (String.append "CONN_ERR: "
                                        (replace_newline (exn_msg e)))
      /\ error r = Some (replace_newline (exn_msg e))
      /\ counts_aborted (status r) = true).
Proof.
  enter_worker W params.
  - intros Hrun Hin. injection Hrun as <- <-.
    which_raised Hall Hin; (split; intros Hc; discriminate Hc).
  - destruct (str_eqb mode "2pl"); [|destruct (str_eqb mode "ts");
      [|destruct (str_eqb mode "opt")]];
      repeat (db_step W; run_step);
      (intros Hrun Hin; injection Hrun as <- <-;
       which_raised Hall Hin;
       (split; intros Hc; cbn [status error];
        [ first
            [ discriminate Hc
            | split;
              [ do 2 eexists; cbn [In];
                repeat first [left; reflexivity | right]
              | intros Hclean;
                first [ split; [reflexivity|split; [reflexivity|]];
                        apply abort_counts_aborted
                      | refute_by_raise W Hclean ] ] ]
        | first
            [ discriminate Hc
            | split;
              [ cbn [count_if fold_right is_rollback];
                now rewrite count_if_while_connecting by reflexivity
              | split; [reflexivity|split; [reflexivity|]];
                apply conn_err_counts_aborted ] ] ])).
Qed.

Lemma no_close_in_rounds p backoff failures : forall attempt,
  count_if is_conn_close (retry_rounds p backoff attempt failures) = 0%nat.
Proof.
  induction failures as [|e l IH]; intros attempt; [reflexivity|].
  cbn. apply IH.
Qed.

(** The session is released at most once; not at all when none was acquired;
    exactly once when one was acquired and neither the cursor, the setup
    statements nor the closing of the cursor raised. *)
Lemma worker_task_release_count W params mode isolation_level from_id
    to_id amt tx_timeout r t :
  worker_task W params mode isolation_level from_id to_id amt tx_timeout []
  = (Ok r, t) ->
  (count_if is_conn_close t <= 1)%nat
  /\ (~ In (EvDb (Connect params) None) t -> count_if is_conn_close t = 0%nat)
  /\ (In (EvDb (Connect params) None) t ->
      (forall c e, raised_in t c e -> skips_release c = false) ->
      count_if is_conn_close t = 1%nat).
Proof.
  assert (Hz : forall failures,
             fold_right (fun x n => if is_conn_close x then S n else n) 0%nat
               (rev (retry_rounds params 1 0 failures) ++ [EvTime; EvUtcnow])
             = 0%nat).
  { intros failures.
    change (count_if is_conn_close
              (rev (retry_rounds params 1 0 failures) ++ [EvTime; EvUtcnow])
            = 0%nat).
    now rewrite count_if_app, count_if_rev, no_close_in_rounds. }
  enter_worker W params.
  - intros Hrun. injection Hrun as <- <-.
    cbn [count_if fold_right is_conn_close]. rewrite Hz.
    split; [lia|split; [reflexivity|]].
    intros Hin. exfalso. cbn [In] in Hin.
    repeat (destruct Hin as [Hin|Hin]; [discriminate Hin|]).
    apply in_app_or in Hin. destruct Hin as [Hin|Hin].
    + apply in_rev in Hin.
      destruct (retry_rounds_events _ _ _ _ Hall Hin) as [[d Hd]|[x [Hx _]]];
        discriminate.
    + cbn [In] in Hin.
      repeat (destruct Hin as [Hin|Hin]; try discriminate). contradiction.
  - destruct (str_eqb mode "2pl"); [|destruct (str_eqb mode "ts");
      [|destruct (str_eqb mode "opt")]];
      repeat (db_step W; run_step);
      (intros Hrun; injection Hrun as <- <-;
       cbn [count_if fold_right is_conn_close]; rewrite Hz;
       split; [lia|split;
         [ intros Hno; exfalso; apply Hno; cbn [In];
           repeat first [left; reflexivity | right]
         | intros _ Hnone;
           first [reflexivity | refute_by_raise W Hnone] ]]).
Qed.

Lemma no_close_while_connecting p backoff failures t :
  count_if is_conn_close t = 0%nat ->
  fold_right (fun x n => if is_conn_close x then S n else n) 0%nat
    (rev (retry_rounds p backoff 0 failures) ++ t) = 0%nat.
Proof.
  intros Ht.
  change (count_if is_conn_close (rev (retry_rounds p backoff 0 failures) ++ t)
          = 0%nat).
  now rewrite count_if_app, count_if_rev, no_close_in_rounds.
Qed.

(** C1, the code at the failing input. When [SET LOCAL statement_timeout] or
    [BEGIN] raises, a session was acquired and [conn.close()] is never
    called: the session is not released. *)
Theorem worker_task_leaks_session_on_setup_failure W params mode
    isolation_level from_id to_id amt tx_timeout r t c e :
  worker_task W params mode isolation_level from_id to_id amt tx_timeout []
  = (Ok r, t) ->
  raised_in t c e ->
  in_setup c = true ->
  In (EvDb (Connect params) None) t /\ count_if is_conn_close t = 0%nat.
Proof.
  enter_worker W params.
  - intros Hrun Hin. injection Hrun as <- <-.
    which_raised Hall Hin; intros Hc; discriminate Hc.
  - destruct (str_eqb mode "2pl"); [|destruct (str_eqb mode "ts");
      [|destruct (str_eqb mode "opt")]];
      repeat (db_step W; run_step);
      (intros Hrun Hin; injection Hrun as <- <-;
       which_raised Hall Hin;
       (intros Hc;
        first [ discriminate Hc
              | split;
                [ cbn [In]; repeat first [left; reflexivity | right]
                | cbn [count_if fold_right is_conn_close];
                  now apply no_close_while_connecting ] ])).
Qed.

Lemma timeout_rejected_run_leaks :
  exists r t,
    timeout_rejected_run = (Ok r, t)
    /\ In (EvDb (Connect sample_params) None) t
    /\ count_if is_conn_close t = 0%nat.
Proof.
  do 2 eexists. split; [vm_compute; reflexivity|].
  eapply (@worker_task_leaks_session_on_setup_failure
            timeout_rejected_world sample_params "2pl" "READ COMMITTED"
            1 2 (10 # 1) 30) with
    (c := Execute 1%nat (SetLocalTimeout 30000))
    (e := mkExn DatabaseError "invalid value for statement_timeout").
  - vm_compute; reflexivity.
  - find_event.
  - reflexivity.
Defined.

(** C4 at the failing input. [BEGIN] raises: no rollback is called and the
    status is a ["CONN_ERR: "] text, not an ["ABORT: "] one. *)
Lemma begin_failure_is_not_rolled_back :
  exists r t,
    begin_fails_run = (Ok r, t)
    /\ raised_in t (Execute 1%nat (BeginIsolation "SERIALIZABLE"))
                 (mkExn OperationalError "server closed the connection")
    /\ count_if is_rollback t = 0%nat
    /\ status r = Some "CONN_ERR: server closed the connection"%string.
Proof.
  do 2 eexists. split; [vm_compute; reflexivity|].
  split; [find_event|].
  destruct (@worker_task_status_on_failure
              begin_fails_world sample_params "2pl" "SERIALIZABLE"
              1 2 (10 # 1) 30 _ _
              (Execute 1%nat (BeginIsolation "SERIALIZABLE"))
              (mkExn OperationalError "server closed the connection")
              ltac:(vm_compute; reflexivity)
              ltac:(find_event)) as [_ Hsetup].
  destruct (Hsetup eq_refl) as (Hroll & Hstatus & _).
  split; [exact Hroll|exact Hstatus].
Defined.

(** The commit raises: the transaction is rolled back and the status is an
    ["ABORT: "] text. *)
Lemma commit_failure_is_aborted :
  exists r t,
    commit_fails_run = (Ok r, t)
    /\ In (EvDb (Rollback 1%nat) None) t
    /\ status r = Some "ABORT: could not serialize access"%string.
Proof.
  do 2 eexists. split; [vm_compute; reflexivity|].
  split; [cbn [In]; repeat first [left; reflexivity | right]|reflexivity].
Qed.

(* ------------------------------------------------------------------ *)
(** ** Connector: the claims *)

Unset Implicit Arguments.

(** C6. With a backoff that is not negative and delays that [time.sleep]
    accepts, [make_conn] makes one connection attempt, preceded by rounds
    that each failed with an [OperationalError] and then slept: there are at
    most [max_retries] such rounds (retries), the sleep before retry [k]
    lasts [backoff * k], and the outcome is the outcome of the last attempt:
    the session, or the exception of that attempt raised to the caller. An
    [OperationalError] is raised only once the [max_retries] retries are
    used up. *)
Theorem make_conn_retry_policy W p max_retries backoff t :
  0 <= backoff ->
  sleep_ns (delay backoff max_retries) < inject_Z (2 ^ 63) ->
  exists failures last,
    snd (make_conn W p max_retries backoff t)
    = EvDb (Connect p) last :: rev (retry_rounds p backoff 0 failures) ++ t
    /\ Forall (fun e => is_operational e = true) failures
    /\ (Z.of_nat (List.length failures) <= Z.max 0 max_retries)%Z
    /\ sleeps (retry_rounds p backoff 0 failures)
       = map (fun k => fmul backoff (float_of_int (Z.of_nat k)))
             (seq 1 (List.length failures))
    /\ match last with
       | None => exists c, fst (make_conn W p max_retries backoff t) = Ok c
       | Some e =>
           fst (make_conn W p max_retries backoff t) = Raise e
           /\ (is_operational e = true ->
               Z.of_nat (List.length failures) = Z.max 0 max_retries)
       end.
Proof.
  intros Hb Hs.
  destruct (make_conn_log W p max_retries backoff t Hb Hs)
    as (failures & last & Hlog & Hall & Hlen & Hres).
  exists failures, last. repeat split; auto.
  rewrite sleeps_retry_rounds. apply map_ext. intros k. reflexivity.
Qed.

(** The defaults against a server that is down: three retries, then the
    [OperationalError] of the fourth attempt. *)
Lemma default_retry_policy :
  exists failures,
    List.length failures = 3%nat
    /\ sleeps (retry_rounds sample_params 1 0 failures) = [1; 2; 3]
    /\ fst (make_conn unreachable_world sample_params 3 1 [])
       = Raise (mkExn OperationalError "connection refused").
Proof.
  destruct (make_conn_retry_policy unreachable_world sample_params 3 1 [])
    as (failures & last & Hlog & Hall & Hlen & Hsleeps & Hres).
  - discriminate.
  - vm_compute. reflexivity.
  - assert (Hrun : make_conn unreachable_world sample_params 3 1 []
                   = (Raise (mkExn OperationalError "connection refused"),
                      snd (make_conn unreachable_world sample_params 3 1 [])))
      by (vm_compute; reflexivity).
    rewrite Hrun in Hres. cbn [fst] in Hres.
    destruct last as [e|]; [|destruct Hres as [c Hc]; discriminate Hc].
    destruct Hres as [He Hmax]. injection He as <-.
    specialize (Hmax eq_refl).
    assert (Hn : List.length failures = 3%nat) by lia.
    exists failures. split; [assumption|].
    split; [|exact (f_equal fst Hrun)].
    rewrite Hsleeps, Hn. vm_compute. reflexivity.
Defined.

(** C10. Only an [OperationalError] is retried: when the first connection
    attempt raises any other exception, [make_conn] raises it at once, after
    that single attempt and without sleeping. *)
Theorem make_conn_other_exception_propagates W p max_retries backoff t e :
  db W t (Connect p) = Throws e ->
  is_operational e = false ->
  make_conn W p max_retries backoff t
  = (Raise e, EvDb (Connect p) (Some e) :: t).
Proof.
  intros Hdb Hop. unfold make_conn. cbn [make_conn_loop].
  unfold try_except, perform. now rewrite Hdb, Hop.
Qed.

(** With the defaults and a server that is down: four attempts, and sleeps
    of 1, 2 and 3 seconds between them. *)
Example make_conn_server_down :
  make_conn unreachable_world sample_params 3 1 []
  = (Raise (mkExn OperationalError "connection refused"),
     let failed :=
       EvDb (Connect sample_params)
            (Some (mkExn OperationalError "connection refused")) in
     [failed; EvSleep 3; failed; EvSleep 2; failed; EvSleep 1; failed]).
Proof. vm_compute. reflexivity. Qed.

Lemma refused_connection_propagates :
  make_conn refused_world sample_params 3 1 []
  = (Raise (mkExn OtherError "invalid dsn"),
     [EvDb (Connect sample_params) (Some (mkExn OtherError "invalid dsn"))]).
Proof.
  apply (make_conn_other_exception_propagates
           refused_world sample_params 3 1 []
           (mkExn OtherError "invalid dsn")); reflexivity.
Defined.

Set Implicit Arguments.

(* ------------------------------------------------------------------ *)
(** ** Numbers *)

Lemma unit_draw_bounds r :
  0 <= (r mod 2 ^ 53)%Z # 2 ^ 53 /\ (r mod 2 ^ 53)%Z # 2 ^ 53 <= 1 - pow2 (-53).
Proof.
  assert (H : (0 <= r mod 2 ^ 53 < 2 ^ 53)%Z)
    by (apply Z.mod_pos_bound; reflexivity).
  change (pow2 (-53)) with (1 # 2 ^ 53).
  unfold Qle, Qminus, Qplus, Qopp. cbn [Qnum Qden]. split; lia.
Qed.

Unset Implicit Arguments.

Example floats_round_to_nearest :
  fmul (fl (1 # 10)) 3 == 5404319552844596 # 18014398509481984
  /\ int_true_div 1 3 == 6004799503160661 # 18014398509481984
  /\ float_of_int (2 ^ 53 + 1) == inject_Z (2 ^ 53)
  /\ py_round (fmul (int_true_div 23 160) 100) 2 == fl (1437 # 100)
  /\ py_round (fmul (int_true_div 1 4000) 100) 2 == fl (3 # 100).
Proof. repeat split; vm_compute; reflexivity. Qed.

Example round_ties_to_even :
  py_round (1 # 8) 2 == fl (12 # 100) /\ py_round (3 # 8) 2 == fl (38 # 100)
  /\ py_round (5 # 2) 0 == 2 /\ py_round (-(1 # 8)) 2 == fl (-12 # 100)
  /\ py_round (1 # 32) 4 == fl (312 # 10000).
Proof. repeat split; vm_compute; reflexivity. Qed.

Example median_of_four : median [3; 1; 4; 2] == 5 # 2.
Proof. vm_compute. reflexivity. Qed.

Set Implicit Arguments.

Example contains_is_substring :
  contains "ABORT" "x ABORT: y" = true /\ contains "ABORT" "ABOR T" = false
  /\ counts_aborted (Some "UNKNOWN"%string) = false
  /\ counts_completed (Some "UNKNOWN"%string) = false
  /\ counts_completed None = false.
Proof. repeat split. Qed.


(** [round] is monotone. *)
Lemma py_round_mono x y n : x <= y -> py_round x n <= py_round y n.
Proof.
  intros H. unfold py_round.
  set (scale := Nat.iter n (Pos.mul 10) 1%positive).
  apply fl_mono.
  assert (Hr : (round_half_even (x * (Zpos scale # 1))
                <= round_half_even (y * (Zpos scale # 1)))%Z).
  { apply round_half_even_mono. apply Qmult_le_compat_r; [assumption|].
    discriminate. }
  unfold Qle. cbn [Qnum Qden]. nia.
Qed.

Lemma py_round_of_zero x n : Qnum x = 0%Z -> py_round x n = 0.
Proof.
  intros Hx. unfold py_round. apply fl_zero.
  assert (H : x * (Zpos (Nat.iter n (Pos.mul 10) 1%positive) # 1)
              == inject_Z 0).
  { destruct x as [num den]. cbn [Qnum] in Hx. subst num.
    unfold Qeq. cbn. reflexivity. }
  rewrite (round_half_even_compat H), round_half_even_Z. reflexivity.
Qed.

Lemma py_round_nonneg x n : 0 <= x -> 0 <= py_round x n.
Proof.
  intros Hx. unfold py_round. apply fl_nonneg.
  assert (H : (0 <= round_half_even
                      (x * (Zpos (Nat.iter n (Pos.mul 10) 1%positive) # 1)))%Z).
  { apply round_half_even_nonneg. apply Qmult_le_0_compat; [assumption|].
    discriminate. }
  unfold Qle. cbn [Qnum Qden]. lia.
Qed.

(* ------------------------------------------------------------------ *)
(** ** Dispatcher *)

Lemma sort_by_perm {A} (le : A -> A -> bool) l :
  Permutation (sort_by le l) l.
Proof.
  assert (Hins : forall x l, Permutation (insert_by le x l) (x :: l)).
  { intros x l0. induction l0 as [|y l0 IH]; cbn; [reflexivity|].
    destruct (le x y); [reflexivity|].
    rewrite IH. apply perm_swap. }
  induction l as [|x l IH]; cbn; [reflexivity|].
  rewrite Hins. now constructor.
Qed.

Section DispatcherFacts.
Variable E : setting.
Variable params : db_params.
Variables mode isolation_level : string.
Variable account_pool : list Z.
Variable amount_range : Q * Q.

Lemma random_choice_in seq h :
  seq <> [] ->
  exists x h', random_choice E seq h = (Ok x, h') /\ In x seq.
Proof.
  intros Hne. destruct seq as [|y seq']; [congruence|].
  unfold random_choice, bind, draw, ret. do 2 eexists.
  split; [reflexivity|]. apply nth_In.
  assert (Hlen : (0 < Z.of_nat (List.length (y :: seq')))%Z)
    by (cbn [List.length]; lia).
  pose proof (Z.mod_pos_bound (tape E (rng_pos h)) _ Hlen). lia.
Qed.

Lemma other_accounts_nonempty from_id :
  two_distinct account_pool ->
  filter (fun a => negb (a =? from_id)%Z) account_pool <> [].
Proof.
  intros (a & b & Ha & Hb & Hab) Hnil.
  assert (Hin : forall x, In x account_pool -> x <> from_id -> False).
  { intros x Hx Hne.
    assert (In x (filter (fun a => negb (a =? from_id)%Z) account_pool)).
    { apply filter_In. split; auto. apply negb_true_iff.
      now apply Z.eqb_neq. }
    rewrite Hnil in H. contradiction. }
  destruct (Z.eq_dec a from_id) as [->|Hne]; eauto.
Qed.

(** Lines 114-116 with a pool of two distinct accounts. *)
Lemma gen_request_spec h :
  two_distinct account_pool ->
  exists from_id to_id x h',
    gen_request E account_pool amount_range h
    = (Ok (from_id, to_id, py_round x 2), h')
    /\ In from_id account_pool
    /\ In to_id account_pool
    /\ from_id <> to_id
    /\ (binary64 (fst amount_range) -> binary64 (snd amount_range) ->
        fst amount_range <= snd amount_range ->
        fst amount_range <= x <= snd amount_range).
Proof.
  intros Hpool. unfold gen_request.
  assert (Hne : account_pool <> []).
  { destruct Hpool as (a & _ & Ha & _). intros ->. contradiction. }
  destruct (random_choice_in h Hne) as (from_id & h1 & Hfrom & Hin1).
  destruct (random_choice_in h1 (other_accounts_nonempty from_id Hpool))
    as (to_id & h2 & Hto & Hin2).
  apply filter_In in Hin2. destruct Hin2 as [Hin2 Hneq].
  apply negb_true_iff, Z.eqb_neq in Hneq.
  unfold bind at 1. rewrite Hfrom. unfold bind at 1. rewrite Hto.
  unfold random_uniform, random_random, bind, draw, ret.
  do 4 eexists. split; [reflexivity|].
  repeat (split; [auto; fail|]).
  intros Ha Hb Hab. unfold fadd, fmul, fsub.
  apply uniform_within; auto; apply unit_draw_bounds.
Qed.

(** Lines 113-117: every id gets one future, which holds a result. *)
Lemma submit_requests_spec ids : forall futures h,
  two_distinct account_pool ->
  exists fresh h',
    submit_requests E params mode isolation_level account_pool amount_range
                    ids futures h
    = (Ok (futures ++ fresh), h')
    /\ map fut_id fresh = ids
    /\ Forall (fun f => exists req r,
                   f = submit E params mode isolation_level (fut_id f) req
                   /\ fut_outcome f = Ok r) fresh.
Proof.
  induction ids as [|i ids IH]; intros futures h Hpool.
  - exists [], h. cbn. rewrite app_nil_r. repeat split; constructor.
  - cbn [submit_requests].
    destruct (gen_request_spec h Hpool)
      as (from_id & to_id & x & h1 & Hgen & _).
    unfold bind at 1. rewrite Hgen.
    destruct (IH (futures
                  ++ [submit E params mode isolation_level i
                             (from_id, to_id, py_round x 2)]) h1 Hpool)
      as (fresh & h' & Hrun & Hids & Hall).
    rewrite Hrun.
    exists (submit E params mode isolation_level i
                   (from_id, to_id, py_round x 2) :: fresh), h'.
    rewrite <- app_assoc. split; [reflexivity|]. split.
    + cbn [map]. now rewrite Hids.
    + constructor; auto.
      destruct (worker_task_total (worker_world E i) params mode
                  isolation_level from_id to_id (py_round x 2) 30)
        as (r & t & Hr).
      exists (from_id, to_id, py_round x 2), r.
      split; [reflexivity|]. unfold submit. now rewrite Hr.
Qed.

(** Lines 118-119 when every future holds a result. *)
Lemma collect_spec done : forall results h,
  Forall (fun f => exists r, fut_outcome f = Ok r) done ->
  exists fresh,
    collect done results h = (Ok (results ++ fresh), h)
    /\ map (@Ok TransactionResult) fresh = map fut_outcome done.
Proof.
  induction done as [|f done IH]; intros results h Hall.
  - exists []. cbn. now rewrite app_nil_r.
  - inversion Hall as [|? ? [r Hr] Hall']; subst.
    cbn [collect]. unfold bind at 1, future_result. rewrite Hr.
    unfold ret at 1.
    destruct (IH (results ++ [r]) h Hall') as (fresh & Hrun & Hmap).
    exists (r :: fresh). rewrite Hrun, <- app_assoc. cbn [map app].
    now rewrite Hmap, Hr.
Qed.
End DispatcherFacts.

(** The block of lines 123-132 never raises, whatever the file layer
    does. *)
Lemma write_detail_returns E out_detail results h :
  exists h', write_detail E out_detail results h = (Ok tt, h')
             /\ rng_pos h' = rng_pos h
             /\ clock_pos h' = clock_pos h.
Proof.
  unfold write_detail, try_except, bind, open_append, write_and_close, ret,
    raise, print, file_is_empty, append_lines, is_exception.
  destruct (detail_sink E) as [|e|kept torn e];
    destruct results as [|r results];
    eexists; (split; [reflexivity|auto]).
Qed.

Lemma write_summary_returns E out_summary summary h :
  exists h', write_summary E out_summary summary h = (Ok tt, h').
Proof.
  unfold write_summary, try_except, bind, open_append, write_and_close, ret,
    raise, print, file_is_empty, append_lines, is_exception.
  destruct (summary_sink E) as [|e|kept torn e]; eexists; reflexivity.
Qed.

Lemma summarize_returns E c mode isolation_level the_run_id results
    start_run end_run h :
  exists s h',
    summarize E c mode isolation_level the_run_id results start_run end_run h
    = (Ok s, h')
    /\ total_ops s = List.length results
    /\ completed s = count_if counts_completed (map status results)
    /\ aborted s = count_if counts_aborted (map status results).
Proof.
  unfold summarize, bind, driver_utcnow_iso, ret.
  do 2 eexists. split; [reflexivity|]. cbn. auto.
Qed.

Lemma dispatch_spec E params c total mode isolation_level pool range h :
  (1 <= c)%Z ->
  two_distinct pool ->
  exists futures results start_run end_run h',
    dispatch E params c total mode isolation_level pool range h
    = (Ok (results, start_run, end_run), h')
    /\ map fut_id futures = python_range total
    /\ Forall (fun f => exists req,
                   f = submit E params mode isolation_level (fut_id f) req)
              futures
    /\ Permutation (map (@Ok TransactionResult) results)
                   (map fut_outcome futures).
Proof.
  intros Hc Hpool. unfold dispatch.
  unfold bind at 1, driver_time at 1.
  unfold bind at 1, thread_pool.
  destruct (c <=? 0)%Z eqn:Hle; [lia|]. unfold ret at 1.
  unfold bind at 1.
  match goal with
  | |- context [submit_requests _ _ _ _ _ _ _ _ ?h0] =>
      destruct (submit_requests_spec E params mode isolation_level range
                  (python_range total) [] h0 Hpool)
        as (futures & h1 & Hsub & Hids & Hall)
  end.
  cbn [app] in Hsub. rewrite Hsub.
  assert (Hok : Forall (fun f => exists r, fut_outcome f = Ok r)
                       (as_completed E futures)).
  { eapply Permutation_Forall; [symmetry; apply sort_by_perm|].
    eapply Forall_impl; [|exact Hall]. cbn. intros f (req & r & _ & Hr).
    eauto. }
  destruct (collect_spec [] h1 Hok) as (results & Hcol & Hmap).
  cbn [app] in Hcol. unfold bind at 1. rewrite Hcol.
  unfold bind, driver_time, ret.
  exists futures, results. do 3 eexists. split; [reflexivity|].
  split; [assumption|]. split.
  - eapply Forall_impl; [|exact Hall]. cbn. intros f (req & r & Hf & _).
    eauto.
  - rewrite Hmap. apply Permutation_map, sort_by_perm.
Qed.

(** C5, amended. With [concurrency >= 1], [total_ops >= 0] and a pool of
    two distinct accounts, [run_experiment] submits one task per index of
    [range(total_ops)] and collects a result list that holds the outcome of
    each of these tasks exactly once, in the order of completion: its length
    is [total_ops], and the run returns a summary that reports this length. *)
Theorem dispatch_collects_every_result E params c total mode isolation_level
    pool range out_detail out_summary the_run_id h :
  (1 <= c)%Z ->
  (0 <= total)%Z ->
  two_distinct pool ->
  exists futures results start_run end_run h',
    dispatch E params c total mode isolation_level pool range h
    = (Ok (results, start_run, end_run), h')
    /\ map fut_id futures = python_range total
    /\ Forall (fun f => exists req,
                   f = submit E params mode isolation_level (fut_id f) req)
              futures
    /\ Permutation (map (@Ok TransactionResult) results)
                   (map fut_outcome futures)
    /\ Z.of_nat (List.length results) = total
    /\ exists s h'',
         run_experiment E params c total mode isolation_level pool range
                        out_detail out_summary the_run_id h = (Ok s, h'')
         /\ Z.of_nat (total_ops s) = total.
Proof.
  intros Hc Htotal Hpool.
  destruct (dispatch_spec E params total mode isolation_level range h
              Hc Hpool)
    as (futures & results & start_run & end_run & h' & Hrun & Hids & Hall
        & Hperm).
  assert (Hlen : Z.of_nat (List.length results) = total).
  { apply Permutation_length in Hperm. rewrite !length_map in Hperm.
    rewrite Hperm, <- (length_map fut_id), Hids.
    unfold python_range. rewrite length_seq. lia. }
  exists futures, results, start_run, end_run, h'.
  repeat (split; [assumption|]).
  unfold run_experiment. unfold bind at 1. rewrite Hrun.
  destruct (write_detail_returns E out_detail results h') as (h2 & Hw & _).
  unfold bind at 1. rewrite Hw.
  destruct (summarize_returns E c mode isolation_level the_run_id results
              start_run end_run h2) as (s & h3 & Hs & Hn & _).
  unfold bind at 1. rewrite Hs.
  destruct (write_summary_returns E out_summary s h3) as (h4 & Hws).
  unfold bind at 1. rewrite Hws.
  exists s, h4. split; [reflexivity|]. now rewrite Hn.
Qed.

Lemma sample_dispatch_collects_three :
  exists results start_run end_run h',
    dispatch (sample_setting quiet_world) sample_params 2 3 "simple"
             "READ COMMITTED" sample_pool sample_range fresh_machine
    = (Ok (results, start_run, end_run), h')
    /\ Z.of_nat (List.length results) = 3%Z.
Proof.
  destruct (@dispatch_collects_every_result
              (sample_setting quiet_world) sample_params 2 3 "simple"
              "READ COMMITTED" sample_pool sample_range
              "detalle.csv" "resumen.csv" 1 fresh_machine)
    as (futures & results & start_run & end_run & h' & Hrun & _ & _ & _
        & Hlen & _).
  - lia.
  - lia.
  - exists 1%Z, 2%Z. cbn. repeat split; auto. discriminate.
  - exists results, start_run, end_run, h'. split; assumption.
Defined.

(** C5, counterexample. [concurrency = 5], [total_ops = 1] and a pool of one
    account: the choice of the receiving account raises [IndexError], the
    run returns no result list. *)
Lemma single_account_run_raises :
  fst single_account_run
  = Raise (mkExn IndexError "Cannot choose from an empty sequence").
Proof. vm_compute. reflexivity. Qed.

Unset Implicit Arguments.




Set Implicit Arguments.

(* ------------------------------------------------------------------ *)
(** ** Aggregator *)

(** C2, counterexample. A run of one request in mode 2pl whose transfer
    function reports no row: the status is ['UNKNOWN'], which passes neither
    test, so both counters are 0 while one request was made. *)
Lemma unknown_status_is_not_counted :
  exists s h',
    no_row_run = (Ok s, h')
    /\ total_ops s = 1%nat
    /\ (completed s + aborted s)%nat = 0%nat
    /\ (completed s + aborted s)%nat <> total_ops s.
Proof.
  do 2 eexists. split; [vm_compute; reflexivity|].
  cbn. repeat split; auto.
Qed.

(** A status can also pass both tests: the text of a constraint violation
    on the transfer log quotes COMPLETADA behind the ABORT prefix. *)
Lemma quoted_row_is_counted_twice :
  exists s h',
    insert_rejected_run = (Ok s, h')
    /\ total_ops s = 1%nat
    /\ completed s = 1%nat
    /\ aborted s = 1%nat.
Proof.
  do 2 eexists. split; [vm_compute; reflexivity|].
  cbn. repeat split; auto.
Qed.

(** C9, amended. Two summaries of the same result list with the same run
    parameters agree on every field but [timestamp], which holds the clock
    reading taken by each summary. *)
Theorem summarize_twice_same_measurements E c mode isolation_level the_run_id
    results start_run end_run h :
  exists s1 h1 s2 h2,
    summarize E c mode isolation_level the_run_id results start_run end_run h
    = (Ok s1, h1)
    /\ summarize E c mode isolation_level the_run_id results start_run
                 end_run h1
       = (Ok s2, h2)
    /\ run_id s1 = run_id s2
    /\ s_mode s1 = s_mode s2
    /\ s_isolation s1 = s_isolation s2
    /\ concurrency s1 = concurrency s2
    /\ total_ops s1 = total_ops s2
    /\ completed s1 = completed s2
    /\ aborted s1 = aborted s2
    /\ abort_rate_pct s1 = abort_rate_pct s2
    /\ avg_latency_s s1 = avg_latency_s s2
    /\ p50_latency_s s1 = p50_latency_s s2
    /\ throughput_ops_per_s s1 = throughput_ops_per_s s2
    /\ timestamp s1 = String.append (wall_iso E (clock_pos h)) "Z"
    /\ timestamp s2 = String.append (wall_iso E (S (clock_pos h))) "Z".
Proof.
  unfold summarize, bind, driver_utcnow_iso, ret.
  do 4 eexists. split; [reflexivity|]. split; [reflexivity|].
  cbn. repeat split.
Qed.

(** C9, counterexample. The clock moved between the two summaries: their
    timestamps differ, so the two records are not equal. *)
Lemma second_summary_differs :
  exists s1 h1 s2 h2,
    first_summary = (Ok s1, h1)
    /\ second_summary = (Ok s2, h2)
    /\ timestamp s1 = "0Z"%string
    /\ timestamp s2 = "1Z"%string
    /\ s1 <> s2.
Proof.
  do 4 eexists. split; [vm_compute; reflexivity|].
  split; [vm_compute; reflexivity|].
  split; [reflexivity|]. split; [reflexivity|].
  intros Heq. apply (f_equal timestamp) in Heq. discriminate Heq.
Qed.

Lemma throughput_of_none dt : py_round (fdiv (float_of_int 0) dt) 4 = 0.
Proof.
  unfold fdiv, float_of_int.
  rewrite (@fl_zero (inject_Z 0)) by reflexivity.
  rewrite (@fl_zero (0 / dt)) by (unfold Qdiv; ring).
  reflexivity.
Qed.

(** C8, the code at the failing input. A run of no request returns a summary
    whose counters, rate, latencies and throughput are all zero, and writes
    it (behind a header when the file is empty) to the summary file, as far
    as the file layer lets it. No other line is written to any file: no
    header reaches the detail file, because [results[0]] raises [IndexError]
    before any header is written, and the failure is printed. *)
Theorem run_experiment_empty_run E params c mode isolation_level pool range
    out_detail out_summary the_run_id h :
  (1 <= c)%Z ->
  exists s h',
    run_experiment E params c 0 mode isolation_level pool range out_detail
                   out_summary the_run_id h
    = (Ok s, h')
    /\ total_ops s = 0%nat
    /\ completed s = 0%nat
    /\ aborted s = 0%nat
    /\ abort_rate_pct s == 0
    /\ avg_latency_s s == 0
    /\ p50_latency_s s == 0
    /\ throughput_ops_per_s s == 0
    /\ (forall path,
          files h' path
          = grown (files h) out_summary
                  (stored (summary_sink E)
                     (match files h out_summary with
                      | [] => [Header summary_keys]
                      | _ => []
                      end ++ [SummaryRow s]))
                  path)
    /\ ((forall e, detail_sink E <> Refuses e) ->
        In "No se pudo escribir detalle: list index out of range"%string
           (console h')).
Proof.
  intros Hc. destruct h as [rp cp fs co].
  unfold run_experiment, dispatch, thread_pool.
  destruct (c <=? 0)%Z eqn:Hle; [lia|].
  unfold write_detail, summarize, write_summary.
  cbv beta iota zeta
      delta [bind ret raise try_except is_exception driver_time
             driver_utcnow_iso submit_requests python_range Z.to_nat seq
             collect as_completed sort_by fold_right open_append
             write_and_close print file_is_empty append_lines grown
             rng_pos clock_pos files console
             map List.length count_if].
  destruct (detail_sink E) as [|e1|k1 t1 e1];
    destruct (summary_sink E) as [|e2|k2 t2 e2];
    destruct (fs out_summary) as [|first rest] eqn:Hfile;
    (do 2 eexists; split; [reflexivity|];
     cbn [total_ops completed aborted abort_rate_pct avg_latency_s
          p50_latency_s throughput_ops_per_s files console stored];
     repeat (split; [reflexivity|]);
     split;
     [ destruct (negb (Qle_bool (fsub (fl (wall E (S cp))) (fl (wall E cp)))
                                0));
       [rewrite throughput_of_none|]; reflexivity
     | split;
       [ intros path; unfold grown; destruct (str_eqb path out_summary);
         rewrite ?app_nil_r; reflexivity
       | intros Hopen;
         first [ exfalso; eapply Hopen; reflexivity
               | rewrite !in_app_iff; cbn; tauto ] ] ]).
Qed.

Lemma sample_empty_run :
  exists s h',
    run_experiment (sample_setting quiet_world) sample_params 5 0 "2pl"
                   "READ COMMITTED" sample_pool sample_range
                   "detalle.csv" "resumen.csv" 1 fresh_machine
    = (Ok s, h')
    /\ total_ops s = 0%nat
    /\ files h' "detalle.csv" = []
    /\ files h' "resumen.csv" = [Header summary_keys; SummaryRow s]
    /\ console h'
       = ["No se pudo escribir detalle: list index out of range"%string].
Proof.
  destruct (@run_experiment_empty_run (sample_setting quiet_world)
              sample_params 5 "2pl" "READ COMMITTED" sample_pool sample_range
              "detalle.csv" "resumen.csv" 1 fresh_machine)
    as (s & h' & Hrun & Hn & _ & _ & _ & _ & _ & _ & Hfiles & _).
  - lia.
  - exists s, h'. repeat (split; [assumption|]).
    split; [rewrite Hfiles; reflexivity|].
    split; [rewrite Hfiles; reflexivity|].
    assert (Hh : h' = snd (run_experiment (sample_setting quiet_world)
                             sample_params 5 0 "2pl" "READ COMMITTED"
                             sample_pool sample_range
                             "detalle.csv" "resumen.csv" 1 fresh_machine))
      by now rewrite Hrun.
    rewrite Hh. vm_compute. reflexivity.
Defined.

(* ------------------------------------------------------------------ *)
(** ** Transaction executor: further properties *)

Lemma executed_while_connecting p backoff failures t :
  executed (rev (retry_rounds p backoff 0 failures) ++ t) = executed t.
Proof.
  generalize 0%Z.
  induction failures as [|e l IH]; intros z; [reflexivity|].
  cbn [retry_rounds rev]. rewrite <- !app_assoc. cbn [app].
  rewrite <- (IH (z + 1)%Z).
  generalize (rev (retry_rounds p backoff (z + 1) l)). intros l0.
  induction l0 as [|x l0 IHl]; [reflexivity|].
  cbn [app executed]. destruct x as [[] ?| | |]; now rewrite ?IHl.
Qed.

(** X1. The statements sent by one invocation are always an initial part of
    the sequence of the source for the mode: the statement timeout, then
    [BEGIN] at the requested level, then the transfer function of the mode
    or, for any mode other than 2pl, ts and opt, the debit, the credit and
    the insert into the transfer log. *)
Theorem worker_task_statements_in_order W params mode isolation_level from_id
    to_id amt tx_timeout :
  exists rest,
    planned_statements mode isolation_level from_id to_id amt tx_timeout
    = executed (snd (worker_task W params mode isolation_level from_id to_id
                                 amt tx_timeout []))
      ++ rest.
Proof.
  unfold planned_statements.
  enter_worker W params.
  - cbn [snd executed]. rewrite executed_while_connecting. cbn [executed app].
    eexists. reflexivity.
  - destruct (str_eqb mode "2pl"); [|destruct (str_eqb mode "ts");
      [|destruct (str_eqb mode "opt")]];
      repeat (db_step W; run_step);
      cbn [snd executed]; rewrite executed_while_connecting;
      cbn [executed app]; eexists; reflexivity.
Qed.

(** In a leaf of the case analysis: [H] puts in the log an event that is not
    there. *)
Ltac not_in_log Hall H :=
  exfalso; cbn [In] in H;
  repeat (destruct H as [H|H]; [discriminate H|]);
  apply in_app_or in H; destruct H as [H|H];
  [ apply in_rev in H;
    let d := fresh "d" in
    let x := fresh "x" in
    let Hx := fresh "Hx" in
    destruct (retry_rounds_events _ _ _ _ Hall H) as [[d Hx]|[x [Hx _]]];
    discriminate Hx
  | cbn [In] in H; repeat (destruct H as [H|H]; try discriminate H);
    contradiction ].

(** X2. A result without error text means that every statement of the mode
    was sent, the transaction was committed, no rollback was called and the
    session was closed exactly once; in the manual mode its status is
    ['COMPLETADA'], which the aggregator counts as completed and not as
    aborted. *)
Theorem worker_task_clean_result W params mode isolation_level from_id to_id
    amt tx_timeout r t :
  worker_task W params mode isolation_level from_id to_id amt tx_timeout []
  = (Ok r, t) ->
  error r = None ->
  executed t
  = planned_statements mode isolation_level from_id to_id amt tx_timeout
  /\ (exists c, In (EvDb (Commit c) None) t)
  /\ count_if is_rollback t = 0%nat
  /\ count_if is_conn_close t = 1%nat
  /\ (str_eqb mode "2pl" || str_eqb mode "ts" || str_eqb mode "opt" = false ->
      status r = Some "COMPLETADA"%string
      /\ counts_completed (status r) = true
      /\ counts_aborted (status r) = false).
Proof.
  unfold planned_statements.
  enter_worker W params.
  - intros Hrun Herr. injection Hrun as <- <-. discriminate Herr.
  - destruct (str_eqb mode "2pl"); [|destruct (str_eqb mode "ts");
      [|destruct (str_eqb mode "opt")]];
      repeat (db_step W; run_step);
      (intros Hrun Herr; injection Hrun as <- <-;
       first
         [ discriminate Herr
         | cbn [executed count_if fold_right is_rollback is_conn_close];
           rewrite executed_while_connecting;
           rewrite !count_if_while_connecting by reflexivity;
           cbn [executed app count_if fold_right status];
           split; [reflexivity|];
           split; [eexists; cbn [In];
                   repeat first [left; reflexivity | right]|];
           split; [reflexivity|]; split; [reflexivity|];
           intros Hmode; first [discriminate Hmode | repeat split] ]).
Qed.

(** X3. A result with an error text is always counted as aborted by the
    aggregator, whatever the text of the exception. *)
Theorem worker_task_failure_is_counted W params mode isolation_level from_id
    to_id amt tx_timeout r t :
  worker_task W params mode isolation_level from_id to_id amt tx_timeout []
  = (Ok r, t) ->
  error r <> None ->
  counts_aborted (status r) = true.
Proof.
  enter_worker W params.
  - intros Hrun Herr. injection Hrun as <- <-. apply conn_err_counts_aborted.
  - destruct (str_eqb mode "2pl"); [|destruct (str_eqb mode "ts");
      [|destruct (str_eqb mode "opt")]];
      repeat (db_step W; run_step);
      (intros Hrun Herr; injection Hrun as <- <-; cbn [status error] in *;
       first [ apply conn_err_counts_aborted
             | apply abort_counts_aborted
             | exfalso; apply Herr; reflexivity ]).
Qed.

(** X4. Once the commit has succeeded no rollback is called. If closing the
    cursor or the session then raises, the result nevertheless carries the
    status ['CONN_ERR: ...'] of that exception and is counted as aborted,
    although the transfer is committed. *)
Theorem worker_task_after_commit W params mode isolation_level from_id to_id
    amt tx_timeout r t s :
  worker_task W params mode isolation_level from_id to_id amt tx_timeout []
  = (Ok r, t) ->
  In (EvDb (Commit s) None) t ->
  count_if is_rollback t = 0%nat
  /\ forall c e,
       raised_in t c e ->
       c <> Connect params ->
       (c = CurClose s \/ c = ConnClose s)
       /\ status r = Some (String.append "CONN_ERR: "
                                         (replace_newline (exn_msg e)))
       /\ counts_aborted (status r) = true.
Proof.
  enter_worker W params.
  - intros Hrun Hcommit. injection Hrun as <- <-. not_in_log Hall Hcommit.
  - destruct (str_eqb mode "2pl"); [|destruct (str_eqb mode "ts");
      [|destruct (str_eqb mode "opt")]];
      repeat (db_step W; run_step);
      (intros Hrun Hcommit; injection Hrun as <- <-;
       first
         [ solve [not_in_log Hall Hcommit]
         | assert (Hs : s = c)
             by (cbn [In] in Hcommit;
                 repeat (destruct Hcommit as [Hcommit|Hcommit];
                         [first [discriminate Hcommit
                                |injection Hcommit as ->; reflexivity]|]);
                 not_in_log Hall Hcommit);
           subst s; split;
           [ cbn [count_if fold_right is_rollback];
             now rewrite count_if_while_connecting by reflexivity
           | let c' := fresh "c'" in
             let e := fresh "e" in
             let Hin := fresh "Hin" in
             let Hne := fresh "Hne" in
             intros c' e Hin Hne; which_raised Hall Hin;
             first [ congruence
                   | cbn [status]; split; [auto|]; split; [reflexivity|];
                     apply conn_err_counts_aborted ] ] ]).
Qed.

(* ------------------------------------------------------------------ *)
(** ** Connector: further properties *)

Lemma Qsum_app l1 l2 : Qsum (l1 ++ l2) == Qsum l1 + Qsum l2.
Proof.
  induction l1 as [|x l1 IH].
  - cbn [app]. change (Qsum []) with 0. ring.
  - cbn [app]. change (Qsum (x :: l1 ++ l2)) with (x + Qsum (l1 ++ l2)).
    change (Qsum (x :: l1)) with (x + Qsum l1). rewrite IH. ring.
Qed.

Lemma sleeps_app t1 t2 : sleeps (t1 ++ t2) = sleeps t1 ++ sleeps t2.
Proof.
  induction t1 as [|ev t1 IH]; [reflexivity|].
  destruct ev; cbn; now rewrite ?IH.
Qed.

Lemma sleeps_rev t : sleeps (rev t) = rev (sleeps t).
Proof.
  induction t as [|ev t IH]; [reflexivity|].
  cbn [rev]. rewrite sleeps_app, IH. destruct ev; cbn [sleeps rev app];
    now rewrite ?app_nil_r.
Qed.

Lemma connects_in_rounds p backoff failures : forall attempt,
  count_if is_connect (retry_rounds p backoff attempt failures)
  = List.length failures.
Proof.
  induction failures as [|e l IH]; intros attempt; [reflexivity|].
  cbn. f_equal. apply IH.
Qed.

Unset Implicit Arguments.

Lemma make_conn_loop_replay W p max_retries backoff failures :
  0 <= backoff ->
  forall fuel attempt t,
    (0 <= attempt)%Z ->
    sleep_ns (delay backoff (attempt + Z.of_nat (List.length failures)))
    < inject_Z (2 ^ 63) ->
    (Z.to_nat (max_retries - attempt) < fuel)%nat ->
    Forall (fun e => is_operational e = true) failures ->
    (attempt + Z.of_nat (List.length failures) <= max_retries)%Z ->
    refused W p backoff attempt t failures ->
    make_conn_loop W p max_retries backoff fuel attempt t
    = make_conn_loop W p max_retries backoff
        (fuel - List.length failures)
        (attempt + Z.of_nat (List.length failures))
        (rev (retry_rounds p backoff attempt failures) ++ t).
Proof.
  intros Hb.
  induction failures as [|e failures IH]; intros fuel attempt t Hpos Hs Hfuel
    Hall Hlen Href.
  - cbn. now rewrite Nat.sub_0_r, Z.add_0_r.
  - inversion Hall as [|? ? Hop Hall']; subst.
    destruct Href as [Hdb Href].
    assert (Hcons : Z.of_nat (List.length (e :: failures))
                    = (Z.of_nat (List.length failures) + 1)%Z)
      by (cbn [List.length]; lia).
    rewrite Hcons in *.
    destruct fuel as [|fuel]; [lia|].
    cbn [make_conn_loop]. unfold try_except at 1, perform at 1.
    rewrite Hdb, Hop.
    destruct (attempt + 1 >? max_retries)%Z eqn:Hgt; [lia|].
    unfold bind at 1. fold (delay backoff (attempt + 1)).
    rewrite sleep_accepts
      by (apply (delay_sleepable backoff
                   (attempt + (Z.of_nat (List.length failures) + 1)));
          auto; lia).
    rewrite IH; auto; try lia.
    + rewrite retry_rounds_snoc. cbn [List.length Nat.sub].
      f_equal. lia.
    + now replace (attempt + 1 + Z.of_nat (List.length failures))%Z
        with (attempt + (Z.of_nat (List.length failures) + 1))%Z by lia.
Qed.

(** X5. Transient failures are recovered: with a backoff that is not
    negative and delays that [time.sleep] accepts, when the first
    [k <= max_retries] connection attempts each fail with an
    [OperationalError] and the next one succeeds, [make_conn] returns that
    session, after sleeping [backoff * 1], ..., [backoff * k]. When the
    attempt after [max_retries] failures fails as well, its exception is
    raised. *)
Theorem make_conn_recovers W p max_retries backoff t failures :
  0 <= backoff ->
  sleep_ns (delay backoff (Z.of_nat (List.length failures)))
  < inject_Z (2 ^ 63) ->
  Forall (fun e => is_operational e = true) failures ->
  (Z.of_nat (List.length failures) <= max_retries)%Z ->
  refused W p backoff 0 t failures ->
  (forall c,
      db W (rev (retry_rounds p backoff 0 failures) ++ t) (Connect p)
      = Returns c ->
      make_conn W p max_retries backoff t
      = (Ok c,
         EvDb (Connect p) None
         :: rev (retry_rounds p backoff 0 failures) ++ t))
  /\ (forall e,
         db W (rev (retry_rounds p backoff 0 failures) ++ t) (Connect p)
         = Throws e ->
         Z.of_nat (List.length failures) = max_retries ->
         make_conn W p max_retries backoff t
         = (Raise e,
            EvDb (Connect p) (Some e)
            :: rev (retry_rounds p backoff 0 failures) ++ t)).
Proof.
  intros Hb Hs Hall Hlen Href.
  assert (Hrun := make_conn_loop_replay W p max_retries backoff failures Hb
                    (S (Z.to_nat max_retries)) 0%Z t ltac:(lia) Hs
                    ltac:(lia) Hall ltac:(lia) Href).
  unfold make_conn. rewrite Hrun. clear Hrun.
  destruct (S (Z.to_nat max_retries) - List.length failures)%nat
    as [|fuel] eqn:Hfuel; [lia|].
  cbn [make_conn_loop]. unfold try_except, perform. split.
  - intros c Hdb. now rewrite Hdb.
  - intros e Hdb Hmax. rewrite Hdb.
    destruct (is_operational e); [|reflexivity].
    destruct (0 + Z.of_nat (List.length failures) + 1 >? max_retries)%Z
      eqn:Hgt; [reflexivity|lia].
Qed.

(** X6. With [max_retries <= 0] there is no retry at all: [make_conn] makes
    exactly one connection attempt, never sleeps, and its outcome is the
    outcome of that attempt. *)
Theorem make_conn_without_retries W p max_retries backoff t :
  (max_retries <= 0)%Z ->
  make_conn W p max_retries backoff t
  = match db W t (Connect p) with
    | Returns c => (Ok c, EvDb (Connect p) None :: t)
    | Throws e => (Raise e, EvDb (Connect p) (Some e) :: t)
    end.
Proof.
  intros Hmax. unfold make_conn.
  assert (Hfuel : Z.to_nat max_retries = 0%nat) by lia. rewrite Hfuel.
  cbn [make_conn_loop]. unfold try_except, perform.
  destruct (db W t (Connect p)) as [c|e]; [reflexivity|].
  destruct (is_operational e); [|reflexivity].
  destruct (0 + 1 >? max_retries)%Z eqn:Hgt; [reflexivity|lia].
Qed.

(** X7. The sleeps of [make_conn] follow its attempts: with a backoff that
    is not negative and delays that [time.sleep] accepts, an invocation that
    made [n + 1] connection attempts slept [n] times, [n] being at most
    [max_retries], for [backoff * 1], ..., [backoff * n] seconds in this
    order; these delays never decrease and none exceeds
    [backoff * max_retries]. *)
Theorem make_conn_sleep_schedule W p max_retries backoff :
  0 <= backoff ->
  sleep_ns (delay backoff max_retries) < inject_Z (2 ^ 63) ->
  exists n,
    count_if is_connect (snd (make_conn W p max_retries backoff []))
    = S n
    /\ (Z.of_nat n <= Z.max 0 max_retries)%Z
    /\ rev (sleeps (snd (make_conn W p max_retries backoff [])))
       = map (fun k => fmul backoff (float_of_int (Z.of_nat k))) (seq 1 n)
    /\ (forall j k : nat,
          (j <= k <= n)%nat ->
          0 <= fmul backoff (float_of_int (Z.of_nat j))
          /\ fmul backoff (float_of_int (Z.of_nat j))
             <= fmul backoff (float_of_int (Z.of_nat k))
          /\ fmul backoff (float_of_int (Z.of_nat k))
             <= fmul backoff (float_of_int (Z.max 0 max_retries))).
Proof.
  intros Hb Hs.
  destruct (make_conn_log W p max_retries backoff [] Hb Hs)
    as (failures & last & Hlog & _ & Hlen & _).
  exists (List.length failures). rewrite Hlog, app_nil_r.
  split; [|split; [assumption|split]].
  - cbn [count_if fold_right is_connect].
    change (S (count_if is_connect (rev (retry_rounds p backoff 0 failures)))
            = S (List.length failures)).
    now rewrite count_if_rev, connects_in_rounds.
  - cbn [sleeps]. rewrite sleeps_rev, rev_involutive, sleeps_retry_rounds.
    apply map_ext. intros k. reflexivity.
  - intros j k Hjk.
    split; [apply (delay_nonneg Hb); lia|].
    split; apply (delay_mono Hb); lia.
Qed.

(** X21. A negative backoff stops the retries: when the first connection
    attempt fails with an [OperationalError] and a retry is allowed,
    [time.sleep] raises [ValueError] and [make_conn] raises it after that
    single attempt, in place of the connection failure. *)
Theorem make_conn_negative_backoff W p max_retries backoff t e :
  binary64 backoff ->
  backoff < 0 ->
  - inject_Z (2 ^ 63) <= sleep_ns backoff ->
  (1 <= max_retries)%Z ->
  db W t (Connect p) = Throws e ->
  is_operational e = true ->
  make_conn W p max_retries backoff t
  = (Raise (mkExn ValueError "sleep length must be non-negative"),
     EvDb (Connect p) (Some e) :: t).
Proof.
  intros Hdouble Hneg Hns Hmax Hdb Hop. unfold make_conn.
  cbn [make_conn_loop]. unfold try_except, perform. rewrite Hdb, Hop.
  destruct (0 + 1 >? max_retries)%Z eqn:Hgt; [lia|].
  unfold bind. fold (delay backoff (0 + 1)).
  assert (Hd : delay backoff (0 + 1) = fl backoff).
  { unfold delay, fmul. apply fl_compat.
    change (float_of_int (0 + 1)) with 1. ring. }
  rewrite Hd.
  pose proof (fl_repr Hdouble) as Hfl.
  assert (Hsame : sleep_ns (fl backoff) = sleep_ns backoff).
  { unfold sleep_ns, fmul. apply fl_compat. now rewrite Hfl. }
  rewrite sleep_refuses; [reflexivity|lra|now rewrite Hsame].
Qed.

Set Implicit Arguments.

(** X8. When no session could be acquired the invocation has made no call
    but connection attempts (no cursor, no statement, no rollback, no
    close), and its status is ['CONN_ERR: '] followed by the text of the
    exception of the last attempt. *)
Theorem worker_task_without_session W params mode isolation_level from_id
    to_id amt tx_timeout r t :
  worker_task W params mode isolation_level from_id to_id amt tx_timeout []
  = (Ok r, t) ->
  ~ In (EvDb (Connect params) None) t ->
  (forall c o, In (EvDb c o) t -> c = Connect params)
  /\ exists e rest,
       t = EvUtcnow :: EvTime :: EvDb (Connect params) (Some e) :: rest
       /\ status r = Some (String.append "CONN_ERR: "
                                         (replace_newline (exn_msg e)))
       /\ error r = Some (replace_newline (exn_msg e)).
Proof.
  enter_worker W params.
  - intros Hrun _. injection Hrun as <- <-. split.
    + intros c o Hin. cbn [In] in Hin.
      repeat (destruct Hin as [Hin|Hin];
              [first [discriminate Hin | now injection Hin as <- _]|]).
      apply in_app_or in Hin. destruct Hin as [Hin|Hin].
      * apply in_rev in Hin.
        destruct (retry_rounds_events _ _ _ _ Hall Hin)
          as [[d Hd]|[x [Hx _]]]; [discriminate Hd|].
        now injection Hx as -> _.
      * cbn [In] in Hin.
        repeat (destruct Hin as [Hin|Hin]; try discriminate Hin).
        contradiction.
    + do 2 eexists. repeat split.
  - destruct (str_eqb mode "2pl"); [|destruct (str_eqb mode "ts");
      [|destruct (str_eqb mode "opt")]];
      repeat (db_step W; run_step);
      (intros Hrun Hno; injection Hrun as <- <-; exfalso; apply Hno;
       cbn [In]; repeat first [left; reflexivity | right]).
Qed.


Lemma make_conn_first_try W p max_retries backoff t c :
  db W t (Connect p) = Returns c ->
  make_conn W p max_retries backoff t = (Ok c, EvDb (Connect p) None :: t).
Proof.
  intros Hdb. unfold make_conn. cbn [make_conn_loop].
  unfold try_except, perform. now rewrite Hdb.
Qed.

Ltac quiet_step W Hnever :=
  match goal with
  | |- context [db W ?t ?c] =>
      let a := fresh "a" in
      let Ha := fresh "Ha" in
      destruct (Hnever t c) as [a Ha]; rewrite Ha
  end.

(** In a world that never refuses a call the result has no error text, and
    in the manual mode its status is ['COMPLETADA']. *)
Lemma worker_task_quiet W params mode isolation_level from_id to_id amt
    tx_timeout :
  never_throws W ->
  exists r t,
    worker_task W params mode isolation_level from_id to_id amt tx_timeout []
    = (Ok r, t)
    /\ error r = None
    /\ (str_eqb mode "2pl" || str_eqb mode "ts" || str_eqb mode "opt" = false
        -> status r = Some "COMPLETADA"%string).
Proof.
  intros Hnever.
  unfold worker_task, attempt_transfer, transaction, run_mode. run_step.
  destruct (Hnever [EvTime; EvUtcnow] (Connect params)) as [c Hc].
  rewrite (@make_conn_first_try W params 3 1 _ _ Hc). run_step.
  destruct (str_eqb mode "2pl"); [|destruct (str_eqb mode "ts");
    [|destruct (str_eqb mode "opt")]];
    repeat (quiet_step W Hnever; run_step);
    (do 2 eexists; split; [reflexivity|]; split; [reflexivity|];
     intros Hmode; first [discriminate Hmode | reflexivity]).
Qed.

Lemma make_conn_loop_never_connects W p max_retries backoff :
  never_connects W p ->
  forall fuel attempt t c,
    fst (make_conn_loop W p max_retries backoff fuel attempt t) <> Ok c.
Proof.
  intros Hnever fuel.
  induction fuel as [|fuel IH]; intros attempt t c; [discriminate|].
  cbn [make_conn_loop]. unfold try_except, perform.
  destruct (Hnever t) as [e He]. rewrite He.
  destruct (is_operational e); [|discriminate].
  destruct (attempt + 1 >? max_retries)%Z; [discriminate|].
  unfold bind.
  destruct (sleep (fmul backoff (float_of_int (attempt + 1)))
                  (EvDb (Connect p) (Some e) :: t)) as [[u|x|] t'];
    [apply IH|discriminate..].
Qed.

(** With a server that cannot be reached the status is a ['CONN_ERR: ']
    text. *)
Lemma worker_task_unreachable W params mode isolation_level from_id to_id amt
    tx_timeout :
  never_connects W params ->
  exists r t e,
    worker_task W params mode isolation_level from_id to_id amt tx_timeout []
    = (Ok r, t)
    /\ status r = Some (String.append "CONN_ERR: "
                                      (replace_newline (exn_msg e)))
    /\ error r = Some (replace_newline (exn_msg e)).
Proof.
  intros Hnever.
  assert (Hno := @make_conn_loop_never_connects W params 3 1 Hnever
                   (S (Z.to_nat 3)) 0%Z [EvTime; EvUtcnow]).
  fold (make_conn W params 3 1 [EvTime; EvUtcnow]) in Hno. revert Hno.
  enter_worker W params.
  - intros _. do 3 eexists. repeat split.
  - intros Hno. exfalso. apply (Hno c). reflexivity.
Qed.

(* ------------------------------------------------------------------ *)
(** ** Dispatcher and aggregator: further properties *)

Lemma same_output_refl h : same_output h h.
Proof. split; reflexivity. Qed.

Lemma same_output_trans h1 h2 h3 :
  same_output h1 h2 -> same_output h2 h3 -> same_output h1 h3.
Proof.
  intros [A1 A2] [B1 B2]. split; [|congruence].
  intros path. now rewrite B1, A1.
Qed.

Lemma only_drew_refl h : only_drew h h.
Proof. split; [apply same_output_refl|reflexivity]. Qed.

Lemma only_drew_trans h1 h2 h3 :
  only_drew h1 h2 -> only_drew h2 h3 -> only_drew h1 h3.
Proof.
  intros [A1 A2] [B1 B2].
  split; [eapply same_output_trans; eauto|congruence].
Qed.

Lemma random_choice_only_drew E seq h :
  only_drew h (snd (random_choice E seq h)).
Proof.
  destruct seq; cbn; repeat split.
Qed.

(** Lines 114-116 either build a request, and then the pool has two distinct
    accounts, or raise [IndexError], and then it has not. *)
Lemma gen_request_cases E pool range h :
  (exists from_id to_id x h',
      gen_request E pool range h = (Ok (from_id, to_id, py_round x 2), h')
      /\ In from_id pool /\ In to_id pool /\ from_id <> to_id
      /\ two_distinct pool
      /\ only_drew h h')
  \/ (exists h',
         gen_request E pool range h
         = (Raise (mkExn IndexError "Cannot choose from an empty sequence"),
            h')
         /\ ~ two_distinct pool
         /\ only_drew h h').
Proof.
  unfold gen_request.
  assert (Hcases : pool = [] \/ pool <> [])
    by (destruct pool; [left; reflexivity|right; discriminate]).
  destruct Hcases as [->|Hne].
  - right. eexists. split; [reflexivity|]. split; [|apply only_drew_refl].
    intros (x & _ & [] & _).
  - rename pool into accounts.
    destruct (random_choice_in E h Hne) as (from_id & h1 & Hfrom & Hin1).
    assert (Hh1 := random_choice_only_drew E accounts h).
    rewrite Hfrom in Hh1. cbn [snd] in Hh1.
    destruct (filter (fun a0 => negb (a0 =? from_id)%Z) accounts)
      as [|b others] eqn:Hothers.
    + right. unfold bind at 1. rewrite Hfrom. rewrite Hothers.
      cbn [random_choice]. unfold bind, raise. eexists.
      split; [reflexivity|]. split; [|exact Hh1].
      intros Htwo.
      apply (other_accounts_nonempty from_id Htwo Hothers).
    + left.
      assert (Hne2 : filter (fun a0 => negb (a0 =? from_id)%Z) accounts
                     <> []) by (rewrite Hothers; discriminate).
      destruct (random_choice_in E h1 Hne2) as (to_id & h2 & Hto & Hin2).
      assert (Hh2 := random_choice_only_drew E
                       (filter (fun a0 => negb (a0 =? from_id)%Z) accounts)
                       h1).
      rewrite Hto in Hh2. cbn [snd] in Hh2.
      apply filter_In in Hin2. destruct Hin2 as [Hin2 Hneq].
      apply negb_true_iff, Z.eqb_neq in Hneq.
      unfold bind at 1. rewrite Hfrom. unfold bind at 1. rewrite Hto.
      unfold random_uniform, random_random, bind, draw, ret.
      do 4 eexists. split; [reflexivity|].
      split; [assumption|]. split; [assumption|].
      split; [congruence|].
      split; [exists from_id, to_id; auto|].
      eapply only_drew_trans; [exact Hh1|].
      eapply only_drew_trans; [exact Hh2|]. repeat split.
Qed.

Section RunFacts.
Variable E : setting.
Variable params : db_params.
Variable c : Z.
Variable total : Z.
Variables mode isolation_level : string.
Variable pool : list Z.
Variable range : Q * Q.

(** Lines 113-117, every outcome. *)
Lemma submit_requests_cases ids : forall futures h,
  match submit_requests E params mode isolation_level pool range ids futures h
  with
  | (Ok all, h') =>
      exists fresh,
        all = futures ++ fresh
        /\ map fut_id fresh = ids
        /\ Forall (task_future E params mode isolation_level pool) fresh
        /\ only_drew h h'
        /\ (ids <> [] -> two_distinct pool)
  | (Raise e, h') =>
      e = mkExn IndexError "Cannot choose from an empty sequence"
      /\ ~ two_distinct pool /\ ids <> []
      /\ only_drew h h'
  | (OutOfFuel, _) => False
  end.
Proof.
  induction ids as [|i ids IH]; intros futures h.
  - cbn. exists []. rewrite app_nil_r.
    split; [reflexivity|]. split; [reflexivity|]. split; [constructor|].
    split; [apply only_drew_refl|congruence].
  - cbn [submit_requests]. unfold bind at 1.
    destruct (gen_request_cases E pool range h)
      as [(from_id & to_id & x & h1 & Hgen & Hfrom & Hto & Hne & Htwo & Hout)
         |(h1 & Hgen & Htwo & Hout)]; rewrite Hgen.
    + specialize (IH (futures
                      ++ [submit E params mode isolation_level i
                                 (from_id, to_id, py_round x 2)]) h1).
      destruct (submit_requests E params mode isolation_level pool range ids
                  (futures
                   ++ [submit E params mode isolation_level i
                              (from_id, to_id, py_round x 2)]) h1)
        as [[all|e|] h2]; [| |contradiction].
      * destruct IH as (fresh & -> & Hids & Hall & Hout2 & _).
        exists (submit E params mode isolation_level i
                       (from_id, to_id, py_round x 2) :: fresh).
        rewrite <- app_assoc. split; [reflexivity|].
        split; [cbn [map]; now rewrite Hids|].
        split; [|split; [eapply only_drew_trans; eauto|auto]].
        constructor; auto.
        destruct (worker_task_total (worker_world E i) params mode
                    isolation_level from_id to_id (py_round x 2) 30)
          as (r & t & Hr).
        exists from_id, to_id, x, r, t.
        split; [reflexivity|]. repeat (split; [assumption|]).
        unfold submit. now rewrite Hr.
      * destruct IH as (-> & Hno & _ & Hout2).
        split; [reflexivity|]. split; [assumption|].
        split; [discriminate|]. eapply only_drew_trans; eauto.
    + split; [reflexivity|]. split; [assumption|].
      split; [discriminate|]. assumption.
Qed.

(** Lines 108-120, every outcome. *)
Lemma dispatch_cases h :
  match dispatch E params c total mode isolation_level pool range h with
  | (Ok (results, start_run, end_run), h') =>
      (1 <= c)%Z
      /\ ((total <= 0)%Z \/ two_distinct pool)
      /\ same_output h h'
      /\ clock_pos h' = S (S (clock_pos h))
      /\ start_run = fl (wall E (clock_pos h))
      /\ end_run = fl (wall E (S (clock_pos h)))
      /\ exists futures,
           map fut_id futures = python_range total
           /\ Forall (task_future E params mode isolation_level pool) futures
           /\ Permutation (map (@Ok TransactionResult) results)
                          (map fut_outcome futures)
  | (Raise e, h') =>
      same_output h h'
      /\ (((c <= 0)%Z
           /\ e = mkExn ValueError "max_workers must be greater than 0")
          \/ ((1 <= c)%Z /\ (1 <= total)%Z /\ ~ two_distinct pool
              /\ e = mkExn IndexError "Cannot choose from an empty sequence"))
  | (OutOfFuel, _) => False
  end.
Proof.
  unfold dispatch. unfold bind at 1, driver_time at 1.
  unfold bind at 1, thread_pool.
  destruct (c <=? 0)%Z eqn:Hle.
  - unfold raise. split; [repeat split|]. left. split; [lia|reflexivity].
  - unfold ret at 1. unfold bind at 1.
    match goal with
    | |- context [submit_requests _ _ _ _ _ _ _ _ ?h0] =>
        pose proof (submit_requests_cases (python_range total) [] h0)
          as Hsub;
        destruct (submit_requests E params mode isolation_level pool range
                    (python_range total) [] h0) as [[futures|e|] h1]
    end; [| |contradiction].
    + destruct Hsub as (fresh & -> & Hids & Hall & Hout & Htwo).
      cbn [app].
      assert (Hok : Forall (fun f => exists r, fut_outcome f = Ok r)
                           (as_completed E fresh)).
      { eapply Permutation_Forall; [symmetry; apply sort_by_perm|].
        eapply Forall_impl; [|exact Hall]. cbn.
        intros f (? & ? & ? & r & ? & _ & _ & _ & _ & _ & Hr). eauto. }
      destruct (collect_spec [] h1 Hok) as (results & Hcol & Hmap).
      cbn [app] in Hcol. unfold bind at 1. rewrite Hcol.
      unfold bind, driver_time, ret.
      destruct Hout as ((A1 & A2) & A3). cbn in A1, A2, A3.
      split; [lia|]. split.
      { destruct (Z_le_gt_dec total 0) as [Hz|Hz]; [left; assumption|].
        right. apply Htwo. unfold python_range.
        destruct (Z.to_nat total) eqn:Hn; [lia|]. discriminate. }
      split; [split; cbn; auto|].
      split; [cbn; congruence|].
      split; [reflexivity|]. split; [now rewrite A3|].
      exists fresh. split; [assumption|]. split; [assumption|].
      rewrite Hmap. apply Permutation_map, sort_by_perm.
    + destruct Hsub as (-> & Hno & Hids & (A1 & A2) & A3).
      cbn in A1, A2, A3.
      split; [split; auto|]. right.
      split; [lia|]. split; [|auto].
      unfold python_range in Hids. destruct (Z.to_nat total) eqn:Hn;
        [exfalso; apply Hids; reflexivity|lia].
Qed.
End RunFacts.

(** What lines 123-132 do: the detail file grows by what the file layer
    stores of the header and the rows, and a failure is printed. *)
Lemma write_detail_effect E out_detail results h h' :
  write_detail E out_detail results h = (Ok tt, h') ->
  rng_pos h' = rng_pos h /\ clock_pos h' = clock_pos h
  /\ (forall path,
        files h' path
        = grown (files h) out_detail
                (detail_written E (files h out_detail) results) path)
  /\ console h'
     = console h
       ++ reported "No se pudo escribir detalle: "
                   (detail_failure E results).
Proof.
  unfold write_detail, try_except, bind, open_append, write_and_close, ret,
    raise, print, file_is_empty, append_lines, is_exception,
    detail_written, detail_failure, header_if_empty.
  destruct (detail_sink E) as [|e|kept torn e];
    destruct results as [|r results];
    destruct (files h out_detail) as [|l f] eqn:Hf;
    intros H; injection H as <-; cbn [rng_pos clock_pos files console];
    (split; [reflexivity|]); (split; [reflexivity|]);
    (split;
     [ intros path; unfold grown; cbn [stored failure_of];
       destruct (str_eqb path out_detail); rewrite ?app_nil_r; reflexivity
     | cbn [reported failure_of]; rewrite ?app_nil_r; reflexivity ]).
Qed.

(** What lines 154-161 do. *)
Lemma write_summary_effect E out_summary s h h' :
  write_summary E out_summary s h = (Ok tt, h') ->
  rng_pos h' = rng_pos h /\ clock_pos h' = clock_pos h
  /\ (forall path,
        files h' path
        = grown (files h) out_summary
                (summary_written E (files h out_summary) s) path)
  /\ console h'
     = console h
       ++ reported "No se pudo escribir resumen: "
                   (failure_of (summary_sink E)).
Proof.
  unfold write_summary, try_except, bind, open_append, write_and_close, ret,
    raise, print, file_is_empty, append_lines, is_exception,
    summary_written, header_if_empty.
  destruct (summary_sink E) as [|e|kept torn e];
    destruct (files h out_summary) as [|l f] eqn:Hf;
    intros H; injection H as <-; cbn [rng_pos clock_pos files console];
    (split; [reflexivity|]); (split; [reflexivity|]);
    (split;
     [ intros path; unfold grown; cbn [stored failure_of];
       destruct (str_eqb path out_summary); rewrite ?app_nil_r; reflexivity
     | cbn [reported failure_of]; rewrite ?app_nil_r; reflexivity ]).
Qed.

Lemma summarize_effect E c mode isolation_level the_run_id results start_run
    end_run h s h' :
  summarize E c mode isolation_level the_run_id results start_run end_run h
  = (Ok s, h') ->
  rng_pos h' = rng_pos h /\ clock_pos h' = S (clock_pos h)
  /\ same_output h h'
  /\ run_id s = the_run_id
  /\ timestamp s = String.append (wall_iso E (clock_pos h)) "Z".
Proof.
  unfold summarize, bind, driver_utcnow_iso, ret.
  intros H. injection H as <- <-. cbn. repeat split.
Qed.

(** The four stages of a run. *)
Lemma run_experiment_cases E params c total mode isolation_level pool range
    out_detail out_summary the_run_id h :
  match run_experiment E params c total mode isolation_level pool range
                       out_detail out_summary the_run_id h
  with
  | (Ok s, h') =>
      exists results start_run end_run h1 h2 h3,
        dispatch E params c total mode isolation_level pool range h
        = (Ok (results, start_run, end_run), h1)
        /\ write_detail E out_detail results h1 = (Ok tt, h2)
        /\ summarize E c mode isolation_level the_run_id results start_run
                     end_run h2
           = (Ok s, h3)
        /\ write_summary E out_summary s h3 = (Ok tt, h')
  | (Raise e, h') =>
      dispatch E params c total mode isolation_level pool range h
      = (Raise e, h')
  | (OutOfFuel, _) => False
  end.
Proof.
  unfold run_experiment. unfold bind at 1.
  pose proof (dispatch_cases E params c total mode isolation_level pool range
                h) as Hd.
  destruct (dispatch E params c total mode isolation_level pool range h)
    as [[[[results start_run] end_run]|e|] h1]; [|reflexivity|contradiction].
  destruct (write_detail_returns E out_detail results h1) as (h2 & Hw & _).
  unfold bind at 1. rewrite Hw.
  destruct (summarize_returns E c mode isolation_level the_run_id results
              start_run end_run h2) as (s & h3 & Hs & _).
  unfold bind at 1. rewrite Hs.
  destruct (write_summary_returns E out_summary s h3) as (h4 & Hws).
  unfold bind at 1. rewrite Hws. unfold ret.
  exists results, start_run, end_run, h1, h2, h3. auto.
Qed.

(** The files after a run that returned: first the detail file grows, then
    the summary file. *)
Lemma run_experiment_files E params c total mode isolation_level pool range
    out_detail out_summary the_run_id h s h' :
  run_experiment E params c total mode isolation_level pool range
                 out_detail out_summary the_run_id h = (Ok s, h') ->
  exists results start_run end_run h1,
    dispatch E params c total mode isolation_level pool range h
    = (Ok (results, start_run, end_run), h1)
    /\ forall path,
         files h' path
         = grown (grown (files h) out_detail
                        (detail_written E (files h out_detail) results))
                 out_summary
                 (summary_written E
                    (grown (files h) out_detail
                           (detail_written E (files h out_detail) results)
                           out_summary)
                    s)
                 path.
Proof.
  intros Hrun.
  pose proof (run_experiment_cases E params c total mode isolation_level pool
                range out_detail out_summary the_run_id h) as Hcases.
  rewrite Hrun in Hcases.
  destruct Hcases as (results & start_run & end_run & h1 & h2 & h3 & Hdis
                      & Hw & Hs & Hws).
  exists results, start_run, end_run, h1. split; [assumption|].
  pose proof (dispatch_cases E params c total mode isolation_level pool range
                h) as Hd.
  rewrite Hdis in Hd. destruct Hd as (_ & _ & (Hd1 & _) & _).
  apply write_detail_effect in Hw. destruct Hw as (_ & _ & Hw1 & _).
  apply summarize_effect in Hs. destruct Hs as (_ & _ & (Hs1 & _) & _).
  apply write_summary_effect in Hws. destruct Hws as (_ & _ & Hws1 & _).
  intros path. rewrite Hws1. unfold grown.
  rewrite !Hs1, !Hw1. unfold grown. rewrite !Hd1. reflexivity.
Qed.

(** X9. [run_experiment] raises in two cases only: [ValueError] when
    [concurrency <= 0], and [IndexError] when [concurrency >= 1],
    [total_ops >= 1] and the pool has no two distinct accounts. In both cases
    nothing has been written to any file or printed. In every other case it
    returns a summary. *)
Theorem run_experiment_failures E params c total mode isolation_level pool
    range out_detail out_summary the_run_id h :
  match run_experiment E params c total mode isolation_level pool range
                       out_detail out_summary the_run_id h
  with
  | (Ok s, h') => (1 <= c)%Z /\ ((total <= 0)%Z \/ two_distinct pool)
  | (Raise e, h') =>
      same_output h h'
      /\ (((c <= 0)%Z
           /\ e = mkExn ValueError "max_workers must be greater than 0")
          \/ ((1 <= c)%Z /\ (1 <= total)%Z /\ ~ two_distinct pool
              /\ e = mkExn IndexError "Cannot choose from an empty sequence"))
  | (OutOfFuel, _) => False
  end.
Proof.
  pose proof (run_experiment_cases E params c total mode isolation_level pool
                range out_detail out_summary the_run_id h) as Hrun.
  pose proof (dispatch_cases E params c total mode isolation_level pool range
                h) as Hd.
  destruct (run_experiment E params c total mode isolation_level pool range
              out_detail out_summary the_run_id h) as [[s|e|] h'];
    [| |contradiction].
  - destruct Hrun as (results & start_run & end_run & h1 & h2 & h3 & Hdis
                      & _).
    rewrite Hdis in Hd. destruct Hd as (Hc & Hpool & _). auto.
  - rewrite Hrun in Hd. exact Hd.
Qed.

(** X10. What [run_experiment] returns or raises does not depend on what the
    file layer does with the two output files: a failure to write the detail
    or the summary never changes the measurement. *)
Theorem run_experiment_ignores_sinks E detail summary params c total mode
    isolation_level pool range out_detail out_summary the_run_id h :
  fst (run_experiment (with_sinks E detail summary) params c total mode
                      isolation_level pool range out_detail out_summary
                      the_run_id h)
  = fst (run_experiment E params c total mode isolation_level pool range
                        out_detail out_summary the_run_id h).
Proof.
  pose proof (run_experiment_cases (with_sinks E detail summary) params c
                total mode isolation_level pool range out_detail out_summary
                the_run_id h) as H1.
  pose proof (run_experiment_cases E params c total mode isolation_level pool
                range out_detail out_summary the_run_id h) as H2.
  change (dispatch (with_sinks E detail summary) params c total mode
                   isolation_level pool range h)
    with (dispatch E params c total mode isolation_level pool range h) in H1.
  destruct (run_experiment (with_sinks E detail summary) params c total mode
              isolation_level pool range out_detail out_summary the_run_id h)
    as [[s1|e1|] h1'];
    destruct (run_experiment E params c total mode isolation_level pool range
                out_detail out_summary the_run_id h) as [[s2|e2|] h2'];
    try contradiction; cbn [fst].
  - destruct H1 as (r1 & sr1 & er1 & a1 & a2 & a3 & Hd1 & Hw1 & Hs1 & _).
    destruct H2 as (r2 & sr2 & er2 & b1 & b2 & b3 & Hd2 & Hw2 & Hs2 & _).
    rewrite Hd1 in Hd2. injection Hd2 as <- <- <- <-.
    apply write_detail_effect in Hw1, Hw2.
    destruct Hw1 as (_ & Hc1 & _), Hw2 as (_ & Hc2 & _).
    revert Hs1 Hs2. unfold summarize, bind, driver_utcnow_iso, ret.
    rewrite Hc1, Hc2. cbn [wall_iso with_sinks]. intros Hs1 Hs2.
    injection Hs1 as <- _. injection Hs2 as <- _. reflexivity.
  - destruct H1 as (r1 & sr1 & er1 & a1 & a2 & a3 & Hd1 & _).
    rewrite Hd1 in H2. discriminate H2.
  - destruct H2 as (r2 & sr2 & er2 & b1 & b2 & b3 & Hd2 & _).
    rewrite Hd2 in H1. discriminate H1.
  - rewrite H1 in H2. now injection H2 as <- _.
Qed.

Lemma summary_rows_app f g :
  summary_rows (f ++ g) = summary_rows f ++ summary_rows g.
Proof.
  induction f as [|[fields|r|s|] f IH]; cbn; try assumption;
    [reflexivity|]. now rewrite IH.
Qed.



Lemma summary_shaped_append f s :
  summary_shaped f ->
  summary_shaped (f ++ header_if_empty f summary_keys ++ [SummaryRow s]).
Proof.
  destruct f as [|first rows]; cbn; [auto|].
  intros [-> Hrows]. split; [reflexivity|].
  rewrite forallb_app, Hrows. reflexivity.
Qed.


Lemma summary_rows_append f s :
  summary_rows (f ++ header_if_empty f summary_keys ++ [SummaryRow s])
  = summary_rows f ++ [s].
Proof.
  rewrite !summary_rows_app. destruct f; reflexivity.
Qed.


Lemma str_eqb_refl s : str_eqb s s = true.
Proof. apply String.eqb_refl. Qed.

Lemma str_eqb_distinct s s' : s <> s' -> str_eqb s s' = false.
Proof. apply String.eqb_neq. Qed.

(** With two distinct paths, the summary file after a run that returned. *)
Lemma run_experiment_summary_lines E params c total mode isolation_level
    pool range out_detail out_summary the_run_id h s h' :
  out_detail <> out_summary ->
  run_experiment E params c total mode isolation_level pool range
                 out_detail out_summary the_run_id h = (Ok s, h') ->
  files h' out_summary
  = files h out_summary ++ summary_written E (files h out_summary) s.
Proof.
  intros Hpaths Hrun.
  destruct (run_experiment_files _ _ _ _ _ _ _ _ _ _ _ _ Hrun)
    as (results & start_run & end_run & h1 & _ & Hfiles).
  rewrite Hfiles. unfold grown.
  rewrite str_eqb_refl, (str_eqb_distinct (not_eq_sym Hpaths)). reflexivity.
Qed.


Lemma in_map_ok_results (results : list TransactionResult) futures r :
  Permutation (map (@Ok TransactionResult) results) (map fut_outcome futures)
  -> In r results ->
  exists f, In f futures /\ fut_outcome f = Ok r.
Proof.
  intros Hperm Hin.
  assert (Hin' : In (Ok r) (map fut_outcome futures)).
  { eapply Permutation_in; [exact Hperm|]. now apply in_map. }
  apply in_map_iff in Hin'. destruct Hin' as (f & Hf & Hin'). eauto.
Qed.

(** Every result of a dispatch is the result of one of its tasks. *)
Lemma dispatch_results_of_tasks E params c total mode isolation_level pool
    range h results start_run end_run h' r :
  dispatch E params c total mode isolation_level pool range h
  = (Ok (results, start_run, end_run), h') ->
  In r results ->
  exists i from_id to_id x t,
    In from_id pool /\ In to_id pool /\ from_id <> to_id
    /\ worker_task (worker_world E i) params mode isolation_level from_id
                   to_id (py_round x 2) 30 []
       = (Ok r, t).
Proof.
  intros Hdis Hin.
  pose proof (dispatch_cases E params c total mode isolation_level pool range
                h) as Hd.
  rewrite Hdis in Hd.
  destruct Hd as (_ & _ & _ & _ & _ & _ & futures & _ & Hall & Hperm).
  destruct (@in_map_ok_results _ _ _ Hperm Hin) as (f & Hf & Hout).
  rewrite Forall_forall in Hall.
  destruct (Hall f Hf)
    as (from_id & to_id & x & r' & t & _ & Hfrom & Hto & Hne & Hrun & Hout').
  rewrite Hout in Hout'. injection Hout' as <-.
  exists (fut_id f), from_id, to_id, x, t. auto.
Qed.

Lemma dispatch_results_length E params c total mode isolation_level pool
    range h results start_run end_run h' :
  dispatch E params c total mode isolation_level pool range h
  = (Ok (results, start_run, end_run), h') ->
  List.length results = Z.to_nat total.
Proof.
  intros Hdis.
  pose proof (dispatch_cases E params c total mode isolation_level pool range
                h) as Hd.
  rewrite Hdis in Hd.
  destruct Hd as (_ & _ & _ & _ & _ & _ & futures & Hids & _ & Hperm).
  apply Permutation_length in Hperm. rewrite !length_map in Hperm.
  rewrite Hperm, <- (length_map fut_id), Hids.
  unfold python_range. now rewrite length_seq.
Qed.



(** X22. When the two paths name one file that was empty and every line is
    stored, a run with at least one result leaves the header of the detail,
    the rows of the detail and then the row of the summary, with no header
    of its own: [f.tell()] is no longer 0 at line 156. *)
Theorem run_experiment_shared_file E params c total mode isolation_level pool
    range path the_run_id h s h' :
  detail_sink E = Stores -> summary_sink E = Stores ->
  files h path = [] -> (1 <= total)%Z ->
  run_experiment E params c total mode isolation_level pool range
                 path path the_run_id h = (Ok s, h') ->
  exists results,
    List.length results = Z.to_nat total
    /\ files h' path
       = Header result_keys :: map DetailRow results ++ [SummaryRow s].
Proof.
  intros Hdet Hsum Hempty Htotal Hrun.
  destruct (run_experiment_files _ _ _ _ _ _ _ _ _ _ _ _ Hrun)
    as (results & start_run & end_run & h1 & Hdis & Hfiles).
  exists results.
  assert (Hlen := dispatch_results_length _ _ _ _ _ _ _ _ _ Hdis).
  split; [exact Hlen|].
  rewrite Hfiles. unfold grown. rewrite !str_eqb_refl, Hempty.
  unfold detail_written, summary_written. rewrite Hdet, Hsum.
  destruct results as [|r results]; [cbn in Hlen; lia|].
  cbn [stored header_if_empty app map]. reflexivity.
Qed.

Unset Implicit Arguments.

Lemma ratio_within (a n : nat) :
  (a <= n)%nat -> (0 < n)%nat ->
  0 <= inject_Z (Z.of_nat a) / inject_Z (Z.of_nat n) <= 1.
Proof.
  intros Han Hn.
  assert (Hpos : 0 < inject_Z (Z.of_nat n))
    by (rewrite <- (Zlt_Qlt 0); lia).
  assert (H0 : 0 <= inject_Z (Z.of_nat a))
    by (rewrite <- (Zle_Qle 0); lia).
  assert (Hle : inject_Z (Z.of_nat a) <= inject_Z (Z.of_nat n))
    by (rewrite <- Zle_Qle; lia).
  split.
  - apply Qle_shift_div_l; [assumption|lra].
  - apply Qle_shift_div_r; [assumption|lra].
Qed.

(** The floats 0, 1 and 100 and the rounding of 0 and 100 to two decimals. *)
Lemma fl_one : fl 1 = 1.
Proof. vm_compute. reflexivity. Qed.

Lemma fl_hundred : fl 100 = 100.
Proof. vm_compute. reflexivity. Qed.

Lemma py_round_hundred : py_round 100 2 = 100.
Proof. vm_compute. reflexivity. Qed.

(** [a / n * 100.0] for [0 <= a <= n] lies between 0 and 100. *)
Lemma rate_within (a n : nat) :
  (a <= n)%nat -> (0 < n)%nat ->
  0 <= fmul (int_true_div (Z.of_nat a) (Z.of_nat n)) 100 <= 100.
Proof.
  intros Han Hn. destruct (ratio_within a n Han Hn) as [H0 H1].
  unfold fmul, int_true_div.
  set (q := inject_Z (Z.of_nat a) / inject_Z (Z.of_nat n)) in *.
  assert (Hq0 : 0 <= fl q) by (apply fl_nonneg; assumption).
  assert (Hq1 : fl q <= 1) by (rewrite <- fl_one; apply fl_mono; assumption).
  split.
  - apply fl_nonneg. apply Qmult_le_0_compat; [assumption|discriminate].
  - rewrite <- fl_hundred at 2. apply fl_mono. lra.
Qed.

(** The rate of a run whose results all count as aborted. *)
Lemma full_rate (n : nat) :
  (0 < n)%nat ->
  py_round (fmul (int_true_div (Z.of_nat n) (Z.of_nat n)) 100) 2 = 100.
Proof.
  intros Hn.
  assert (Hq : inject_Z (Z.of_nat n) / inject_Z (Z.of_nat n) == 1).
  { assert (0 < inject_Z (Z.of_nat n)) by (rewrite <- (Zlt_Qlt 0); lia).
    field. lra. }
  unfold fmul, int_true_div. rewrite (fl_compat Hq), fl_one.
  vm_compute. reflexivity.
Qed.

(** The rate of a run none of whose results counts as aborted. *)
Lemma zero_rate (n : nat) :
  py_round (fmul (int_true_div 0 (Z.of_nat n)) 100) 2 = 0.
Proof.
  unfold fmul, int_true_div.
  rewrite (@fl_zero (inject_Z 0 / inject_Z (Z.of_nat n)))
    by (unfold Qdiv; ring).
  rewrite (@fl_zero (0 * 100)) by ring. reflexivity.
Qed.

(** The derived fields of a summary. *)
Lemma summarize_fields E c mode isolation_level the_run_id results start_run
    end_run h s h' :
  summarize E c mode isolation_level the_run_id results start_run end_run h
  = (Ok s, h') ->
  total_ops s = List.length results
  /\ completed s = count_if counts_completed (map status results)
  /\ aborted s = count_if counts_aborted (map status results)
  /\ abort_rate_pct s
     = match total_ops s with
       | O => 0
       | _ => py_round (fmul (int_true_div (Z.of_nat (aborted s))
                                           (Z.of_nat (total_ops s)))
                             100) 2
       end
  /\ avg_latency_s s
     = match map latency_s results with
       | [] => 0
       | _ => py_round (mean (map latency_s results)) 4
       end
  /\ p50_latency_s s
     = match map latency_s results with
       | [] => 0
       | _ => py_round (median (map latency_s results)) 4
       end
  /\ throughput_ops_per_s s
     = if negb (Qle_bool (fsub end_run start_run) 0)
       then py_round (fdiv (float_of_int (Z.of_nat (total_ops s)))
                           (fsub end_run start_run)) 4
       else 0.
Proof.
  unfold summarize, bind, driver_utcnow_iso, ret.
  intros H. injection H as <- _.
  cbn [total_ops completed aborted abort_rate_pct avg_latency_s
       p50_latency_s throughput_ops_per_s].
  repeat split.
Qed.

(** X13. In every summary the abort rate lies between 0 and 100 and the
    throughput is not negative; the rate is 0 when no result is counted as
    aborted and 100 when every result of a non-empty run is. *)
Theorem summarize_rate_bounds E c mode isolation_level the_run_id results
    start_run end_run h s h' :
  summarize E c mode isolation_level the_run_id results start_run end_run h
  = (Ok s, h') ->
  0 <= abort_rate_pct s <= 100
  /\ 0 <= throughput_ops_per_s s
  /\ (aborted s = 0%nat -> abort_rate_pct s == 0)
  /\ (aborted s = total_ops s -> total_ops s <> 0%nat ->
      abort_rate_pct s == 100).
Proof.
  intros Hs. apply summarize_fields in Hs.
  destruct Hs as (Hn & _ & Ha & Hrate & _ & _ & Hthr).
  assert (Hle : (aborted s <= total_ops s)%nat).
  { rewrite Ha, Hn, <- (length_map status results). apply count_if_le. }
  rewrite Hrate, Hthr. clear Hrate Hthr.
  split; [|split; [|split]].
  - destruct (total_ops s) as [|n] eqn:Hn'; [split; discriminate|].
    destruct (rate_within (aborted s) (S n) Hle ltac:(lia)) as [H0 H1].
    split.
    + apply py_round_nonneg. assumption.
    + rewrite <- py_round_hundred. apply py_round_mono. assumption.
  - destruct (negb (Qle_bool (fsub end_run start_run) 0)) eqn:Hpos;
      [|discriminate].
    apply py_round_nonneg.
    apply negb_true_iff in Hpos.
    assert (Hd : 0 < fsub end_run start_run).
    { apply Qnot_le_lt. intros Hneg. apply Qle_bool_iff in Hneg. congruence. }
    apply fl_nonneg. apply Qle_shift_div_l; [assumption|].
    assert (0 <= float_of_int (Z.of_nat (total_ops s)))
      by (apply float_of_int_nonneg; lia).
    lra.
  - intros Hz. rewrite Hz. destruct (total_ops s); [reflexivity|].
    change (Z.of_nat 0) with 0%Z. rewrite zero_rate. reflexivity.
  - intros Hall Hne. rewrite Hall.
    destruct (total_ops s) as [|n] eqn:Hn'; [congruence|].
    rewrite full_rate by lia. reflexivity.
Qed.

Lemma Qsum_within l lo hi :
  Forall (fun x => lo <= x <= hi) l ->
  inject_Z (Z.of_nat (List.length l)) * lo <= Qsum l
  /\ Qsum l <= inject_Z (Z.of_nat (List.length l)) * hi.
Proof.
  induction 1 as [|x l [Hlo Hhi] Hall [IHlo IHhi]].
  - cbn [List.length]. change (inject_Z (Z.of_nat 0)) with 0.
    change (Qsum []) with 0. split; lra.
  - change (Qsum (x :: l)) with (x + Qsum l).
    cbn [List.length]. replace (Z.of_nat (S (List.length l)))
      with (Z.of_nat (List.length l) + 1)%Z by lia.
    rewrite inject_Z_plus. change (inject_Z 1) with 1. split; lra.
Qed.

(** The mean of numbers between two bounds lies between the floats nearest
    to the bounds. *)
Lemma mean_within l lo hi :
  l <> [] ->
  Forall (fun x => lo <= x <= hi) l ->
  fl lo <= mean l <= fl hi.
Proof.
  intros Hne Hall. destruct (Qsum_within l lo hi Hall) as [Hlo Hhi].
  assert (Hn : 0 < inject_Z (Z.of_nat (List.length l))).
  { rewrite <- (Zlt_Qlt 0). destruct l; [congruence|cbn; lia]. }
  unfold mean. split; apply fl_mono.
  - apply Qle_shift_div_l; [assumption|]. lra.
  - apply Qle_shift_div_r; [assumption|]. lra.
Qed.

(** A float stays a float when doubled. *)
Lemma binary64_double x : binary64 x -> binary64 (2 * x).
Proof.
  intros (m & k & Hx & Hm & Hk). exists m, (k + 1)%Z.
  split; [|split; [assumption|lia]].
  rewrite Hx, pow2_succ. ring.
Qed.

Lemma fl_two : float_of_int 2 = 2.
Proof. vm_compute. reflexivity. Qed.

(** A float between two bounds lies between the floats nearest to them. *)
Lemma float_within x lo hi :
  binary64 x -> lo <= x <= hi -> fl lo <= x <= fl hi.
Proof.
  intros Hx [Hlo Hhi].
  split; rewrite <- (@fl_repr x Hx); apply fl_mono; assumption.
Qed.

(** The half-sum of two floats that lie between two floats lies between
    them. *)
Lemma midpoint_within x y lo hi :
  binary64 lo -> binary64 hi ->
  lo <= x <= hi -> lo <= y <= hi ->
  lo <= fdiv (fadd x y) (float_of_int 2) <= hi.
Proof.
  intros Hlo Hhi [X1 X2] [Y1 Y2]. unfold fdiv, fadd. rewrite fl_two.
  assert (S1 : 2 * lo <= fl (x + y)).
  { rewrite <- (@fl_repr (2 * lo) (binary64_double lo Hlo)).
    apply fl_mono. lra. }
  assert (S2 : fl (x + y) <= 2 * hi).
  { rewrite <- (@fl_repr (2 * hi) (binary64_double hi Hhi)).
    apply fl_mono. lra. }
  split.
  - rewrite <- (@fl_repr lo Hlo). apply fl_mono.
    apply Qle_shift_div_l; [reflexivity|lra].
  - rewrite <- (@fl_repr hi Hhi). apply fl_mono.
    apply Qle_shift_div_r; [reflexivity|lra].
Qed.

Lemma median_within l lo hi :
  l <> [] ->
  Forall binary64 l ->
  Forall (fun x => lo <= x <= hi) l ->
  fl lo <= median l <= fl hi.
Proof.
  intros Hne Hfloat Hall. unfold median.
  set (data := sort_by Qle_bool l).
  assert (Hperm : Permutation data l) by apply sort_by_perm.
  assert (Hdata : Forall (fun x => fl lo <= x <= fl hi) data).
  { eapply Permutation_Forall; [symmetry; exact Hperm|].
    rewrite Forall_forall in *. intros x Hin.
    apply float_within; auto. }
  assert (Hlen : (0 < List.length data)%nat).
  { rewrite (Permutation_length Hperm). destruct l; [congruence|cbn; lia]. }
  rewrite Forall_forall in Hdata.
  assert (Hnth : forall i, (i < List.length data)%nat ->
                           fl lo <= nth i data 0 <= fl hi)
    by (intros i Hi; apply Hdata, nth_In, Hi).
  assert (Hhalf : (List.length data / 2 < List.length data)%nat)
    by (apply Nat.div_lt; lia).
  destruct (Nat.odd (List.length data)); [now apply Hnth|].
  apply midpoint_within; try apply fl_binary64.
  - apply Hnth. lia.
  - apply Hnth. assumption.
Qed.

(** X14. The two latency figures of a summary stay within the range of the
    measured latencies: when every result of a non-empty run has a float
    latency in [[lo, hi]], the average and the median lie between
    [round(lo, 4)] and [round(hi, 4)], the bounds being taken as floats. *)
Theorem summarize_latency_bounds E c mode isolation_level the_run_id results
    start_run end_run h s h' lo hi :
  summarize E c mode isolation_level the_run_id results start_run end_run h
  = (Ok s, h') ->
  results <> [] ->
  (forall r, In r results ->
             binary64 (latency_s r) /\ lo <= latency_s r <= hi) ->
  py_round (fl lo) 4 <= avg_latency_s s <= py_round (fl hi) 4
  /\ py_round (fl lo) 4 <= p50_latency_s s <= py_round (fl hi) 4.
Proof.
  intros Hs Hne Hall. apply summarize_fields in Hs.
  destruct Hs as (_ & _ & _ & _ & Havg & Hp50 & _).
  assert (Hl : Forall (fun x => lo <= x <= hi) (map latency_s results)).
  { apply Forall_forall. intros x Hin. apply in_map_iff in Hin.
    destruct Hin as (r & <- & Hin). now apply Hall. }
  assert (Hf : Forall binary64 (map latency_s results)).
  { apply Forall_forall. intros x Hin. apply in_map_iff in Hin.
    destruct Hin as (r & <- & Hin). now apply Hall. }
  assert (Hne' : map latency_s results <> [])
    by (destruct results; [congruence|discriminate]).
  destruct (mean_within _ lo hi Hne' Hl) as [M1 M2].
  destruct (median_within _ lo hi Hne' Hf Hl) as [N1 N2].
  rewrite Havg, Hp50.
  destruct (map latency_s results); [congruence|].
  repeat split; apply py_round_mono; assumption.
Qed.

Set Implicit Arguments.

Lemma count_if_all {A} (f : A -> bool) l :
  (forall x, In x l -> f x = true) -> count_if f l = List.length l.
Proof.
  induction l as [|x l IH]; intros Hall; [reflexivity|].
  cbn. fold (count_if f l). rewrite (Hall x (or_introl eq_refl)).
  rewrite IH; [reflexivity|]. intros y Hy. apply Hall. now right.
Qed.

Lemma count_if_none {A} (f : A -> bool) l :
  (forall x, In x l -> f x = false) -> count_if f l = 0%nat.
Proof.
  induction l as [|x l IH]; intros Hall; [reflexivity|].
  cbn. fold (count_if f l). rewrite (Hall x (or_introl eq_refl)).
  apply IH. intros y Hy. apply Hall. now right.
Qed.

(** A run with a sound configuration returns; its stages. *)
Lemma run_experiment_stages E params c total mode isolation_level pool range
    out_detail out_summary the_run_id h :
  (1 <= c)%Z ->
  two_distinct pool ->
  exists s h' results start_run end_run h1 h2 h3,
    run_experiment E params c total mode isolation_level pool range
                   out_detail out_summary the_run_id h = (Ok s, h')
    /\ dispatch E params c total mode isolation_level pool range h
       = (Ok (results, start_run, end_run), h1)
    /\ write_detail E out_detail results h1 = (Ok tt, h2)
    /\ summarize E c mode isolation_level the_run_id results start_run
                 end_run h2
       = (Ok s, h3)
    /\ write_summary E out_summary s h3 = (Ok tt, h').
Proof.
  intros Hc Hpool.
  pose proof (run_experiment_cases E params c total mode isolation_level pool
                range out_detail out_summary the_run_id h) as Hrun.
  pose proof (dispatch_cases E params c total mode isolation_level pool range
                h) as Hd.
  destruct (run_experiment E params c total mode isolation_level pool range
              out_detail out_summary the_run_id h) as [[s|e|] h'];
    [| |contradiction].
  - destruct Hrun as (results & start_run & end_run & h1 & h2 & h3 & Hrun).
    exists s, h', results, start_run, end_run, h1, h2, h3. auto.
  - rewrite Hrun in Hd. destruct Hd as (_ & [[Hle _]|(_ & _ & Hno & _)]);
      [lia|contradiction].
Qed.

(** X15. When the server cannot be reached by any task of a run, every
    request of the run is counted as aborted: the summary reports
    [aborted = total_ops], the number of requests, and an abort rate of
    100. *)
Theorem run_experiment_server_down E params c total mode isolation_level pool
    range out_detail out_summary the_run_id h :
  (1 <= c)%Z ->
  (1 <= total)%Z ->
  two_distinct pool ->
  (forall i, never_connects (worker_world E i) params) ->
  exists s h',
    run_experiment E params c total mode isolation_level pool range
                   out_detail out_summary the_run_id h = (Ok s, h')
    /\ Z.of_nat (total_ops s) = total
    /\ aborted s = total_ops s
    /\ abort_rate_pct s == 100.
Proof.
  intros Hc Htotal Hpool Hdown.
  destruct (@run_experiment_stages E params c total mode isolation_level pool
              range out_detail out_summary the_run_id h Hc Hpool)
    as (s & h' & results & start_run & end_run & h1 & h2 & h3 & Hrun & Hdis
        & _ & Hs & _).
  exists s, h'. split; [assumption|].
  pose proof Hdis as Hlen. apply dispatch_results_length in Hlen.
  pose proof Hs as Hf. apply summarize_fields in Hf.
  destruct Hf as (Hn & _ & Ha & _).
  assert (Hall : aborted s = total_ops s).
  { rewrite Ha, Hn, <- (length_map status results). apply count_if_all.
    intros st Hin. apply in_map_iff in Hin. destruct Hin as (r & <- & Hin).
    eapply dispatch_results_of_tasks in Hin; [|exact Hdis].
    destruct Hin as (i & from_id & to_id & x & t & _ & _ & _ & Hr).
    destruct (@worker_task_unreachable (worker_world E i) params mode
                isolation_level from_id to_id (py_round x 2) 30 (Hdown i))
      as (r' & t' & e & Hr' & Hst & _).
    rewrite Hr in Hr'. injection Hr' as <- _. rewrite Hst.
    apply conn_err_counts_aborted. }
  split; [lia|]. split; [assumption|].
  apply summarize_fields in Hs. destruct Hs as (_ & _ & _ & Hrate & _).
  rewrite Hrate, Hall. destruct (total_ops s) as [|n]; [lia|].
  rewrite full_rate by lia. reflexivity.
Qed.

(** X16. When no call is refused in the world of any task and the mode is
    none of 2pl, ts and opt, every request of the run is counted as
    completed and none as aborted: [completed = total_ops], the number of
    requests, [aborted = 0] and the abort rate is 0. *)
Theorem run_experiment_manual_mode_clean E params c total mode
    isolation_level pool range out_detail out_summary the_run_id h :
  (1 <= c)%Z ->
  (0 <= total)%Z ->
  two_distinct pool ->
  str_eqb mode "2pl" || str_eqb mode "ts" || str_eqb mode "opt" = false ->
  (forall i, never_throws (worker_world E i)) ->
  exists s h',
    run_experiment E params c total mode isolation_level pool range
                   out_detail out_summary the_run_id h = (Ok s, h')
    /\ Z.of_nat (total_ops s) = total
    /\ completed s = total_ops s
    /\ aborted s = 0%nat
    /\ abort_rate_pct s == 0.
Proof.
  intros Hc Htotal Hpool Hmode Hquiet.
  destruct (@run_experiment_stages E params c total mode isolation_level pool
              range out_detail out_summary the_run_id h Hc Hpool)
    as (s & h' & results & start_run & end_run & h1 & h2 & h3 & Hrun & Hdis
        & _ & Hs & _).
  exists s, h'. split; [assumption|].
  pose proof Hdis as Hlen. apply dispatch_results_length in Hlen.
  pose proof Hs as Hf. apply summarize_fields in Hf.
  destruct Hf as (Hn & Hcomp & Ha & Hrate & _).
  assert (Hst : forall st, In st (map status results) ->
                           st = Some "COMPLETADA"%string).
  { intros st Hin. apply in_map_iff in Hin. destruct Hin as (r & <- & Hin).
    eapply dispatch_results_of_tasks in Hin; [|exact Hdis].
    destruct Hin as (i & from_id & to_id & x & t & _ & _ & _ & Hr).
    destruct (@worker_task_quiet (worker_world E i) params mode
                isolation_level from_id to_id (py_round x 2) 30 (Hquiet i))
      as (r' & t' & Hr' & _ & Hst).
    rewrite Hr in Hr'. injection Hr' as <- _. auto. }
  assert (Hzero : aborted s = 0%nat).
  { rewrite Ha. apply count_if_none. intros st Hin.
    now rewrite (Hst st Hin). }
  split; [lia|]. split; [|split; [assumption|]].
  - rewrite Hcomp, Hn, <- (length_map status results). apply count_if_all.
    intros st Hin. now rewrite (Hst st Hin).
  - rewrite Hrate, Hzero. destruct (total_ops s); [reflexivity|].
    change (Z.of_nat 0) with 0%Z. rewrite zero_rate. reflexivity.
Qed.


(* ------------------------------------------------------------------ *)
(** ** The two counters of a run *)

Unset Implicit Arguments.

(** An exception that leaves [make_conn] was raised by a connection attempt,
    when the backoff is not negative and [time.sleep] accepts the delays. *)
Lemma make_conn_loop_raised_by_connect W p max_retries backoff fuel :
  0 <= backoff ->
  sleep_ns (delay backoff max_retries) < inject_Z (2 ^ 63) ->
  forall attempt t e,
    (0 <= attempt)%Z ->
    fst (make_conn_loop W p max_retries backoff fuel attempt t) = Raise e ->
    exists t0, db W t0 (Connect p) = Throws e.
Proof.
  intros Hb Hs. induction fuel as [|fuel IH]; intros attempt t e Hpos;
    [discriminate|].
  cbn [make_conn_loop]. unfold try_except, perform.
  destruct (db W t (Connect p)) as [c|e0] eqn:Hdb; [discriminate|].
  destruct (is_operational e0).
  - destruct (attempt + 1 >? max_retries)%Z eqn:Hgt.
    + unfold raise. cbn [fst]. intros H. injection H as <-. now exists t.
    + unfold bind. fold (delay backoff (attempt + 1)).
      rewrite sleep_accepts
        by (apply (delay_sleepable backoff max_retries); auto; lia).
      apply IH. lia.
  - cbn [fst]. intros H. injection H as <-. now exists t.
Qed.

Lemma make_conn_default_raised_by_connect W p t e :
  fst (make_conn W p 3 1 t) = Raise e ->
  exists t0, db W t0 (Connect p) = Throws e.
Proof.
  unfold make_conn.
  apply (make_conn_loop_raised_by_connect W p 3 1);
    [discriminate|vm_compute; reflexivity|lia].
Qed.

Set Implicit Arguments.

(** Where the status of a result comes from: the constant of the manual
    mode, the row the transfer function reported, or the text of an
    exception that a call raised, behind one of the two prefixes. *)
Lemma worker_task_status_origin W params mode isolation_level from_id to_id
    amt tx_timeout r t :
  worker_task W params mode isolation_level from_id to_id amt tx_timeout []
  = (Ok r, t) ->
  status r = Some "COMPLETADA"%string
  \/ (exists t0 c status_row,
         db W t0 (Fetchone c) = Returns status_row
         /\ status r = status_of_row status_row)
  \/ (exists t0 c e,
         db W t0 c = Throws e
         /\ (status r
             = Some (String.append "ABORT: " (replace_newline (exn_msg e)))
             \/ status r
                = Some (String.append "CONN_ERR: "
                                      (replace_newline (exn_msg e))))).
Proof.
  pose proof (make_conn_default_raised_by_connect W params
                [EvTime; EvUtcnow]) as Hconn.
  revert Hconn. enter_worker W params.
  - intros Hconn Hrun. injection Hrun as <- _. cbn [status].
    destruct (Hconn e eq_refl) as [t0 H0].
    right; right. exists t0, (Connect params), e. auto.
  - intros _.
    destruct (str_eqb mode "2pl"); [|destruct (str_eqb mode "ts");
      [|destruct (str_eqb mode "opt")]];
      repeat (db_step W; run_step);
      (intros Hrun; injection Hrun as <- _; cbn [status];
       first
         [ left; reflexivity
         | right; left;
           match goal with
           | H : db W ?t0 (Fetchone ?c0) = Returns ?row |- _ =>
               exists t0, c0, row; split; [exact H|reflexivity]
           end
         | right; right;
           match goal with
           | H : db W ?t0 ?c0 = Throws ?x |- _ =>
               exists t0, c0, x; split; [exact H|];
               first [left; reflexivity | right; reflexivity]
           end ]).
Qed.

Lemma abort_text_not_completed msg :
  counts_completed (Some (String.append "ABORT: " msg))
  = contains "COMPLETADA" msg.
Proof. reflexivity. Qed.

Lemma conn_err_text_not_completed msg :
  counts_completed (Some (String.append "CONN_ERR: " msg))
  = contains "COMPLETADA" msg.
Proof. reflexivity. Qed.

(** In a world whose statuses never pass both tests, neither does the
    status of a result. *)
Lemma worker_task_never_both W params mode isolation_level from_id to_id amt
    tx_timeout r t :
  never_both W ->
  worker_task W params mode isolation_level from_id to_id amt tx_timeout []
  = (Ok r, t) ->
  counts_completed (status r) && counts_aborted (status r) = false.
Proof.
  intros [Hrow Htext] Hrun.
  destruct (worker_task_status_origin _ _ _ _ _ _ _ _ Hrun)
    as [->|[(t0 & c & status_row & Hdb & ->)
           |(t0 & c & e & Hdb & [->| ->])]].
  - reflexivity.
  - destruct status_row as [col|]; [|reflexivity]. eapply Hrow; eauto.
  - rewrite abort_text_not_completed, (Htext _ _ _ Hdb). reflexivity.
  - rewrite conn_err_text_not_completed, (Htext _ _ _ Hdb). reflexivity.
Qed.

(** In a world that keeps to the status vocabulary, the status of a result
    passes one of the two tests. *)
Lemma worker_task_in_vocabulary W params mode isolation_level from_id to_id
    amt tx_timeout r t :
  in_vocabulary W ->
  worker_task W params mode isolation_level from_id to_id amt tx_timeout []
  = (Ok r, t) ->
  counts_completed (status r) || counts_aborted (status r) = true.
Proof.
  intros Hrow Hrun.
  destruct (worker_task_status_origin _ _ _ _ _ _ _ _ Hrun)
    as [->|[(t0 & c & status_row & Hdb & ->)
           |(t0 & c & e & Hdb & [->| ->])]].
  - reflexivity.
  - specialize (Hrow t0 c). rewrite Hdb in Hrow.
    destruct status_row as [col|]; [exact Hrow|contradiction].
  - rewrite abort_counts_aborted. apply orb_true_r.
  - rewrite conn_err_counts_aborted. apply orb_true_r.
Qed.

(** Counting with two tests that no element passes together, and with two
    tests of which every element passes one. *)
Lemma counts_at_most {A} (f g : A -> bool) l :
  (forall x, In x l -> f x && g x = false) ->
  (count_if f l + count_if g l <= List.length l)%nat.
Proof.
  induction l as [|x l IH]; intros Hall; [reflexivity|].
  cbn [count_if fold_right List.length].
  fold (count_if f l) (count_if g l).
  specialize (Hall x (or_introl eq_refl)) as Hx.
  assert (IH' := IH (fun y Hin => Hall y (or_intror Hin))).
  destruct (f x), (g x); cbn in Hx; try discriminate; lia.
Qed.

Lemma counts_at_least {A} (f g : A -> bool) l :
  (forall x, In x l -> f x || g x = true) ->
  (List.length l <= count_if f l + count_if g l)%nat.
Proof.
  induction l as [|x l IH]; intros Hall; [reflexivity|].
  cbn [count_if fold_right List.length].
  fold (count_if f l) (count_if g l).
  specialize (Hall x (or_introl eq_refl)) as Hx.
  assert (IH' := IH (fun y Hin => Hall y (or_intror Hin))).
  destruct (f x), (g x); cbn in Hx; try discriminate; lia.
Qed.

(** C2, amended. A run returns unless its configuration is refused, with one
    result per request. When in the world of every task no status passes
    both tests of lines 136-137 (not the status the transfer function
    reports, and no error text quotes COMPLETADA), the two counters of the
    summary add up to at most the number of results; when moreover the
    transfer function always reports a row whose status passes one of the
    two tests, every status classifies into exactly one bucket and the two
    counters add up to the number of results. *)
Theorem run_experiment_counts_partition E params c total mode isolation_level
    pool range out_detail out_summary the_run_id h :
  (forall i, never_both (worker_world E i)) ->
  match run_experiment E params c total mode isolation_level pool range
                       out_detail out_summary the_run_id h
  with
  | (Ok s, h') =>
      total_ops s = Z.to_nat total
      /\ (completed s + aborted s <= total_ops s)%nat
      /\ ((forall i, in_vocabulary (worker_world E i)) ->
          (completed s + aborted s = total_ops s)%nat)
  | (Raise e, h') => (c <= 0)%Z \/ ((1 <= total)%Z /\ ~ two_distinct pool)
  | (OutOfFuel, _) => False
  end.
Proof.
  intros Hboth.
  pose proof (run_experiment_cases E params c total mode isolation_level pool
                range out_detail out_summary the_run_id h) as Hrun.
  pose proof (dispatch_cases E params c total mode isolation_level pool range
                h) as Hd.
  destruct (run_experiment E params c total mode isolation_level pool range
              out_detail out_summary the_run_id h) as [[s|e|] h'];
    [| |contradiction].
  - destruct Hrun as (results & start_run & end_run & h1 & h2 & h3 & Hdis
                      & _ & Hs & _).
    apply summarize_fields in Hs. destruct Hs as (Hn & Hc & Ha & _).
    rewrite Hn, Hc, Ha, <- (length_map status results).
    assert (Htask : forall st, In st (map status results) ->
              exists i from_id to_id x r t,
                worker_task (worker_world E i) params mode isolation_level
                            from_id to_id (py_round x 2) 30 []
                = (Ok r, t)
                /\ st = status r).
    { intros st Hin. apply in_map_iff in Hin. destruct Hin as (r & <- & Hin).
      eapply dispatch_results_of_tasks in Hin; [|exact Hdis].
      destruct Hin as (i & from_id & to_id & x & t & _ & _ & _ & Hr).
      exists i, from_id, to_id, x, r, t. auto. }
    assert (Hmost : (count_if counts_completed (map status results)
                     + count_if counts_aborted (map status results)
                     <= List.length (map status results))%nat).
    { apply counts_at_most. intros st Hin.
      destruct (Htask st Hin) as (i & from_id & to_id & x & r & t & Hr & ->).
      eapply worker_task_never_both; [apply Hboth|exact Hr]. }
    split; [rewrite length_map; eapply dispatch_results_length; eauto|].
    split; [exact Hmost|].
    intros Hvoc. apply Nat.le_antisymm; [exact Hmost|].
    apply counts_at_least. intros st Hin.
    destruct (Htask st Hin) as (i & from_id & to_id & x & r & t & Hr & ->).
    eapply worker_task_in_vocabulary; [apply Hvoc|exact Hr].
  - rewrite Hrun in Hd. destruct Hd as (_ & [[Hle _]|(_ & Ht & Hno & _)]);
      auto.
Qed.

Lemma reporting_world_never_both : never_both reporting_world.
Proof.
  split.
  - intros t c col H. cbn in H. injection H as <-. reflexivity.
  - intros t c e H. destruct c; discriminate H.
Qed.

Lemma reporting_world_in_vocabulary : in_vocabulary reporting_world.
Proof. intros t c. reflexivity. Qed.

Lemma sample_pool_two_distinct : two_distinct sample_pool.
Proof. exists 1%Z, 2%Z. cbn. intuition discriminate. Qed.

(** The theorem on a run of two requests whose transfers are reported
    completed. *)
Lemma reporting_run_counts_partition :
  exists s h',
    reporting_run = (Ok s, h')
    /\ total_ops s = 2%nat
    /\ (completed s + aborted s = total_ops s)%nat.
Proof.
  pose proof (@run_experiment_counts_partition
                (sample_setting reporting_world) sample_params 5 2 "2pl"
                "READ COMMITTED" sample_pool sample_range "detalle.csv"
                "resumen.csv" 1 fresh_machine
                (fun _ => reporting_world_never_both)) as H.
  fold reporting_run in H.
  destruct reporting_run as [[s|e|] h']; [| |contradiction].
  - destruct H as (Hn & _ & Hsum).
    exists s, h'. split; [reflexivity|]. split; [exact Hn|].
    apply Hsum. intros i. apply reporting_world_in_vocabulary.
  - exfalso. destruct H as [H|[_ H]]; [lia|].
    apply H, sample_pool_two_distinct.
Defined.

(* ------------------------------------------------------------------ *)
(** ** Command line *)

Example parse_accounts_samples :
  parse_accounts "1,2,3,4" = Returns [1; 2; 3; 4]%Z
  /\ parse_accounts " 7 ,, -12,+3 , 1_000," = Returns [7; -12; 3; 1000]%Z
  /\ parse_accounts "" = Returns []
  /\ parse_accounts "1,x" = Throws (mkExn ValueError
                                "invalid literal for int() with base 10")
  /\ parse_accounts "1__0" = Throws (mkExn ValueError
                                "invalid literal for int() with base 10")
  /\ parse_accounts "1 2" = Throws (mkExn ValueError
                                "invalid literal for int() with base 10")
  /\ str_int 0 = "0"%string /\ str_int (-120) = "-120"%string.
Proof. repeat split. Qed.

Lemma chars_append s1 s2 : chars (String.append s1 s2) = chars s1 ++ chars s2.
Proof.
  unfold chars. induction s1 as [|c s1 IH]; [reflexivity|].
  cbn. now rewrite IH.
Qed.

Lemma split_on_plain sep w :
  ~ In sep (chars w) -> split_on sep w = (w, []).
Proof.
  induction w as [|c w IH]; intros Hno; [reflexivity|].
  cbn [split_on]. rewrite IH by (intros H; apply Hno; now right).
  destruct (Ascii.eqb_spec c sep) as [->|Hne]; [|reflexivity].
  exfalso. apply Hno. now left.
Qed.

Lemma split_on_field sep w rest :
  ~ In sep (chars w) ->
  split_on sep (String.append w (String sep rest))
  = (w, py_split sep rest).
Proof.
  induction w as [|c w IH]; intros Hno.
  - cbn [String.append split_on]. unfold py_split.
    destruct (split_on sep rest) as [a b]. now rewrite Ascii.eqb_refl.
  - cbn [String.append split_on].
    rewrite IH by (intros H; apply Hno; now right).
    destruct (Ascii.eqb_spec c sep) as [->|Hne]; [|reflexivity].
    exfalso. apply Hno. now left.
Qed.

(** Splitting what was joined gives the fields back. *)
Lemma py_split_concat sep w ws :
  Forall (fun x => ~ In sep (chars x)) (w :: ws) ->
  py_split sep (String.concat (String sep EmptyString) (w :: ws)) = w :: ws.
Proof.
  revert w. induction ws as [|v ws IH]; intros w Hall.
  - inversion Hall; subst. cbn [String.concat]. unfold py_split.
    now rewrite split_on_plain.
  - inversion Hall as [|? ? Hw Hrest]; subst.
    change (String.concat (String sep EmptyString) (w :: v :: ws))
      with (String.append w
              (String sep (String.concat (String sep EmptyString) (v :: ws)))).
    unfold py_split at 1.
    rewrite split_on_field by assumption. now rewrite IH.
Qed.

Lemma lstrip_blanks width s : lstrip (String.append (blanks width) s) = lstrip s.
Proof. induction width as [|n IH]; [reflexivity|exact IH]. Qed.

Lemma rstrip_blanks_only width : rstrip (blanks width) = EmptyString.
Proof.
  induction width as [|n IH]; [reflexivity|].
  change (blanks (S n)) with (String " "%char (blanks n)).
  cbn [rstrip]. now rewrite IH.
Qed.

Lemma rstrip_blanks width s :
  rstrip (String.append s (blanks width)) = rstrip s.
Proof.
  induction s as [|c s IH]; [apply rstrip_blanks_only|].
  cbn [String.append rstrip]. now rewrite IH.
Qed.

Lemma rstrip_plain s :
  Forall (fun c => is_space c = false) (chars s) -> rstrip s = s.
Proof.
  induction s as [|c s IH]; intros Hall; [reflexivity|].
  inversion Hall as [|? ? Hc Hs]; subst.
  cbn [rstrip]. rewrite (IH Hs), Hc. now destruct s.
Qed.

Lemma lstrip_plain s :
  Forall (fun c => is_space c = false) (chars s) -> lstrip s = s.
Proof.
  destruct s as [|c s]; intros Hall; [reflexivity|].
  inversion Hall as [|? ? Hc Hs]; subst. cbn [lstrip]. now rewrite Hc.
Qed.

Lemma strip_plain s :
  Forall (fun c => is_space c = false) (chars s) -> strip s = s.
Proof.
  intros Hall. unfold strip. now rewrite lstrip_plain, rstrip_plain.
Qed.

(** The characters of a printed number: digits, behind at most a minus. *)
Lemma uint_chars d c :
  In c (chars (DecimalString.NilEmpty.string_of_uint d)) -> digit_of c <> None.
Proof.
  induction d; cbn; intros H; try contradiction;
    (destruct H as [<-|H]; [discriminate|auto]).
Qed.

Lemma str_int_chars n c :
  In c (chars (str_int n)) -> c = "-"%char \/ digit_of c <> None.
Proof.
  unfold str_int, DecimalString.NilEmpty.string_of_int.
  destruct (Z.to_int n) as [d|d]; cbn.
  - intros H. right. eapply uint_chars; eauto.
  - intros [<-|H]; [now left|]. right. eapply uint_chars; eauto.
Qed.

Lemma str_int_plain n :
  Forall (fun c => is_space c = false) (chars (str_int n))
  /\ ~ In ","%char (chars (str_int n)).
Proof.
  split.
  - apply Forall_forall. intros c Hc.
    destruct (str_int_chars n c Hc) as [->|Hd]; [reflexivity|].
    destruct c as [[|] [|] [|] [|] [|] [|] [|] [|]];
      first [reflexivity | exfalso; apply Hd; reflexivity].
  - intros Hc. destruct (str_int_chars n _ Hc) as [H|H];
      [discriminate H|apply H; reflexivity].
Qed.

Ltac eval_digit_of :=
  repeat match goal with
         | |- context [digit_of (Ascii ?a ?b ?c ?d ?e ?f ?g ?h)] =>
             let v := eval vm_compute in
                        (digit_of (Ascii a b c d e f g h)) in
             change (digit_of (Ascii a b c d e f g h)) with v
         end.

Lemma parse_digits_acc d : forall acc,
  parse_digits (DecimalString.NilEmpty.string_of_uint d) (Zpos acc) true
  = Some (Zpos (Pos.of_uint_acc d acc)).
Proof.
  induction d; intros acc;
    cbn [DecimalString.NilEmpty.string_of_uint parse_digits Pos.of_uint_acc];
    [reflexivity|..]; eval_digit_of; cbv iota;
    match goal with
    | |- parse_digits _ ?v true = Some (Zpos (Pos.of_uint_acc _ ?p)) =>
        replace v with (Zpos p) by lia; apply IHd
    end.
Qed.

Lemma parse_digits_uint d : forall after_digit,
  d <> Decimal.Nil \/ after_digit = true ->
  parse_digits (DecimalString.NilEmpty.string_of_uint d) 0 after_digit
  = Some (Z.of_N (Pos.of_uint d)).
Proof.
  induction d; intros after_digit Hd;
    cbn [DecimalString.NilEmpty.string_of_uint parse_digits Pos.of_uint];
    eval_digit_of; cbv iota;
    [destruct Hd as [Hd| ->]; [congruence|reflexivity]
    |apply IHd; now right
    |apply (parse_digits_acc d)..].
Qed.

Lemma count_digits_uint d :
  count_digits (DecimalString.NilEmpty.string_of_uint d)
  = String.length (DecimalString.NilEmpty.string_of_uint d).
Proof. induction d; cbn; congruence. Qed.

(** [int(str(n))] is [n], within the limit on digits. *)
Lemma py_int_str_int n :
  (count_digits (str_int n) <= int_max_str_digits)%nat ->
  py_int (str_int n) = Returns n.
Proof.
  intros Hlen. unfold py_int.
  rewrite strip_plain by apply str_int_plain.
  apply Nat.ltb_ge in Hlen. rewrite Hlen. clear Hlen.
  unfold str_int. rewrite <- (DecimalZ.of_to n) at 2.
  destruct n as [|p|p]; cbn [Z.to_int DecimalString.NilEmpty.string_of_int Z.of_int];
    [reflexivity| |].
  - pose proof (DecimalPos.Unsigned.to_uint_nonnil p) as Hnil.
    pose proof (@parse_digits_uint (Pos.to_uint p) false (or_introl Hnil))
      as Hparse.
    unfold Z.of_uint.
    destruct (Pos.to_uint p) eqn:Hd; [congruence|..];
      cbn [DecimalString.NilEmpty.string_of_uint] in *; now rewrite Hparse.
  - pose proof (DecimalPos.Unsigned.to_uint_nonnil p) as Hnil.
    rewrite (@parse_digits_uint (Pos.to_uint p) false (or_introl Hnil)).
    reflexivity.
Qed.

Lemma str_int_nonempty n : str_int n <> EmptyString.
Proof.
  unfold str_int. destruct n as [|p|p]; cbn; try discriminate.
  pose proof (DecimalPos.Unsigned.to_uint_nonnil p).
  destruct (Pos.to_uint p); [congruence|discriminate..].
Qed.

Lemma strip_render f :
  strip (render f)
  = match f with Blank _ => EmptyString | Account _ n _ => str_int n end.
Proof.
  destruct f as [width|before n after]; unfold strip, render.
  - assert (H : forall w, lstrip (blanks w) = EmptyString)
      by (induction w; auto).
    now rewrite H.
  - rewrite lstrip_blanks.
    destruct (str_int_plain n) as [Hplain _].
    assert (Hl : lstrip (String.append (str_int n) (blanks after))
                 = String.append (str_int n) (blanks after)).
    { pose proof (str_int_nonempty n) as Hne.
      destruct (str_int n) as [|c s]; [congruence|].
      inversion Hplain; subst. cbn. now rewrite H1. }
    rewrite Hl, rstrip_blanks. now apply rstrip_plain.
Qed.

Lemma render_no_comma f : ~ In ","%char (chars (render f)).
Proof.
  assert (Hb : forall w, ~ In ","%char (chars (blanks w))).
  { induction w as [|w IH]; cbn; [tauto|]. intros [H|H]; [discriminate|auto]. }
  destruct f as [width|before n after]; unfold render; [apply Hb|].
  rewrite !chars_append, !in_app_iff.
  intros [H|[H|H]]; [eapply Hb; eauto| |eapply Hb; eauto].
  apply (proj2 (str_int_plain n) H).
Qed.

Lemma parse_fields_render fields :
  Forall short_enough fields ->
  parse_fields (map render fields) = Returns (accounts_of fields).
Proof.
  induction 1 as [|f fields Hf Hall IH]; [reflexivity|].
  cbn [map parse_fields]. rewrite strip_render.
  destruct f as [width|before n after]; cbn [accounts_of]; [exact IH|].
  pose proof (str_int_nonempty n) as Hne.
  rewrite py_int_str_int by assumption. rewrite IH.
  destruct (str_int n); [congruence|reflexivity].
Qed.

(** X17. [parse_accounts] reads back any list of account numbers written in
    decimal and separated by commas, whatever blanks surround the numbers
    and whatever empty or blank fields lie between them (within CPython's
    limit of 4300 digits per number). *)
Theorem parse_accounts_reads_back fields :
  Forall short_enough fields ->
  parse_accounts (String.concat "," (map render fields))
  = Returns (accounts_of fields).
Proof.
  intros Hall. unfold parse_accounts.
  destruct fields as [|f fields]; [reflexivity|].
  cbn [map]. rewrite py_split_concat.
  - now apply (parse_fields_render Hall).
  - change (render f :: map render fields) with (map render (f :: fields)).
    apply Forall_forall. intros x Hx. apply in_map_iff in Hx.
    destruct Hx as (g & <- & _). apply render_no_comma.
Qed.

(** X18. [parse_accounts] never drops a field silently: it either raises
    [ValueError] or returns exactly one number for each field of the text
    that is not blank. *)
Theorem parse_accounts_outcome s :
  match parse_accounts s with
  | Returns ns => List.length ns = List.length (nonblank_fields s)
  | Throws e => exn_kind e = ValueError
  end.
Proof.
  unfold parse_accounts, nonblank_fields.
  induction (py_split "," s) as [|x fields IH]; [reflexivity|].
  cbn [parse_fields filter].
  destruct (strip x) as [|c rest] eqn:Hx; [exact IH|].
  cbn [str_eqb String.eqb negb].
  assert (Hint : match py_int (String c rest) with
                 | Returns _ => True
                 | Throws e => exn_kind e = ValueError
                 end).
  { unfold py_int.
    destruct (int_max_str_digits <? count_digits (strip (String c rest)))%nat;
      [reflexivity|].
    destruct (strip (String c rest)) as [|[[|] [|] [|] [|] [|] [|] [|] [|]] r];
      cbv zeta;
      repeat match goal with
             | |- context [parse_digits ?a ?b ?d] =>
                 destruct (parse_digits a b d)
             end; exact I || reflexivity. }
  destruct (py_int (String c rest)) as [n|e]; [|exact Hint].
  destruct (parse_fields fields) as [ns|e]; [|exact IH].
  cbn [List.length]. now rewrite IH.
Qed.

Example python_range_from_samples :
  python_range_from 1 4 = [1; 2; 3]%Z /\ python_range_from 1 1 = []
  /\ python_range_from 1 (-2) = [].
Proof. repeat split. Qed.


(** The summary of a run carries the number of the run. *)
Lemma run_experiment_run_id E params c total mode isolation_level pool range
    out_detail out_summary the_run_id h s h' :
  run_experiment E params c total mode isolation_level pool range
                 out_detail out_summary the_run_id h = (Ok s, h') ->
  run_id s = the_run_id.
Proof.
  intros Hrun.
  pose proof (run_experiment_cases E params c total mode isolation_level pool
                range out_detail out_summary the_run_id h) as Hcases.
  rewrite Hrun in Hcases.
  destruct Hcases as (results & start_run & end_run & h1 & h2 & h3 & _ & _
                      & Hs & _).
  apply summarize_effect in Hs. now destruct Hs as (_ & _ & _ & Hid & _).
Qed.

Section MainFacts.
Variable env : Z -> setting.
Variable show_args : args -> string.
Variable show_summary : RunSummary -> string.

Lemma print_effect text h :
  print text h
  = (Ok tt, mkMachine (rng_pos h) (clock_pos h) (files h)
                      (console h ++ [text])).
Proof. reflexivity. Qed.

(** Lines 199-202 with a configuration that [run_experiment] accepts. *)
Lemma run_all_sound a params pool range runs : forall h,
  (1 <= a_concurrency a)%Z ->
  ((a_total a <= 0)%Z \/ two_distinct pool) ->
  exists h' summaries,
    run_all env show_summary a params pool range runs h = (Ok tt, h')
    /\ map run_id summaries = runs
    /\ (a_out_detail a <> a_out_summary a ->
        (forall run, summary_sink (env run) = Stores) ->
        summary_shaped (files h (a_out_summary a)) ->
        summary_shaped (files h' (a_out_summary a))
        /\ summary_rows (files h' (a_out_summary a))
           = summary_rows (files h (a_out_summary a)) ++ summaries).
Proof.
  induction runs as [|run runs IH]; intros h Hc Hpool.
  - exists h, []. cbn. split; [reflexivity|]. split; [reflexivity|].
    intros _ _ Hshape. now rewrite app_nil_r.
  - cbn [run_all]. unfold bind at 1. rewrite print_effect.
    set (h0 := mkMachine (rng_pos h) (clock_pos h) (files h)
                         (console h ++ [progress_line a run])).
    pose proof (run_experiment_cases (env run) params (a_concurrency a)
                  (a_total a) (a_mode a) (a_isolation a) pool range
                  (a_out_detail a) (a_out_summary a) run h0)
      as Hcases.
    pose proof (dispatch_cases (env run) params (a_concurrency a) (a_total a)
                  (a_mode a) (a_isolation a) pool range h0) as Hd.
    unfold bind at 1.
    destruct (run_experiment (env run) params (a_concurrency a) (a_total a)
                (a_mode a) (a_isolation a) pool range (a_out_detail a)
                (a_out_summary a) run h0)
      as [[s|e|] h1] eqn:Hrun; [| |contradiction].
    + unfold bind at 1. rewrite print_effect.
      match goal with
      | |- context [run_all _ _ _ _ _ _ _ ?h2] =>
          destruct (IH h2 Hc Hpool) as (h' & summaries & Hall & Hids & Hfile);
          rewrite Hall
      end.
      exists h', (s :: summaries).
      assert (Hid := run_experiment_run_id _ _ _ _ _ _ _ _ _ _ _ _ Hrun).
      split; [reflexivity|]. split; [cbn [map]; congruence|].
      intros Hpaths Hstores Hshape.
      assert (Hsf := run_experiment_summary_lines _ _ _ _ _ _ _ _ _ _
                       Hpaths Hrun).
      unfold summary_written in Hsf. rewrite Hstores in Hsf.
      cbn [stored files] in Hsf, Hfile.
      destruct (Hfile Hpaths Hstores) as (Hshape' & Hrows).
      { rewrite Hsf. now apply summary_shaped_append. }
      split; [assumption|].
      rewrite Hrows, Hsf, summary_rows_append, <- app_assoc. reflexivity.
    + exfalso. rewrite Hcases in Hd.
      destruct Hd as (_ & [[Hle _]|(_ & Htot & Hno & _)]); [lia|].
      destruct Hpool; [lia|contradiction].
Qed.

(** Lines 199-202 with a configuration that [run_experiment] refuses. *)
Lemma run_all_unsound a params pool range run runs h :
  ~ ((1 <= a_concurrency a)%Z /\ ((a_total a <= 0)%Z \/ two_distinct pool)) ->
  exists e h',
    run_all env show_summary a params pool range (run :: runs) h
    = (Raise e, h')
    /\ (forall path, files h' path = files h path)
    /\ (((a_concurrency a <= 0)%Z
         /\ e = mkExn ValueError "max_workers must be greater than 0")
        \/ ((1 <= a_concurrency a)%Z /\ (1 <= a_total a)%Z
            /\ ~ two_distinct pool
            /\ e = mkExn IndexError "Cannot choose from an empty sequence")).
Proof.
  intros Hbad. cbn [run_all]. unfold bind at 1. rewrite print_effect.
  set (h0 := mkMachine (rng_pos h) (clock_pos h) (files h)
                       (console h ++ [progress_line a run])).
  pose proof (run_experiment_cases (env run) params (a_concurrency a)
                (a_total a) (a_mode a) (a_isolation a) pool range
                (a_out_detail a) (a_out_summary a) run h0)
    as Hcases.
  pose proof (dispatch_cases (env run) params (a_concurrency a) (a_total a)
                (a_mode a) (a_isolation a) pool range h0) as Hd.
  unfold bind at 1.
  destruct (run_experiment (env run) params (a_concurrency a) (a_total a)
              (a_mode a) (a_isolation a) pool range (a_out_detail a)
              (a_out_summary a) run h0)
    as [[s|e|] h1]; [| |contradiction].
  - exfalso.
    destruct Hcases as (results & start_run & end_run & a1 & a2 & a3 & Hdis
                        & _).
    rewrite Hdis in Hd. destruct Hd as (Hc & Hpool & _). auto.
  - rewrite Hcases in Hd. destruct Hd as ((Hd1 & _) & Hwhy).
    exists e, h1. split; [reflexivity|]. split; [exact Hd1|exact Hwhy].
Qed.

(** X19. [main] is all or nothing for the output files: either it runs
    every run and returns, or it raises before anything is written to any
    file. It raises exactly when the accounts text is malformed
    ([ValueError]), or when at least one run is requested and
    [run_experiment] refuses the configuration ([concurrency <= 0], or
    [total >= 1] with a pool that has no two distinct accounts). *)
Theorem main_all_or_nothing a h :
  match main env show_args show_summary a h with
  | (Ok _, h') =>
      exists pool,
        parse_accounts (a_accounts a) = Returns pool
        /\ ((a_runs a <= 0)%Z
            \/ ((1 <= a_concurrency a)%Z
                /\ ((a_total a <= 0)%Z \/ two_distinct pool)))
  | (Raise e, h') =>
      (forall path, files h' path = files h path)
      /\ (parse_accounts (a_accounts a) = Throws e
          \/ exists pool,
               parse_accounts (a_accounts a) = Returns pool
               /\ (1 <= a_runs a)%Z
               /\ (((a_concurrency a <= 0)%Z
                    /\ e = mkExn ValueError
                                 "max_workers must be greater than 0")
                   \/ ((1 <= a_concurrency a)%Z /\ (1 <= a_total a)%Z
                       /\ ~ two_distinct pool
                       /\ e = mkExn IndexError
                                    "Cannot choose from an empty sequence")))
  | (OutOfFuel, _) => False
  end.
Proof.
  unfold main. unfold bind at 1.
  destruct (parse_accounts (a_accounts a)) as [pool|e] eqn:Hparse;
    cbn [of_answer]; [unfold ret at 1|unfold raise; auto].
  unfold bind at 1. rewrite print_effect.
  set (h0 := mkMachine (rng_pos h) (clock_pos h) (files h)
                       (console h ++ [String.append parameters_label
                                                    (show_args a)])).
  set (params := mkParams (a_host a) (a_port a) (a_user a) (a_password a)
                          (a_dbname a)).
  set (range := (a_amount_min a, a_amount_max a)).
  destruct (python_range_from 1 (a_runs a + 1)) as [|run runs] eqn:Hruns.
  - cbn. exists pool. split; [reflexivity|]. left.
    unfold python_range_from in Hruns.
    destruct (Z.to_nat (a_runs a + 1 - 1)) eqn:Hn; [lia|discriminate].
  - assert (Hone : (1 <= a_runs a)%Z).
    { unfold python_range_from in Hruns.
      destruct (Z.to_nat (a_runs a + 1 - 1)) eqn:Hn; [discriminate|lia]. }
    assert (Hdec : ((1 <= a_concurrency a)%Z
                    /\ ((a_total a <= 0)%Z \/ two_distinct pool))
                   \/ ~ ((1 <= a_concurrency a)%Z
                         /\ ((a_total a <= 0)%Z \/ two_distinct pool))).
    { pose proof (dispatch_cases (env run) params (a_concurrency a)
                    (a_total a) (a_mode a) (a_isolation a) pool range h0)
        as Hd.
      destruct (dispatch (env run) params (a_concurrency a) (a_total a)
                  (a_mode a) (a_isolation a) pool range h0)
        as [[[[x1 x2] x3]|x|] x4]; [| |contradiction].
      - left. destruct Hd as (A & B & _). auto.
      - right. destruct Hd as (_ & [[A _]|(_ & A & B & _)]);
          intros (C & D); [lia|]. destruct D; [lia|contradiction]. }
    destruct Hdec as [(Hc & Hpool)|Hbad].
    + destruct (run_all_sound a params range (run :: runs) h0 Hc Hpool)
        as (h' & summaries & Hall & _).
      rewrite Hall. exists pool. auto.
    + destruct (@run_all_unsound a params pool range run runs h0 Hbad)
        as (e & h' & Hall & Hd & Hwhy).
      rewrite Hall. split; [exact Hd|].
      right. exists pool. auto.
Qed.

End MainFacts.

(* ------------------------------------------------------------------ *)
(** ** The further properties on the sample worlds *)

Lemma quiet_world_never_throws : never_throws quiet_world.
Proof. intros t c. destruct c; eexists; reflexivity. Qed.

Lemma unreachable_world_never_connects p : never_connects unreachable_world p.
Proof. intros t. eexists. reflexivity. Qed.

Lemma manual_run_is_clean :
  exists r t,
    manual_run = (Ok r, t)
    /\ executed t = [SetLocalTimeout 30000; BeginIsolation "READ COMMITTED";
                     Debit (10 # 1) 1; Credit (10 # 1) 2;
                     LogInsert 1 2 (10 # 1)]
    /\ count_if is_conn_close t = 1%nat
    /\ status r = Some "COMPLETADA"%string.
Proof.
  do 2 eexists. split; [vm_compute; reflexivity|].
  edestruct (@worker_task_clean_result quiet_world sample_params "simple"
               "READ COMMITTED" 1 2 (10 # 1) 30)
    as (Hexec & _ & _ & Hclose & Hstatus).
  - vm_compute. reflexivity.
  - reflexivity.
  - split; [exact Hexec|]. split; [exact Hclose|].
    apply Hstatus. reflexivity.
Defined.

Lemma commit_failure_is_counted :
  exists r t,
    commit_fails_run = (Ok r, t) /\ counts_aborted (status r) = true.
Proof.
  do 2 eexists. split; [vm_compute; reflexivity|].
  eapply (@worker_task_failure_is_counted commit_fails_world sample_params
            "ts" "SERIALIZABLE" 3 4 (25 # 2) 30).
  - vm_compute. reflexivity.
  - discriminate.
Defined.

Lemma close_failure_after_commit :
  exists r t,
    close_fails_run = (Ok r, t)
    /\ count_if is_rollback t = 0%nat
    /\ status r = Some "CONN_ERR: connection lost"%string.
Proof.
  do 2 eexists. split; [vm_compute; reflexivity|].
  match goal with
  | |- count_if is_rollback ?t = _ /\ status ?r = _ =>
      destruct (@worker_task_after_commit close_fails_world sample_params
                  "simple" "READ COMMITTED" 1 2 (10 # 1) 30 r t 1%nat)
        as (Hroll & Hraised)
  end.
  - vm_compute. reflexivity.
  - cbn [In]. repeat first [left; reflexivity | right].
  - split; [exact Hroll|].
    destruct (Hraised (ConnClose 1%nat)
                (mkExn OperationalError "connection lost"))
      as (_ & Hstatus & _); [find_event|discriminate|exact Hstatus].
Defined.

Unset Implicit Arguments.

Lemma flaky_connection_recovers :
  make_conn flaky_world sample_params 3 1 []
  = (Ok 1%nat,
     [EvDb (Connect sample_params) None; EvSleep 1;
      EvDb (Connect sample_params)
           (Some (mkExn OperationalError "connection reset"))]).
Proof.
  apply (proj1 (make_conn_recovers flaky_world sample_params 3 1 []
                  [mkExn OperationalError "connection reset"]
                  ltac:(discriminate) ltac:(vm_compute; reflexivity)
                  ltac:(repeat constructor) ltac:(cbn; lia)
                  ltac:(cbn; auto))).
  reflexivity.
Defined.

Lemma no_retry_budget_single_attempt :
  make_conn unreachable_world sample_params 0 1 []
  = (Raise (mkExn OperationalError "connection refused"),
     [EvDb (Connect sample_params)
           (Some (mkExn OperationalError "connection refused"))]).
Proof.
  apply (make_conn_without_retries unreachable_world sample_params 0 1 []).
  lia.
Defined.

(** With the server down and the defaults, [make_conn] makes four attempts
    and sleeps 1, 2 and 3 seconds. *)
Lemma server_down_sleeps_one_two_three :
  count_if is_connect (snd (make_conn unreachable_world sample_params 3 1 []))
  = 4%nat
  /\ rev (sleeps (snd (make_conn unreachable_world sample_params 3 1 [])))
     = [1; 2; 3].
Proof.
  destruct (make_conn_sleep_schedule unreachable_world sample_params 3 1
              ltac:(discriminate) ltac:(vm_compute; reflexivity))
    as (n & Hcount & _ & Hsleeps & _).
  assert (Hn : n = 3%nat).
  { assert (Hfour : count_if is_connect
                      (snd (make_conn unreachable_world sample_params 3 1 []))
                    = 4%nat) by (vm_compute; reflexivity).
    rewrite Hfour in Hcount. now injection Hcount as <-. }
  subst n. split; [exact Hcount|].
  rewrite Hsleeps. vm_compute. reflexivity.
Defined.

(** With a backoff of -1 second the first retry raises [ValueError]. *)
Lemma negative_backoff_stops_at_first_retry :
  make_conn unreachable_world sample_params 3 (-1 # 1) []
  = (Raise (mkExn ValueError "sleep length must be non-negative"),
     [EvDb (Connect sample_params)
           (Some (mkExn OperationalError "connection refused"))]).
Proof.
  apply (make_conn_negative_backoff unreachable_world sample_params 3
           (-1 # 1) [] (mkExn OperationalError "connection refused")).
  - exists (-1)%Z, 0%Z. split; [reflexivity|]. split; [cbn; lia|lia].
  - reflexivity.
  - vm_compute. discriminate.
  - lia.
  - reflexivity.
  - reflexivity.
Defined.

Set Implicit Arguments.

Lemma unreachable_run_only_connects :
  exists r t,
    unreachable_run = (Ok r, t)
    /\ (forall c o, In (EvDb c o) t -> c = Connect sample_params)
    /\ error r = Some "connection refused"%string.
Proof.
  do 2 eexists. split; [vm_compute; reflexivity|].
  edestruct (@worker_task_without_session unreachable_world sample_params
               "2pl" "READ COMMITTED" 1 2 (10 # 1) 30)
    as (Honly & e & rest & Hlog & _ & Herr).
  - vm_compute. reflexivity.
  - cbn [In]. intros Hin.
    repeat (destruct Hin as [Hin|Hin]; [discriminate Hin|]). contradiction.
  - split; [exact Honly|]. injection Hlog as <- _. exact Herr.
Defined.


(** The sample run of two manual transfers returns. *)
Lemma sample_run_returns out_detail out_summary :
  exists s h',
    run_experiment (sample_setting quiet_world) sample_params 5 2
                   "simple" "READ COMMITTED" sample_pool sample_range
                   out_detail out_summary 1 fresh_machine
    = (Ok s, h').
Proof.
  destruct (@run_experiment_stages (sample_setting quiet_world) sample_params
              5 2 "simple" "READ COMMITTED" sample_pool sample_range
              out_detail out_summary 1 fresh_machine ltac:(lia)
              sample_pool_two_distinct)
    as (s & h' & _ & _ & _ & _ & _ & _ & Hrun & _).
  now exists s, h'.
Qed.



(** One file for both outputs: the summary row follows the detail rows and
    has no header of its own. *)
Lemma shared_file_run_mixes_rows :
  exists s h' results,
    shared_file_run = (Ok s, h')
    /\ List.length results = 2%nat
    /\ files h' "salida.csv"
       = Header result_keys :: map DetailRow results ++ [SummaryRow s]
    /\ ~ summary_shaped (files h' "salida.csv")
    /\ ~ detail_shaped (files h' "salida.csv").
Proof.
  destruct (sample_run_returns "salida.csv" "salida.csv") as (s & h' & Hrun).
  destruct (@run_experiment_shared_file (sample_setting quiet_world)
              sample_params 5 2 "simple" "READ COMMITTED" sample_pool
              sample_range "salida.csv" 1 fresh_machine s h'
              eq_refl eq_refl eq_refl ltac:(lia) Hrun)
    as (results & Hlen & Hfile).
  exists s, h', results. split; [exact Hrun|]. split; [exact Hlen|].
  split; [exact Hfile|]. rewrite Hfile. split.
  - intros [H _]. discriminate H.
  - intros [_ H]. rewrite forallb_app in H. cbn in H.
    now rewrite andb_false_r in H.
Defined.

Unset Implicit Arguments.

(** One aborted result of three: the rate is the float 33.33. *)
Lemma sample_summary_rate_bounds :
  exists s h',
    mixed_summary = (Ok s, h')
    /\ abort_rate_pct s = fl (3333 # 100)
    /\ 0 <= abort_rate_pct s <= 100.
Proof.
  do 2 eexists. split; [vm_compute; reflexivity|].
  split; [vm_compute; reflexivity|].
  eapply (summarize_rate_bounds (sample_setting quiet_world) 5 "simple"
            "READ COMMITTED" 1 [sample_result; aborted_result; sample_result]
            0 2 fresh_machine).
  vm_compute. reflexivity.
Defined.

Lemma quarter_is_float : binary64 (1 # 4).
Proof.
  exists 1%Z, (-2)%Z. split; [reflexivity|]. split; [cbn; lia|lia].
Qed.

Lemma three_eighths_is_float : binary64 (3 # 8).
Proof.
  exists 3%Z, (-3)%Z. split; [reflexivity|]. split; [cbn; lia|lia].
Qed.

(** Latencies 0.25, 0.375 and 0.25: both figures lie between 0.25 and
    0.375. *)
Lemma sample_summary_latency_bounds :
  exists s h',
    mixed_summary = (Ok s, h')
    /\ (1 # 4) <= avg_latency_s s <= (3 # 8)
    /\ (1 # 4) <= p50_latency_s s <= (3 # 8).
Proof.
  assert (Hlo : py_round (fl (1 # 4)) 4 = 1 # 4) by (vm_compute; reflexivity).
  assert (Hhi : py_round (fl (3 # 8)) 4 = 3 # 8) by (vm_compute; reflexivity).
  destruct mixed_summary as [[s|e|] h'] eqn:Hrun;
    [|vm_compute in Hrun; discriminate Hrun..].
  exists s, h'. split; [reflexivity|].
  unfold mixed_summary in Hrun.
  pose proof (summarize_latency_bounds (sample_setting quiet_world) 5
                "simple" "READ COMMITTED" 1
                [sample_result; aborted_result; sample_result] 0 2
                fresh_machine s h' (1 # 4) (3 # 8) Hrun) as H.
  rewrite Hlo, Hhi in H. apply H; [discriminate|].
  intros r [<-|[<-|[<-|[]]]]; cbn [latency_s sample_result aborted_result];
    (split; [first [apply quarter_is_float|apply three_eighths_is_float]
            |split; discriminate]).
Defined.

Set Implicit Arguments.

Lemma sample_server_down_run :
  exists s h',
    run_experiment (sample_setting unreachable_world) sample_params 5 2 "2pl"
                   "READ COMMITTED" sample_pool sample_range
                   "detalle.csv" "resumen.csv" 1 fresh_machine
    = (Ok s, h')
    /\ aborted s = total_ops s
    /\ abort_rate_pct s == 100.
Proof.
  destruct (@run_experiment_server_down (sample_setting unreachable_world)
              sample_params 5 2 "2pl" "READ COMMITTED" sample_pool
              sample_range "detalle.csv" "resumen.csv" 1 fresh_machine)
    as (s & h' & Hrun & _ & Hall & Hrate).
  - lia.
  - lia.
  - exact sample_pool_two_distinct.
  - intros i. apply unreachable_world_never_connects.
  - exists s, h'. auto.
Defined.

Lemma sample_manual_run_clean :
  exists s h',
    run_experiment (sample_setting quiet_world) sample_params 5 2 "simple"
                   "READ COMMITTED" sample_pool sample_range
                   "detalle.csv" "resumen.csv" 1 fresh_machine
    = (Ok s, h')
    /\ completed s = total_ops s
    /\ aborted s = 0%nat.
Proof.
  destruct (@run_experiment_manual_mode_clean (sample_setting quiet_world)
              sample_params 5 2 "simple" "READ COMMITTED" sample_pool
              sample_range "detalle.csv" "resumen.csv" 1 fresh_machine)
    as (s & h' & Hrun & _ & Hall & Hnone & _).
  - lia.
  - lia.
  - exact sample_pool_two_distinct.
  - reflexivity.
  - intros i. apply quiet_world_never_throws.
  - exists s, h'. auto.
Defined.

Lemma sample_accounts_read_back :
  parse_accounts " 1,2 ,, 30,-4"
  = Returns [1; 2; 30; -4]%Z.
Proof.
  apply (@parse_accounts_reads_back
           [Account 1 1 0; Account 0 2 1; Blank 0; Account 1 30 0;
            Account 0 (-4) 0]).
  repeat first [apply Forall_nil | apply Forall_cons];
    first [exact I | apply Nat.leb_le; vm_compute; reflexivity].
Defined.

